(** * Enchat: a shallow embedding of the transport and synchronisation core

    The development follows the layout of the Python package:
    [Py] collects the interpreter and standard-library operations the
    code relies on, and one module per source file ([state],
    [session_key], [file_transfer], [link_sharing], [commands], [input],
    [enchat]) holds the translation of that file.  The properties proved of them follow the
    translation, one section per concern.

    Data model.  A Python [str] and a Python [bytes] are both a Rocq
    [string]: a sequence of 8-bit characters, a character of a [str] being
    a code point below 256.  Dictionaries are [gmap]s, JSON integers are
    [Z], wall-clock readings are rationals. *)

From Stdlib Require Import ZArith QArith Qround Lqa String Ascii List Lia Permutation.
From stdpp Require Import base option list gmap strings fin_maps sorting pretty.

Open Scope string_scope.
Open Scope list_scope.
Open Scope Z_scope.

Abbreviation str := string (only parsing).
Abbreviation bytes := string (only parsing).

(** ** Interpreter and standard-library operations *)
Module Py.

Definition chars (s : string) : list ascii := list_ascii_of_string s.
Definition of_chars (l : list ascii) : string := string_of_list_ascii l.

(** [len(s)] *)
Definition len (s : string) : Z := Z.of_nat (List.length (chars s)).

(** [s[:k]], where a negative [k] counts from the end. *)
Definition slice_to (s : string) (k : Z) : string :=
  let l := chars s in
  if k <? 0 then of_chars (take (Z.to_nat (len s + k)) l)
  else of_chars (take (Z.to_nat k) l).

(** [s[k:]] for a non-negative [k]. *)
Definition slice_from (s : string) (k : nat) : string :=
  of_chars (drop k (chars s)).

Definition ascii_eqb (a b : ascii) : bool := Ascii.eqb a b.

(** [s.rfind(c)] for a one-character [c]: the last index of [c], if any. *)
Fixpoint rfind_from (c : ascii) (i : nat) (l : list ascii) : option nat :=
  match l with
  | [] => None
  | x :: l' =>
      match rfind_from c (S i) l' with
      | Some j => Some j
      | None => if ascii_eqb x c then Some i else None
      end
  end.

Definition rfind (c : ascii) (s : string) : option nat :=
  rfind_from c 0 (chars s).

(** [s.startswith(c)] for a one-character [c]. *)
Definition startswith_char (c : ascii) (s : string) : bool :=
  match s with
  | String x _ => ascii_eqb x c
  | EmptyString => false
  end.

(** [posixpath.basename(p)]: [i = p.rfind('/') + 1; return p[i:]]. *)
Definition basename (p : string) : string :=
  match rfind "/" p with
  | Some i => slice_from p (S i)
  | None => p
  end.

(** The loop of [genericpath._splitext] that skips the leading dots of
    the last path component: it answers whether some character in
    [p[filenameIndex:dotIndex]] differs from a dot. *)
Fixpoint has_non_dot (l : list ascii) : bool :=
  match l with
  | [] => false
  | x :: l' => if ascii_eqb x "." then has_non_dot l' else true
  end.

(** [posixpath.splitext(p)]. *)
Definition splitext (p : string) : string * string :=
  let sep_index : Z := match rfind "/" p with Some i => Z.of_nat i | None => -1 end in
  match rfind "." p with
  | Some dot_index =>
      if sep_index <? Z.of_nat dot_index then
        let filename_index := Z.to_nat (sep_index + 1) in
        if has_non_dot (take (dot_index - filename_index) (drop filename_index (chars p)))
        then (slice_to p (Z.of_nat dot_index), slice_from p dot_index)
        else (p, "")
      else (p, "")
  | None => (p, "")
  end.

(** [re.sub(r'[...]', repl, s)] for a character class given as a
    predicate and a one-character replacement. *)
Definition re_sub_class (cls : ascii -> bool) (repl : ascii) (s : string) : string :=
  of_chars (map (fun c => if cls c then repl else c) (chars s)).

(** [s.partition(c)] for a one-character [c]: the text before the first
    [c], whether there is one, and the text after it. *)
Fixpoint partition_chars (c : ascii) (l : list ascii) : list ascii * bool * list ascii :=
  match l with
  | [] => ([], false, [])
  | x :: l' =>
      if ascii_eqb x c then ([], true, l')
      else let '(a, found, b) := partition_chars c l' in (x :: a, found, b)
  end.

Definition partition (c : ascii) (s : string) : string * string :=
  let '(a, _, b) := partition_chars c (chars s) in (of_chars a, of_chars b).

Fixpoint is_prefix (p l : list ascii) : bool :=
  match p, l with
  | [], _ => true
  | _ :: _, [] => false
  | a :: p', b :: l' => ascii_eqb a b && is_prefix p' l'
  end.

(** [sub in s]: some suffix of [s] starts with [sub]. *)
Fixpoint occurs (sub l : list ascii) : bool :=
  match l with
  | [] => is_prefix sub []
  | _ :: l' => is_prefix sub l || occurs sub l'
  end.

Definition contains (sub s : string) : bool := occurs (chars sub) (chars s).

(** [s.split(sep, maxsplit)]: scanning from the left, every occurrence of
    [sep] ends a field until [maxsplit] (if given) is used up.  [skip]
    counts the characters of a separator still to be passed over; the
    head of the answer is the field under construction. *)
Fixpoint split_go (sep : list ascii) (maxsplit : option nat) (skip : nat)
    (l : list ascii) : list (list ascii) :=
  match l with
  | [] => [[]]
  | c :: l' =>
      match skip with
      | S k => split_go sep maxsplit k l'
      | O =>
          let may_split := match maxsplit with Some O => false | _ => true end in
          if may_split && is_prefix sep l then
            [] :: split_go sep (Nat.pred <$> maxsplit) (List.length sep - 1) l'
          else
            match split_go sep maxsplit 0 l' with
            | field :: fields => (c :: field) :: fields
            | [] => [[c]]
            end
      end
  end.

Definition split (sep : string) (maxsplit : option nat) (s : string) : list string :=
  map of_chars (split_go (chars sep) maxsplit 0 (chars s)).

(** [c.isspace()] for a code point below 256. *)
Definition isspace (c : ascii) : bool :=
  let n := nat_of_ascii c in
  ((9 <=? n) && (n <=? 13) || (28 <=? n) && (n <=? 32) || (n =? 133) || (n =? 160))%nat.

(** [c.lower()] for a code point below 256. *)
Definition lower_char (c : ascii) : ascii :=
  let n := nat_of_ascii c in
  if ((65 <=? n) && (n <=? 90) || (192 <=? n) && (n <=? 222) && negb (n =? 215))%nat
  then ascii_of_nat (n + 32) else c.

Definition lower (s : string) : string := of_chars (map lower_char (chars s)).

Fixpoint drop_while (p : ascii -> bool) (l : list ascii) : list ascii :=
  match l with
  | [] => []
  | x :: l' => if p x then drop_while p l' else l
  end.

Fixpoint take_while (p : ascii -> bool) (l : list ascii) : list ascii :=
  match l with
  | [] => []
  | x :: l' => if p x then x :: take_while p l' else []
  end.

(** [s.strip()] and [s.strip(c)]: the characters satisfying [p] are
    removed from both ends. *)
Definition strip_with (p : ascii -> bool) (s : string) : string :=
  of_chars (rev (drop_while p (rev (drop_while p (chars s))))).

Definition strip (s : string) : string := strip_with isspace s.
Definition strip_char (c : ascii) (s : string) : string := strip_with (ascii_eqb c) s.

(** [s.endswith(c)] for a one-character [c] *)
Definition endswith_char (c : ascii) (s : string) : bool :=
  match rev (chars s) with
  | x :: _ => ascii_eqb x c
  | [] => false
  end.

Definition digit_of (c : ascii) : option Z :=
  let n := nat_of_ascii c in
  if ((48 <=? n) && (n <=? 57))%nat then Some (Z.of_nat (n - 48)) else None.

(** The digits of an [int] literal: underscores may separate digits. *)
Fixpoint int_digits (acc : Z) (after_digit : bool) (l : list ascii) : option Z :=
  match l with
  | [] => if after_digit then Some acc else None
  | c :: l' =>
      match digit_of c with
      | Some d => int_digits (10 * acc + d) true l'
      | None =>
          if ascii_eqb c "_" && after_digit then
            match l' with
            | [] => None
            | c' :: _ => if is_Some_dec (digit_of c') then int_digits acc false l' else None
            end
          else None
      end
  end.

(** [int(s)] for a string: [None] stands for [ValueError]. *)
Definition int (s : string) : option Z :=
  match chars (strip s) with
  | [] => None
  | c :: l =>
      if ascii_eqb c "-" then Z.opp <$> int_digits 0 false l
      else if ascii_eqb c "+" then int_digits 0 false l
      else int_digits 0 false (c :: l)
  end.

(** [int(x)] for a clock reading: truncation towards zero. *)
Definition int_of_float (x : Q) : Z :=
  if Qle_bool 0 x then Qfloor x else Qceiling x.

(** [a > b] on clock readings. *)
Definition Qgtb (a b : Q) : bool := negb (Qle_bool a b).

End Py.


(** ** Exceptions

    A call either returns or raises; [try ... except Exception] is a
    match on the outcome. *)
Inductive exn : Type :=
  | ValueError | KeyError | TypeError | InvalidToken | UnicodeDecodeError
  | OSError.

Inductive result (A : Type) : Type :=
  | Ok (a : A)
  | Raised (e : exn).
Arguments Ok {A} a.
Arguments Raised {A} e.

#[export] Instance result_ret : MRet result := fun A a => Ok a.
#[export] Instance result_bind : MBind result := fun A B k m =>
  match m with
  | Ok a => k a
  | Raised e => Raised e
  end.

(** An operation of a library that fails with one kind of exception. *)
Definition or_raise {A} (e : exn) (o : option A) : result A :=
  match o with
  | Some a => Ok a
  | None => Raised e
  end.

Definition returns {A} (r : result A) : Prop := exists a, r = Ok a.

(** ** The libraries the package imports

    [cryptography.fernet], [hashlib], [base64] and the utf-8 codec are not
    part of the package.  They enter the development through their
    interface and the laws the code relies on:
    - [Fernet key] is the constructor, failing on a malformed key;
    - [fernet_encrypt] takes the random initialisation vector and the
      clock reading it consumes as an explicit [entropy] argument;
    - [fernet_decrypt] answers [None] where the library raises
      [InvalidToken];
    - a hash object is modelled by the bytes it has been fed, and
      [sha256_hexdigest] is the digest of those bytes. *)
Class PyLib : Type := {
  utf8_encode : str -> bytes;
  utf8_decode : bytes -> option str;
  utf8_decode_encode : forall s, utf8_decode (utf8_encode s) = Some s;
  utf8_encode_decode : forall b s, utf8_decode b = Some s -> utf8_encode s = b;

  urlsafe_b64encode : bytes -> bytes;
  urlsafe_b64decode : str -> option bytes;
  b64_text : forall b, is_Some (utf8_decode (urlsafe_b64encode b));
  b64_decode_encode : forall b s,
    utf8_decode (urlsafe_b64encode b) = Some s -> urlsafe_b64decode s = Some b;

  sha256_hexdigest : bytes -> str;

  fernet : Type;
  entropy : Type;
  Fernet : bytes -> option fernet;
  fernet_encrypt : fernet -> entropy -> bytes -> bytes;
  fernet_decrypt : fernet -> bytes -> option bytes;
  fernet_decrypt_encrypt : forall f r m,
    fernet_decrypt f (fernet_encrypt f r m) = Some m;
  fernet_token_text : forall f r m, is_Some (utf8_decode (fernet_encrypt f r m));
}.

(** [b.decode()] and [f.decrypt(token)] as calls that may raise. *)
Definition decode `{PyLib} (b : bytes) : result str :=
  or_raise UnicodeDecodeError (utf8_decode b).
Definition decrypt `{PyLib} (f : fernet) (token : bytes) : result bytes :=
  or_raise InvalidToken (fernet_decrypt f token).
Definition new_Fernet `{PyLib} (key : bytes) : result fernet :=
  or_raise ValueError (Fernet key).

(** ** The host

    What [os.path.expanduser] and [shlex.split] answer, and whether a
    path can be opened for writing, is decided outside the package. *)
Class Host : Type := {
  expanduser : str -> str;
  shlex_split : str -> option (list str);
  can_write : str -> bool;
}.

(** ** constants.py and utils.py

    The values the code reads from these two modules are parameters of
    the development. *)
Class Constants : Type := {
  CHUNK_SIZE : nat;
  MAX_FILE_SIZE : Z;
  FILE_TEMP_DIR : str;
  DOWNLOADS_DIR : str;
  KEYRING_AVAILABLE : bool;
}.

(** ** state.py: the shared application state *)
Module state.

(** File-transfer metadata, as packaged by the sender. *)
Record Metadata : Type := {
  md_file_id : str;
  md_filename : str;
  md_size : Z;
  md_total_chunks : Z;
  md_hash : str;
}.

(** One encrypted block of a file. *)
Record Chunk : Type := {
  ck_file_id : str;
  ck_chunk_num : Z;
  ck_data : str;
}.

(** The value stored under a file id in [available_files]. *)
Record FileInfo : Type := {
  metadata : option Metadata;
  sender : str;
  chunks_received : Z;
  total_chunks : Z;
  complete : bool;
}.

Record Lottery : Type := {
  lottery_starter : str;
  lottery_participants : gset string;
}.

(** [votes] maps the decimal string of an option index to its voters;
    the index itself is the key here. *)
Record Poll : Type := {
  poll_starter : str;
  poll_question : str;
  poll_options : list str;
  poll_votes : gmap nat (list str);
}.

(** The error strings of [assemble_file_from_chunks] and
    [split_file_to_chunks]. *)
Inductive AssembleError : Type :=
  | NotAvailableOrIncomplete
  | IntegrityCheckFailed
  | ErrorAssembling (e : exn).

Inductive SplitError : Type :=
  | FileNotFound
  | FileTooLarge
  | ErrorReading (e : exn).

(** System messages, the payload of a SYS envelope. *)
Inductive SysMsg : Type :=
  | ROOM_CLEANUP
  | LOTTERY_START
  | LOTTERY_ENTER
  | LOTTERY_WINNER (winner : str)
  | LOTTERY_CANCEL
  | POLL_START (question : str) (options : list str)
  | POLL_VOTE (index : Z)
  | POLL_CLOSE
  | FILE_DOWNLOAD (file_id : str).

Section State.
Context `{PyLib}.

(** The tuples put on [outbox_queue]. *)
Inductive OutItem : Type :=
  | SYS (room nick : str) (what : SysMsg) (server : str) (f : fernet)
  | FILE_TRANSFER (room nick : str) (md : Metadata) (chunks : list Chunk)
                  (server : str) (f : fernet).

(** The module globals of [state.py], together with the other mutable
    stores the code reaches: [session_key._active_sessions] and the
    files on disk ([fs], path to contents). *)
Record State : Type := {
  room_participants : gmap string Q;
  notifications_enabled : bool;
  available_files : gmap string FileInfo;
  file_chunks : gmap string (gmap Z Chunk);
  outbox_queue : list OutItem;
  tor_ip : option str;
  lottery_state : gmap string Lottery;
  poll_state : gmap string Poll;
  last_generated_link : str;
  active_sessions : gmap string (bytes * Z);
  fs : gmap string bytes;
}.

(** The values the globals are bound to when the modules are loaded;
    [files] is what is on disk. *)
Definition initial_state (files : gmap string bytes) : State := {|
  room_participants := ∅; notifications_enabled := true;
  available_files := ∅; file_chunks := ∅; outbox_queue := [];
  tor_ip := None; lottery_state := ∅; poll_state := ∅;
  last_generated_link := ""; active_sessions := ∅; fs := files;
|}.

Definition set_room_participants (v : gmap string Q) (s : State) : State :=
  {| room_participants := v; notifications_enabled := notifications_enabled s;
     available_files := available_files s; file_chunks := file_chunks s;
     outbox_queue := outbox_queue s; tor_ip := tor_ip s;
     lottery_state := lottery_state s; poll_state := poll_state s;
     last_generated_link := last_generated_link s;
     active_sessions := active_sessions s; fs := fs s |}.

Definition set_notifications_enabled (v : bool) (s : State) : State :=
  {| room_participants := room_participants s; notifications_enabled := v;
     available_files := available_files s; file_chunks := file_chunks s;
     outbox_queue := outbox_queue s; tor_ip := tor_ip s;
     lottery_state := lottery_state s; poll_state := poll_state s;
     last_generated_link := last_generated_link s;
     active_sessions := active_sessions s; fs := fs s |}.

Definition set_available_files (v : gmap string FileInfo) (s : State) : State :=
  {| room_participants := room_participants s;
     notifications_enabled := notifications_enabled s;
     available_files := v; file_chunks := file_chunks s;
     outbox_queue := outbox_queue s; tor_ip := tor_ip s;
     lottery_state := lottery_state s; poll_state := poll_state s;
     last_generated_link := last_generated_link s;
     active_sessions := active_sessions s; fs := fs s |}.

Definition set_file_chunks (v : gmap string (gmap Z Chunk)) (s : State) : State :=
  {| room_participants := room_participants s;
     notifications_enabled := notifications_enabled s;
     available_files := available_files s; file_chunks := v;
     outbox_queue := outbox_queue s; tor_ip := tor_ip s;
     lottery_state := lottery_state s; poll_state := poll_state s;
     last_generated_link := last_generated_link s;
     active_sessions := active_sessions s; fs := fs s |}.

Definition set_outbox_queue (v : list OutItem) (s : State) : State :=
  {| room_participants := room_participants s;
     notifications_enabled := notifications_enabled s;
     available_files := available_files s; file_chunks := file_chunks s;
     outbox_queue := v; tor_ip := tor_ip s;
     lottery_state := lottery_state s; poll_state := poll_state s;
     last_generated_link := last_generated_link s;
     active_sessions := active_sessions s; fs := fs s |}.

Definition set_last_generated_link (v : str) (s : State) : State :=
  {| room_participants := room_participants s;
     notifications_enabled := notifications_enabled s;
     available_files := available_files s; file_chunks := file_chunks s;
     outbox_queue := outbox_queue s; tor_ip := tor_ip s;
     lottery_state := lottery_state s; poll_state := poll_state s;
     last_generated_link := v;
     active_sessions := active_sessions s; fs := fs s |}.

Definition set_active_sessions (v : gmap string (bytes * Z)) (s : State) : State :=
  {| room_participants := room_participants s;
     notifications_enabled := notifications_enabled s;
     available_files := available_files s; file_chunks := file_chunks s;
     outbox_queue := outbox_queue s; tor_ip := tor_ip s;
     lottery_state := lottery_state s; poll_state := poll_state s;
     last_generated_link := last_generated_link s;
     active_sessions := v; fs := fs s |}.

Definition set_fs (v : gmap string bytes) (s : State) : State :=
  {| room_participants := room_participants s;
     notifications_enabled := notifications_enabled s;
     available_files := available_files s; file_chunks := file_chunks s;
     outbox_queue := outbox_queue s; tor_ip := tor_ip s;
     lottery_state := lottery_state s; poll_state := poll_state s;
     last_generated_link := last_generated_link s;
     active_sessions := active_sessions s; fs := v |}.

End State.
End state.
Export state.

(** ** The display buffer

    An entry of [buf] is a triple (sender, renderable, own).  What the
    code formats as markup text or as a panel is kept as a tagged value
    carrying the interpolated data; the wording is quoted in the source
    and is a matter of rendering. *)
Module ui.

Inductive ServerStatus : Type :=
  | Online | StatusCode (code : Z) | Unreachable.

Inductive FileStatus : Type :=
  | Ready | Receiving (received total : Z).

(** The lines of the [/security] overview. *)
Inductive SecLine : Type :=
  | SecPublicHeader | SecPublicNote | SecEncryption | SecTransport
  | SecPrivacyNone | SecNetwork | SecAnonymity | SecExitIP (ip : option str)
  | SecForwardSecrecy | SecNotAvailable | SecOverviewHeader
  | SecEncryptionCore | SecBaseEncryption | SecKeyDerivation
  | SecPFS | SecPFSActive (rotation_in : Z) | SecPFSInactive
  | SecSessionKey | SecDataSystem | SecFileTransfers (chunk_size_kb : Z)
  | SecKeyring (available : bool).

Inductive Msg : Type :=
  (* chat text appended by the listener *)
  | Chat (text : str)
  (* file_transfer.py *)
  | PanelFileIncoming (sender filename : str) (size total_chunks : Z) (file_id : str)
  | PanelFileReady (filename file_id : str)
  (* /clear, /clean-chat *)
  | BufferCleared
  | CannotCleanPublic
  | CleanWarning | CleanAreYouSure | CleanTypeConfirm
  | PanelChatCleaned
  (* /who *)
  | WhoHeader (n : nat) | WhoYou (u : str) | WhoOther (u : str)
  (* /help: the entries of help_text and cli_help by position *)
  | HelpHeader | HelpLine (i : nat) | CliHelpHeader | CliHelpLine (i : nat)
  (* /stats *)
  | Stats (my_msgs recv_msgs total_msgs : Z)
  (* /lottery *)
  | LotteryAlreadyRunning
  | NoLotteryToEnter | LotteryAlreadyEntered
  | NoLotteryActive
  | PanelLotteryStatus (starter : str) (count : nat) (participants : list str)
  | NoLotteryToDraw | OnlyStarterCanDraw (starter : str) | NoLotteryParticipants
  | NoLotteryToCancel | OnlyStarterCanCancel (starter : str)
  | LotteryHelp (i : nat)
  (* /poll, /vote *)
  | NoPollActive
  | PanelPollStatus (question : str) (options : list (str * nat)) (total_votes : nat)
  | NoPollToClose | OnlyStarterCanClose (starter : str)
  | PollAlreadyRunning | PollUsage | PollTooManyOptions
  | NoPollToVote | InvalidChoice (n_options : nat)
  (* /security, /notifications *)
  | Security (l : SecLine)
  | NotificationsStatus (enabled : bool)
  (* /files, /download, /share *)
  | NoFilesAvailable | FilesHeader (n : nat)
  | FileEntry (file_id display_name : str) (size : Z) (sender : str) (status : FileStatus)
  | DownloadUsage | FileIdNotFound (file_id : str)
  | FileNotComplete (received total : Z)
  | DownloadFailed (error : AssembleError)
  | PanelDownloadComplete (filename : str) (size : Z) (path : str)
  | SaveFailed
  | ShareUsage | ShareFileNotFound (filepath : str)
  | PreparingShare (filename : str) | ShareFailed (error : SplitError)
  | PanelSharingStarted (filename : str) (size : Z)
  (* /server *)
  | ServerLine (server : str) | ServerStatusLine (status : ServerStatus)
  (* /share-room, /copy-link *)
  | CannotSharePublic | InvalidTTL (arg : str) | InvalidUses
  | GeneratingLink | LinkFailed
  | PanelRoomLink (uses : Z) (minutes : Z) (url : str)
  | NoLinkYet | LinkCopied | CopyFailed | InstallPyperclip
  (* anything else *)
  | UnknownCommand (cmd : str).

Definition Entry : Type := str * Msg * bool.
Definition Buf : Type := list Entry.

(** [("System", m, False)] *)
Definition system (m : Msg) : Entry := ("System", m, false).

End ui.
Export ui.

(** [utils.trim] bounds the display buffer: it is a parameter. *)
Class Utils : Type := {
  trim : Buf -> Buf;
}.

(** ** Stateful code

    A function that reads or writes the shared state and the display
    buffer is a transition on the pair of them that also yields an
    outcome; the effects of a call that raises persist. *)
Section Monad.
Context `{PyLib}.

Definition M (A : Type) : Type := State -> Buf -> result A * State * Buf.

Definition ret {A} (a : A) : M A := fun s b => (Ok a, s, b).
Definition raise {A} (e : exn) : M A := fun s b => (Raised e, s, b).
Definition bind {A B} (m : M A) (k : A -> M B) : M B := fun s b =>
  match m s b with
  | (Ok a, s', b') => k a s' b'
  | (Raised e, s', b') => (Raised e, s', b')
  end.

Definition get : M State := fun s b => (Ok s, s, b).
Definition modify (f : State -> State) : M unit := fun s b => (Ok tt, f s, b).
Definition get_buf : M Buf := fun s b => (Ok b, s, b).
Definition modify_buf (f : Buf -> Buf) : M unit := fun s b => (Ok tt, s, f b).

(** [buf.append(e)] *)
Definition append (e : Entry) : M unit := modify_buf (fun b => b ++ [e]).

(** [d[k]] on a dictionary: [KeyError] when the key is absent. *)
Definition getitem {K V} `{Countable K} (d : gmap K V) (k : K) : M V :=
  match d !! k with
  | Some v => ret v
  | None => raise KeyError
  end.

Definition lift {A} (r : result A) : M A := fun s b => (r, s, b).

(** [try: m except Exception as e: h e] *)
Definition try_except {A} (m : M A) (h : exn -> M A) : M A := fun s b =>
  match m s b with
  | (Ok a, s', b') => (Ok a, s', b')
  | (Raised e, s', b') => h e s' b'
  end.

Definition state_of {A} (x : result A * State * Buf) : State := snd (fst x).
Definition buf_of {A} (x : result A * State * Buf) : Buf := snd x.
Definition outcome_of {A} (x : result A * State * Buf) : result A := fst (fst x).

End Monad.

Declare Scope py_scope.
Delimit Scope py_scope with py.
Notation "x <- m ;; k" := (bind m (fun x => k))
  (at level 100, m at next level, right associativity) : py_scope.
Notation "m ;;; k" := (bind m (fun _ => k))
  (at level 100, right associativity) : py_scope.
Open Scope py_scope.

(** ** file_transfer.py *)
Module file_transfer.

(** The character class of the [re.sub] pattern: the control characters
    0x00 to 0x1f and the seven characters listed below by code. *)
Definition unsafe_char (c : ascii) : bool :=
  let n := nat_of_ascii c in
  (n <=? 31)%nat
  || (n =? 60)%nat   (* less-than sign *)
  || (n =? 62)%nat   (* greater-than sign *)
  || (n =? 58)%nat   (* colon *)
  || (n =? 34)%nat   (* double quote *)
  || (n =? 124)%nat  (* vertical bar *)
  || (n =? 63)%nat   (* question mark *)
  || (n =? 42)%nat.  (* asterisk *)


Definition fallback_name (fallback_id : string) : string :=
  "file_" +:+ fallback_id.

Definition sanitize_filename (filename : string) (fallback_id : string) : string :=
  if String.eqb filename "" then fallback_name fallback_id
  else
    let safe_name := Py.basename filename in
    if String.eqb safe_name "" || String.eqb safe_name "." || String.eqb safe_name ".."
       || Py.startswith_char "." safe_name
    then fallback_name fallback_id
    else
      let safe_name := Py.re_sub_class unsafe_char "_" safe_name in
      let safe_name :=
        if 255 <? Py.len safe_name then
          let '(name, ext) := Py.splitext safe_name in
          Py.slice_to name (255 - Py.len ext) +:+ ext
        else safe_name in
      if String.eqb safe_name "" then fallback_name fallback_id else safe_name.

(** [posixpath.join(a, b)] *)
Definition path_join (a b : str) : str :=
  if Py.startswith_char "/" b then b
  else if String.eqb a "" then b
  else match Py.rfind "/" a with
       | Some i => if (S i =? String.length a)%nat then a +:+ b else a +:+ "/" +:+ b
       | None => a +:+ "/" +:+ b
       end.

Section FileTransfer.
Context `{PyLib} `{Host} `{Constants}.

(** The read loop of [split_file_to_chunks]: [f.read(CHUNK_SIZE)] until
    it answers the empty string.  Every round but the last consumes a
    character, so [fuel] above the length of the contents is never
    exhausted. *)
Fixpoint read_blocks (fuel : nat) (size : nat) (contents : list ascii)
  : list (list ascii) :=
  match fuel with
  | O => []
  | S fuel' =>
      match take size contents with
      | [] => []
      | chunk_data => chunk_data :: read_blocks fuel' size (drop size contents)
      end
  end.

Definition blocks_of (contents : bytes) : list bytes :=
  let l := Py.chars contents in
  map Py.of_chars (read_blocks (S (List.length l)) CHUNK_SIZE l).

(** The rest of the loop body for the blocks in read order: each block
    is encrypted on its own and numbered from [chunk_num] on. *)
Fixpoint encrypt_blocks (f_cipher : fernet) (file_id : str) (rnd : nat -> entropy)
    (chunk_num : nat) (blocks : list bytes) : result (list Chunk) :=
  match blocks with
  | [] => Ok []
  | chunk_data :: rest =>
      match decode (fernet_encrypt f_cipher (rnd chunk_num) chunk_data) with
      | Raised e => Raised e
      | Ok encrypted_chunk =>
          match encrypt_blocks f_cipher file_id rnd (S chunk_num) rest with
          | Raised e => Raised e
          | Ok chunks =>
              Ok ({| ck_file_id := file_id; ck_chunk_num := Z.of_nat chunk_num;
                     ck_data := encrypted_chunk |} :: chunks)
          end
      end
  end.

(** [split_file_to_chunks(filepath, f_cipher)]; [uuid4] is the string of
    the fresh UUID and [rnd] the entropy of the successive encryptions. *)
Definition split_file_to_chunks (uuid4 : str) (rnd : nat -> entropy)
    (filepath : str) (f_cipher : fernet) (s : State)
  : option Metadata * (list Chunk + SplitError) :=
  match fs s !! filepath with
  | None => (None, inr FileNotFound)
  | Some contents =>
      let file_size := Py.len contents in
      if MAX_FILE_SIZE <? file_size then (None, inr FileTooLarge)
      else
        let file_id := Py.slice_to uuid4 8 in
        let filename := Py.basename filepath in
        match encrypt_blocks f_cipher file_id rnd 0 (blocks_of contents) with
        | Raised e => (None, inr (ErrorReading e))
        | Ok chunks =>
            (Some {| md_file_id := file_id; md_filename := filename;
                     md_size := file_size;
                     md_total_chunks := Z.of_nat (List.length chunks);
                     md_hash := sha256_hexdigest (String.concat "" (blocks_of contents)) |},
             inl chunks)
        end
  end.

(** [state.available_files[file_id][...] = ...]: the record stored under
    [file_id] is updated in place. *)
Definition update_file (file_id : str) (g : FileInfo -> FileInfo) : M unit :=
  modify (fun s => set_available_files (alter g file_id (available_files s)) s).

Definition with_metadata (md : Metadata) (i : FileInfo) : FileInfo :=
  {| metadata := Some md; sender := sender i; chunks_received := chunks_received i;
     total_chunks := md_total_chunks md; complete := complete i |}.

Definition with_chunks_received (n : Z) (i : FileInfo) : FileInfo :=
  {| metadata := metadata i; sender := sender i; chunks_received := n;
     total_chunks := total_chunks i; complete := complete i |}.

Definition with_complete (i : FileInfo) : FileInfo :=
  {| metadata := metadata i; sender := sender i; chunks_received := chunks_received i;
     total_chunks := total_chunks i; complete := true |}.

Definition _check_file_completion (file_id : str) : M unit :=
  s <- get ;;
  match available_files s !! file_id with
  | None => ret tt
  | Some file_info =>
      match metadata file_info with
      | None => ret tt
      | Some md =>
          if complete file_info then ret tt
          else
            let received := chunks_received file_info in
            let total := total_chunks file_info in
            if (0 <? total) && (received =? total) then
              update_file file_id with_complete ;;;
              append (system (PanelFileReady (md_filename md) file_id))
            else ret tt
      end
  end.

(** A freshly created record; the handler that creates it says which
    of the keys it sets. *)
Definition new_file (md : option Metadata) (sender : str) (total : Z) : FileInfo :=
  {| metadata := md; sender := sender; chunks_received := 0;
     total_chunks := total; complete := false |}.

Definition handle_file_metadata (md : Metadata) (sender : str) : M unit :=
  let file_id := md_file_id md in
  s <- get ;;
  (* If this is the first we hear of this file, create its state. *)
  (if decide (file_id ∈ dom (available_files s)) then ret tt
   else
     modify (fun s => set_file_chunks (<[file_id := ∅]> (file_chunks s)) s) ;;;
     modify (fun s => set_available_files
       (<[file_id := new_file None sender (-1)]> (available_files s)) s)) ;;;
  (* Update the state with the authoritative metadata. *)
  update_file file_id (with_metadata md) ;;;
  append (system (PanelFileIncoming sender (md_filename md) (md_size md)
                    (md_total_chunks md) file_id)) ;;;
  _check_file_completion file_id.

Definition handle_file_chunk (chunk_data : Chunk) (sender : str) : M unit :=
  let file_id := ck_file_id chunk_data in
  let chunk_num := ck_chunk_num chunk_data in
  s <- get ;;
  (if decide (file_id ∈ dom (available_files s)) then ret tt
   else
     modify (fun s => set_file_chunks (<[file_id := ∅]> (file_chunks s)) s) ;;;
     modify (fun s => set_available_files
       (<[file_id := new_file None sender (-1)]> (available_files s)) s)) ;;;
  s <- get ;;
  file_info <- getitem (available_files s) file_id ;;
  (* Chunks of a file already marked complete are not processed. *)
  if complete file_info then ret tt
  else
    chunks <- getitem (file_chunks s) file_id ;;
    (if decide (chunk_num ∈ dom chunks) then ret tt
     else
       let chunks' := <[chunk_num := chunk_data]> chunks in
       modify (fun s => set_file_chunks (<[file_id := chunks']> (file_chunks s)) s) ;;;
       update_file file_id (with_chunks_received (Z.of_nat (size chunks')))) ;;;
    _check_file_completion file_id.

(** The loop of [assemble_file_from_chunks] over the sorted chunks:
    [written] is what has been written to the file, which is also what
    the hash object has been fed. *)
Fixpoint write_chunks (f_cipher : fernet) (sorted_chunks : list Chunk) (written : bytes)
  : result unit * bytes :=
  match sorted_chunks with
  | [] => (Ok tt, written)
  | chunk :: rest =>
      match decrypt f_cipher (utf8_encode (ck_data chunk)) with
      | Raised e => (Raised e, written)
      | Ok decrypted_data => write_chunks f_cipher rest (written +:+ decrypted_data)
      end
  end.

(** [sorted(chunks_dict.keys())] *)
Definition sorted_keys (chunks_dict : gmap Z Chunk) : list Z :=
  merge_sort Z.le (elements (dom chunks_dict)).

(** [[chunks_dict[i] for i in sorted(chunks_dict.keys())]] *)
Definition sorted_chunks_of (chunks_dict : gmap Z Chunk) : list Chunk :=
  omap (fun i => chunks_dict !! i) (sorted_keys chunks_dict).

(** [open(path, 'wb')]: the file is created empty, or [OSError]. *)
Definition open_wb (path : str) : M unit :=
  if can_write path then modify (fun s => set_fs (<[path := ""]> (fs s)) s)
  else raise OSError.

Definition write_file (path : str) (contents : bytes) : M unit :=
  modify (fun s => set_fs (<[path := contents]> (fs s)) s).

(** [os.remove(path)] *)
Definition os_remove (path : str) : M unit :=
  s <- get ;;
  if decide (path ∈ dom (fs s)) then modify (fun s => set_fs (delete path (fs s)) s)
  else raise OSError.

(** [assemble_file_from_chunks(file_id, f_cipher)]: the pair
    [(temp_path, error)] the function returns.  Directories are not part
    of [fs], so [ensure_file_dir] leaves no trace here. *)
Definition assemble_file_from_chunks (file_id : str) (f_cipher : fernet)
  : M (option str * option AssembleError) :=
  s <- get ;;
  match available_files s !! file_id with
  | None => ret (None, Some NotAvailableOrIncomplete)
  | Some file_info =>
      if negb (complete file_info) then ret (None, Some NotAvailableOrIncomplete)
      else
        let md := metadata file_info in
        chunks_dict <- getitem (file_chunks s) file_id ;;
        try_except
          (md <- lift (or_raise TypeError md) ;;
           let temp_path := path_join FILE_TEMP_DIR (file_id +:+ "_" +:+ md_filename md) in
           hashed <-
             (if md_total_chunks md =? 0 then
                open_wb temp_path ;;; ret ""
              else
                let sorted_chunks := sorted_chunks_of chunks_dict in
                open_wb temp_path ;;;
                let '(r, written) := write_chunks f_cipher sorted_chunks "" in
                write_file temp_path written ;;;
                lift r ;;;
                ret written) ;;
           if negb (String.eqb (sha256_hexdigest hashed) (md_hash md)) then
             os_remove temp_path ;;;
             ret (None, Some IntegrityCheckFailed)
           else ret (Some temp_path, None))
          (fun e => ret (None, Some (ErrorAssembling e)))
  end.

(** [enqueue_file_transfer]: one item carrying the whole bundle. *)
Definition enqueue_file_transfer (room nick : str) (md : Metadata)
    (chunks : list Chunk) (server : str) (f : fernet) : M unit :=
  modify (fun s => set_outbox_queue
    (outbox_queue s ++ [FILE_TRANSFER room nick md chunks server f]) s).

End FileTransfer.
End file_transfer.

(** ** session_key.py *)
Module session_key.
Section SessionKey.
Context `{PyLib}.

Definition SESSION_KEY_ROTATION_INTERVAL : Z := 300.

(** [set_session_key(room, key)] at clock reading [now]. *)
Definition set_session_key (now : Q) (room : str) (key : bytes) (s : State) : State :=
  set_active_sessions (<[room := (key, Py.int_of_float now)]> (active_sessions s)) s.

(** [get_session_key(room)] *)
Definition get_session_key (room : str) (s : State) : option bytes :=
  match active_sessions s !! room with
  | Some (key, _) => Some key
  | None => None
  end.

(** [should_rotate_key(room)] at clock reading [now]. *)
Definition should_rotate_key (now : Q) (room : str) (s : State) : bool :=
  match active_sessions s !! room with
  | None => true
  | Some (_, timestamp) =>
      Py.Qgtb (now - inject_Z timestamp) (inject_Z SESSION_KEY_ROTATION_INTERVAL)
  end.

Definition encrypt_with_session (rnd : entropy) (data : str) (session_key : bytes)
  : result str :=
  f ← new_Fernet session_key;
  decode (fernet_encrypt f rnd (utf8_encode data)).

Definition decrypt_with_session (token : str) (session_key : bytes) : result str :=
  f ← new_Fernet session_key;
  match decrypt f (utf8_encode token) ≫= decode with
  | Ok data => Ok data
  | Raised _ => Ok ""
  end.

Definition encrypt_session_key (rnd : entropy) (session_key : bytes)
    (room_key_fernet : fernet) : result str :=
  decode (fernet_encrypt room_key_fernet rnd session_key).

(** [decrypt_session_key] answers the key or Python's [None]. *)
Definition decrypt_session_key (encrypted_key : str) (room_key_fernet : fernet)
  : result (option bytes) :=
  match decrypt room_key_fernet (utf8_encode encrypted_key) with
  | Ok key => Ok (Some key)
  | Raised _ => Ok None
  end.

End SessionKey.
End session_key.

(** ** link_sharing.py *)
Module link_sharing.
Section LinkSharing.
Context `{PyLib}.

Definition LINK_SERVER_URL : str := "https://share.enchat.io".

(** [int(time_str[:-1]) * unit], raising [ValueError] with [int]. *)
Definition scaled (time_str : str) (unit : Z) : result (option Z) :=
  n ← or_raise ValueError (Py.int (Py.slice_to time_str (-1)));
  Ok (Some (n * unit)).

Definition _parse_time_to_seconds (time_str : str) : result (option Z) :=
  let time_str := Py.lower time_str in
  if Py.endswith_char "m" time_str then scaled time_str 60
  else if Py.endswith_char "h" time_str then scaled time_str 3600
  else if Py.endswith_char "d" time_str then scaled time_str 86400
  else Ok None.

(** [generate_link_components]; [ephemeral_key] is the answer of
    [Fernet.generate_key()] and [rnd] the entropy of the encryption. *)
Definition generate_link_components (ephemeral_key : bytes) (rnd : entropy)
    (room_name room_secret server_url : str) : result (str * str) :=
  f ← new_Fernet ephemeral_key;
  let plaintext_credentials := room_name +:+ "|" +:+ server_url +:+ "|" +:+ room_secret in
  let encrypted_payload := fernet_encrypt f rnd (utf8_encode plaintext_credentials) in
  encoded_payload ← decode (urlsafe_b64encode encrypted_payload);
  encoded_key ← decode (urlsafe_b64encode ephemeral_key);
  Ok (encoded_payload, encoded_key).

Definition construct_share_url (session_id key : str) : str :=
  LINK_SERVER_URL +:+ "/join#" +:+ session_id +:+ ":" +:+ key.

(** [parse_share_url]: unpacking a list that has not exactly two
    elements raises [ValueError], which the function turns into [None]. *)
Definition parse_share_url (url : str) : option (str * str) :=
  match Py.split "/join#" None url with
  | [_; fragment] =>
      match Py.split ":" None fragment with
      | [session_id; key] => Some (session_id, key)
      | _ => None
      end
  | _ => None
  end.

Definition decrypt_credentials (encrypted_payload ephemeral_key : str)
  : result (str * str * str) :=
  key_bytes ← or_raise ValueError (urlsafe_b64decode ephemeral_key);
  payload_bytes ← or_raise ValueError (urlsafe_b64decode encrypted_payload);
  f ← new_Fernet key_bytes;
  decrypted_bytes ← decrypt f payload_bytes;
  decrypted_str ← decode decrypted_bytes;
  match Py.split "|" (Some 2%nat) decrypted_str with
  | [room_name; server_url; room_secret] => Ok (room_name, server_url, room_secret)
  | _ => Raised ValueError
  end.

End LinkSharing.
End link_sharing.

(** ** commands.py *)
Module commands.

(** What the outside world answers during one call of [handle_command]:
    the clock, the random generator, the two HTTP services, the
    clipboard, and the fresh values drawn while sharing. *)
Record Oracle `{PyLib} : Type := {
  now : Q;                      (* time.time() *)
  random_index : nat;           (* the position random.choice picks *)
  health : option Z;            (* status code of GET /v1/health, if any *)
  remote_session : option str;  (* answer of create_remote_session *)
  clipboard : bool;             (* answer of copy_to_clipboard *)
  uuid4 : str;
  chunk_entropy : nat -> entropy;
  ephemeral_key : bytes;
  link_entropy : entropy;
}.

Section Commands.
Context `{PyLib} `{Host} `{Constants} `{Utils}.

(** Modelled from the spec: [network.enqueue_sys] lives in the network
    module.  The command layer enqueues an intent envelope on the
    outbound queue, one operation per call, as [enqueue_file_transfer]
    does for a file bundle. *)
Definition enqueue_sys (room nick : str) (what : SysMsg) (server : str) (f : fernet)
  : M unit :=
  modify (fun s => set_outbox_queue (outbox_queue s ++ [SYS room nick what server f]) s).

(** [for x in l: body x] *)
Fixpoint for_each {A} (l : list A) (body : A -> M unit) : M unit :=
  match l with
  | [] => ret tt
  | x :: l' => body x ;;; for_each l' body
  end.

Definition say (m : Msg) : M unit := append (system m).

(** [trim(buf)] *)
Definition trim_buf : M unit := modify_buf trim.

(** [sorted(...)] on strings: by code points, lexicographically. *)
Definition str_le (a b : str) : Prop := Is_true (String.leb a b).
#[export] Instance str_le_dec a b : Decision (str_le a b) := Is_true_dec _.

Definition sorted_strs (l : list str) : list str := merge_sort str_le l.

(** The first field of [s.split()], or the empty string. *)
Definition first_word (s : str) : str :=
  let l := Py.drop_while Py.isspace (Py.chars s) in
  Py.of_chars (Py.take_while (fun c => negb (Py.isspace c)) l).

Definition cmd_clean_chat (room nick server : str) (f : fernet) (args : str)
    (is_public : bool) : M (option str) :=
  if is_public then say CannotCleanPublic ;;; ret None
  else
    s <- get ;;
    let many := (1 <? size (room_participants s))%nat in
    (if many then say CleanWarning ;;; say CleanAreYouSure ;;; say CleanTypeConfirm
     else ret tt) ;;;
    if many && negb (String.eqb (Py.strip args) "confirm") then ret None
    else
      enqueue_sys room nick ROOM_CLEANUP server f ;;;
      modify_buf (fun _ => []) ;;;
      say PanelChatCleaned ;;;
      ret None.

Definition cmd_who (o : Oracle) (nick : str) : M (option str) :=
  modify (fun s => set_room_participants (<[nick := now o]> (room_participants s)) s) ;;;
  s <- get ;;
  let users := sorted_strs (elements (dom (room_participants s))) in
  say (WhoHeader (List.length users)) ;;;
  for_each users (fun u =>
    if String.eqb u nick then say (WhoYou u) else say (WhoOther u)) ;;;
  trim_buf ;;;
  ret None.

Definition cmd_help : M (option str) :=
  say HelpHeader ;;;
  for_each (seq 0 16) (fun i => say (HelpLine i)) ;;;
  say CliHelpHeader ;;;
  for_each (seq 0 4) (fun i => say (CliHelpLine i)) ;;;
  trim_buf ;;;
  ret None.

Definition cmd_stats : M (option str) :=
  buf <- get_buf ;;
  let total_msgs :=
    Z.of_nat (List.length (filter (fun m : Entry => m.1.1 ≠ "System") buf)) in
  let my_msgs := Z.of_nat (List.length (filter (fun m : Entry => m.2 = true) buf)) in
  let recv_msgs := total_msgs - my_msgs in
  say (Stats my_msgs recv_msgs total_msgs) ;;;
  trim_buf ;;;
  ret None.

Definition lottery_help : M unit :=
  for_each (seq 0 6) (fun i => say (LotteryHelp i)).

(** [sub_cmd], the first word of the arguments, lowered and stripped. *)
Definition sub_cmd_of (args : str) : str :=
  Py.strip (Py.lower (fst (Py.partition " " args))).

Definition cmd_lottery (o : Oracle) (room nick server : str) (f : fernet) (args : str)
  : M (option str) :=
  let sub_cmd := sub_cmd_of args in
  s <- get ;;
  let lottery := lottery_state s !! room in
  (if String.eqb sub_cmd "start" then
     match lottery with
     | Some _ => say LotteryAlreadyRunning
     | None => enqueue_sys room nick LOTTERY_START server f
     end
   else if String.eqb sub_cmd "enter" then
     match lottery with
     | None => say NoLotteryToEnter
     | Some l =>
         if decide (nick ∈ lottery_participants l) then say LotteryAlreadyEntered
         else enqueue_sys room nick LOTTERY_ENTER server f
     end
   else if String.eqb sub_cmd "status" then
     match lottery with
     | None => say NoLotteryActive
     | Some l =>
         let count := size (lottery_participants l) in
         let participants := sorted_strs (elements (lottery_participants l)) in
         say (PanelLotteryStatus (lottery_starter l) count participants)
     end
   else if String.eqb sub_cmd "draw" then
     match lottery with
     | None => say NoLotteryToDraw
     | Some l =>
         if negb (String.eqb (lottery_starter l) nick) then
           say (OnlyStarterCanDraw (lottery_starter l))
         else
           match elements (lottery_participants l) with
           | [] => say NoLotteryParticipants
           | p :: ps =>
               let candidates := p :: ps in
               let winner :=
                 nth (random_index o mod List.length candidates)%nat candidates p in
               enqueue_sys room nick (LOTTERY_WINNER winner) server f
           end
     end
   else if String.eqb sub_cmd "cancel" then
     match lottery with
     | None => say NoLotteryToCancel
     | Some l =>
         if negb (String.eqb (lottery_starter l) nick) then
           say (OnlyStarterCanCancel (lottery_starter l))
         else enqueue_sys room nick LOTTERY_CANCEL server f
     end
   else lottery_help) ;;;
  trim_buf ;;;
  ret None.

Definition cmd_poll (room nick server : str) (f : fernet) (args : str)
  : M (option str) :=
  s <- get ;;
  let poll := poll_state s !! room in
  if String.eqb (Py.lower args) "status" then
    match poll with
    | None => say NoPollActive ;;; ret None
    | Some p =>
        let counted := imap (fun i option =>
          (option, List.length (default [] (poll_votes p !! i)))) (poll_options p) in
        let total_votes := foldr (fun oc n => (oc.2 + n)%nat) 0%nat counted in
        say (PanelPollStatus (poll_question p) counted total_votes) ;;;
        ret None
    end
  else if String.eqb (Py.lower args) "close" then
    match poll with
    | None => say NoPollToClose
    | Some p =>
        if negb (String.eqb (poll_starter p) nick) then
          say (OnlyStarterCanClose (poll_starter p))
        else enqueue_sys room nick POLL_CLOSE server f
    end ;;;
    ret None
  else
    match poll with
    | Some _ => say PollAlreadyRunning ;;; ret None
    | None =>
        let parts := map (fun p => Py.strip_char (ascii_of_nat 34) (Py.strip p))
                         (Py.split "|" None args) in
        match parts with
        | question :: options =>
            if (List.length parts <? 3)%nat then say PollUsage ;;; ret None
            else if (10 <? List.length options)%nat then
              say PollTooManyOptions ;;; ret None
            else
              enqueue_sys room nick (POLL_START question options) server f ;;;
              ret None
        | [] => say PollUsage ;;; ret None
        end
    end.

Definition cmd_vote (room nick server : str) (f : fernet) (args : str)
  : M (option str) :=
  s <- get ;;
  match poll_state s !! room with
  | None => say NoPollToVote ;;; ret None
  | Some p =>
      let n := List.length (poll_options p) in
      match Py.int (Py.strip args) with
      | Some choice =>
          if (1 <=? choice) && (choice <=? Z.of_nat n) then
            enqueue_sys room nick (POLL_VOTE (choice - 1)) server f ;;;
            ret None
          else say (InvalidChoice n) ;;; ret None
      | None => say (InvalidChoice n) ;;; ret None
      end
  end.

Definition cmd_security (o : Oracle) (room : str) (is_public is_tor : bool)
  : M (option str) :=
  s <- get ;;
  let sec l := say (Security l) in
  if is_public then
    sec SecPublicHeader ;;; sec SecPublicNote ;;; sec SecEncryption ;;;
    sec SecTransport ;;; sec SecPrivacyNone ;;;
    (if is_tor then sec SecNetwork ;;; sec SecAnonymity ;;; sec (SecExitIP (tor_ip s))
     else ret tt) ;;;
    sec SecForwardSecrecy ;;; sec SecNotAvailable ;;;
    trim_buf ;;;
    ret None
  else
    sec SecOverviewHeader ;;;
    (if is_tor then sec SecNetwork ;;; sec SecAnonymity ;;; sec (SecExitIP (tor_ip s))
     else ret tt) ;;;
    sec SecEncryptionCore ;;; sec SecBaseEncryption ;;; sec SecKeyDerivation ;;;
    sec SecPFS ;;;
    (match session_key.get_session_key room s with
     | Some current_key =>
         if String.eqb current_key "" then sec SecPFSInactive
         else
           entry <- getitem (active_sessions s) room ;;
           let key_age := Py.int_of_float (now o - inject_Z entry.2) in
           let rotation_in :=
             Z.max 0 (session_key.SESSION_KEY_ROTATION_INTERVAL - key_age) in
           sec (SecPFSActive rotation_in)
     | None => sec SecPFSInactive
     end) ;;;
    sec SecSessionKey ;;;
    sec SecDataSystem ;;;
    sec (SecFileTransfers (Z.of_nat CHUNK_SIZE / 1024)) ;;;
    sec (SecKeyring KEYRING_AVAILABLE) ;;;
    trim_buf ;;;
    ret None.

Definition cmd_notifications : M (option str) :=
  modify (fun s => set_notifications_enabled (negb (notifications_enabled s)) s) ;;;
  s <- get ;;
  say (NotificationsStatus (notifications_enabled s)) ;;;
  trim_buf ;;;
  ret None.

(** The entries of [available_files] are visited in the order of
    [map_to_list]; Python visits them in insertion order. *)
Definition cmd_files : M (option str) :=
  s <- get ;;
  (if decide (available_files s = ∅) then say NoFilesAvailable
   else
     say (FilesHeader (size (available_files s))) ;;;
     for_each (map_to_list (available_files s)) (fun '(file_id, info) =>
       let status :=
         if complete info then Ready
         else Receiving (chunks_received info) (total_chunks info) in
       meta <- lift (or_raise TypeError (metadata info)) ;;
       let display_name := file_transfer.sanitize_filename (md_filename meta) file_id in
       say (FileEntry file_id display_name (md_size meta) (sender info) status))) ;;;
  trim_buf ;;;
  ret None.

(** The loop that looks for a free name in the downloads directory.
    The candidates differ from one another, so one of the first
    [size fs + 1] is free; that many rounds are granted. *)
Fixpoint free_path (fuel : nat) (files : gmap string bytes) (filename : str)
    (counter : nat) (local_path : str) : str :=
  match fuel with
  | O => local_path
  | S fuel' =>
      if decide (local_path ∈ dom files) then
        let '(name, ext) := Py.splitext filename in
        free_path fuel' files filename (S counter)
          (file_transfer.path_join DOWNLOADS_DIR (name +:+ "_" +:+ pretty counter +:+ ext))
      else local_path
  end.

(** [shutil.copy2(src, dst)] *)
Definition copy2 (src dst : str) : M unit :=
  s <- get ;;
  match fs s !! src with
  | None => raise OSError
  | Some contents =>
      if can_write dst then file_transfer.write_file dst contents else raise OSError
  end.

Definition cmd_download (room nick server : str) (f : fernet) (args : str)
  : M (option str) :=
  let parsed :=
    match shlex_split args with
    | Some [] => None
    | Some (file_id :: _) => Some file_id
    | None => Some (if String.eqb (Py.strip args) "" then "" else first_word (Py.strip args))
    end in
  match parsed with
  | None => say DownloadUsage ;;; ret None
  | Some file_id =>
      if String.eqb file_id "" then say DownloadUsage ;;; ret None
      else
        s <- get ;;
        match available_files s !! file_id with
        | None => say (FileIdNotFound file_id) ;;; ret None
        | Some info =>
            if negb (complete info) then
              say (FileNotComplete (chunks_received info) (total_chunks info)) ;;;
              ret None
            else
              r <- file_transfer.assemble_file_from_chunks file_id f ;;
              match r with
              | (_, Some error) => say (DownloadFailed error) ;;; ret None
              | (None, None) => raise TypeError
              | (Some temp_path, None) =>
                  s <- get ;;
                  info <- getitem (available_files s) file_id ;;
                  meta <- lift (or_raise TypeError (metadata info)) ;;
                  let filename := file_transfer.sanitize_filename (md_filename meta) file_id in
                  let local_path :=
                    free_path (S (size (fs s))) (fs s) filename 1
                      (file_transfer.path_join DOWNLOADS_DIR filename) in
                  try_except
                    (copy2 temp_path local_path ;;;
                     file_transfer.os_remove temp_path ;;;
                     enqueue_sys room nick (FILE_DOWNLOAD file_id) server f ;;;
                     say (PanelDownloadComplete (Py.basename local_path) (md_size meta)
                            local_path))
                    (fun _ =>
                       say SaveFailed ;;;
                       s <- get ;;
                       if decide (temp_path ∈ dom (fs s))
                       then file_transfer.os_remove temp_path else ret tt) ;;;
                  trim_buf ;;;
                  ret None
              end
        end
  end.

Definition cmd_share (o : Oracle) (room nick server : str) (f : fernet) (args : str)
  : M (option str) :=
  let filepath := expanduser (Py.strip args) in
  if String.eqb filepath "" then say ShareUsage ;;; ret None
  else
    s <- get ;;
    if decide (filepath ∈ dom (fs s)) then
      say (PreparingShare (Py.basename filepath)) ;;;
      match file_transfer.split_file_to_chunks (uuid4 o) (chunk_entropy o) filepath f s with
      | (Some md, inl chunks) =>
          file_transfer.enqueue_file_transfer room nick md chunks server f ;;;
          say (PanelSharingStarted (md_filename md) (md_size md)) ;;;
          trim_buf ;;;
          ret None
      | (_, inr error) => say (ShareFailed error) ;;; ret None
      | (None, inl _) => raise TypeError
      end
    else say (ShareFileNotFound filepath) ;;; ret None.

Definition cmd_server (o : Oracle) (server : str) : M (option str) :=
  let status :=
    match health o with
    | Some code => if code =? 200 then Online else StatusCode code
    | None => Unreachable
    end in
  say (ServerLine server) ;;;
  say (ServerStatusLine status) ;;;
  trim_buf ;;;
  ret None.

(** The outcome of the argument loop of [/share-room]. *)
Inductive ShareArgs : Type :=
  | Parsed (uses ttl_seconds : option Z)
  | BadTTL (arg : str)
  | BadNumber.

(** The loop [for i, part in enumerate(parts)]: [rest] is [parts[i:]]. *)
Fixpoint parse_share_args (rest : list str) (uses ttl_seconds : option Z) : ShareArgs :=
  match rest with
  | [] => Parsed uses ttl_seconds
  | part :: later =>
      match later with
      | [] => Parsed uses ttl_seconds
      | next :: _ =>
          if String.eqb part "--uses" then
            match Py.int next with
            | Some n => parse_share_args later (Some n) ttl_seconds
            | None => BadNumber
            end
          else if String.eqb part "--ttl" then
            match link_sharing._parse_time_to_seconds next with
            | Raised _ => BadNumber
            | Ok None => BadTTL next
            | Ok (Some t) => parse_share_args later uses (Some t)
            end
          else parse_share_args later uses ttl_seconds
      end
  end.

(** [x or d] on an optional number. *)
Definition or_default (x : option Z) (d : Z) : Z :=
  match x with
  | Some n => if n =? 0 then d else n
  | None => d
  end.

Definition cmd_share_room (o : Oracle) (room server secret : str) (args : str)
    (is_public : bool) : M (option str) :=
  if is_public then say CannotSharePublic ;;; ret None
  else
    match match shlex_split args with
          | Some parts => parse_share_args parts None None
          | None => BadNumber
          end with
    | BadTTL arg => say (InvalidTTL arg) ;;; ret None
    | BadNumber => say InvalidUses ;;; ret None
    | Parsed uses ttl_seconds =>
        say GeneratingLink ;;;
        components <- lift (link_sharing.generate_link_components
                              (ephemeral_key o) (link_entropy o) room secret server) ;;
        let '(payload, key) := components in
        match remote_session o with
        | None => say LinkFailed ;;; ret None
        | Some session_id =>
            if String.eqb session_id "" then say LinkFailed ;;; ret None
            else
              let url := link_sharing.construct_share_url session_id key in
              modify (set_last_generated_link url) ;;;
              say (PanelRoomLink (or_default uses 1)
                     (Z.quot (or_default ttl_seconds 900) 60) url) ;;;
              trim_buf ;;;
              ret None
        end
    end.

Definition cmd_copy_link (o : Oracle) : M (option str) :=
  s <- get ;;
  (if String.eqb (last_generated_link s) "" then say NoLinkYet
   else if clipboard o then say LinkCopied
   else say CopyFailed ;;; say InstallPyperclip) ;;;
  trim_buf ;;;
  ret None.

(** [handle_command]: the answer is ["exit"] or Python's [None]. *)
Definition handle_command (o : Oracle) (line room nick server : str) (f : fernet)
    (secret : str) (is_public is_tor : bool) : M (option str) :=
  let '(cmd, args) := Py.partition " " (Py.slice_from line 1) in
  if String.eqb cmd "exit" then ret (Some "exit")
  else if String.eqb cmd "clear" then
    modify_buf (fun _ => []) ;;; say BufferCleared ;;; ret None
  else if String.eqb cmd "clean-chat" then cmd_clean_chat room nick server f args is_public
  else if String.eqb cmd "who" then cmd_who o nick
  else if String.eqb cmd "help" then cmd_help
  else if String.eqb cmd "stats" then cmd_stats
  else if String.eqb cmd "lottery" then cmd_lottery o room nick server f args
  else if String.eqb cmd "poll" then cmd_poll room nick server f args
  else if String.eqb cmd "vote" then cmd_vote room nick server f args
  else if String.eqb cmd "security" then cmd_security o room is_public is_tor
  else if String.eqb cmd "notifications" then cmd_notifications
  else if String.eqb cmd "files" then cmd_files
  else if String.eqb cmd "download" then cmd_download room nick server f args
  else if String.eqb cmd "share" then cmd_share o room nick server f args
  else if String.eqb cmd "server" then cmd_server o server
  else if String.eqb cmd "share-room" then cmd_share_room o room server secret args is_public
  else if String.eqb cmd "copy-link" then cmd_copy_link o
  else say (UnknownCommand cmd) ;;; trim_buf ;;; ret None.

End Commands.
End commands.

(** ** input.py *)
Module input.

(** The two globals of [state.py] the input thread works on:
    [current_input], the characters of the line being typed, and
    [input_queue], the lines handed to the chat loop, oldest first. *)
Record InputState : Type := {
  current_input : list str;
  input_queue : list str;
}.

Definition LF : str := String (ascii_of_nat 10) "".
Definition CR : str := String (ascii_of_nat 13) "".
Definition ETX : str := String (ascii_of_nat 3) "".
Definition DEL : str := String (ascii_of_nat 127) "".
Definition BS : str := String (ascii_of_nat 8) "".

(** [state.input_queue.put(line)] *)
Definition put (line : str) (st : InputState) : InputState :=
  {| current_input := current_input st; input_queue := input_queue st ++ [line] |}.

Definition set_current_input (l : list str) (st : InputState) : InputState :=
  {| current_input := l; input_queue := input_queue st |}.

(** What the loop of [_posix] does with one character [ch] it has read. *)
Definition posix_key (ch : str) (st : InputState) : InputState :=
  if String.eqb ch LF || String.eqb ch CR then
    set_current_input [] (put (String.concat "" (current_input st)) st)
  else if String.eqb ch ETX then put "/exit" st
  else if (String.eqb ch DEL || String.eqb ch BS)
          && negb (bool_decide (current_input st = [])) then
    set_current_input (removelast (current_input st)) st
  else set_current_input (current_input st ++ [ch]) st.

(** What the loop of [_win] does with one character [ch] it has read. *)
Definition win_key (ch : str) (st : InputState) : InputState :=
  if String.eqb ch CR || String.eqb ch LF then
    set_current_input [] (put (String.concat "" (current_input st)) st)
  else if String.eqb ch ETX then put "/exit" st
  else if String.eqb ch BS && negb (bool_decide (current_input st = [])) then
    set_current_input (removelast (current_input st)) st
  else set_current_input (current_input st ++ [ch]) st.

(** The state after the loop has read the characters [keys] in turn. *)
Definition _posix (keys : list str) (st : InputState) : InputState :=
  foldl (fun st ch => posix_key ch st) st keys.

Definition _win (keys : list str) (st : InputState) : InputState :=
  foldl (fun st ch => win_key ch st) st keys.

End input.

(** ** enchat.py *)
Module enchat.
Section Enchat.
Context `{PyLib}.

(** How [join_from_link] ends: with one of its three error messages, or
    in the call [start_chat(room_name, display_name, secret, server, [],
    is_tor=args.tor)]. *)
Inductive Joined : Type :=
  | LinkMalformed
  | NoRoomDetails
  | DecryptFailed
  | start_chat (room nick secret server : str) (is_tor : bool).

(** [join_from_link(args)]: [get_remote_payload] is what the link server
    answers for a session id and [display_name] what the user types at
    the nickname prompt. *)
Definition join_from_link (get_remote_payload : str -> option str) (display_name : str)
    (link_url : str) (tor : bool) : Joined :=
  match link_sharing.parse_share_url link_url with
  | None => LinkMalformed
  | Some (session_id, key) =>
      match get_remote_payload session_id with
      | None => NoRoomDetails
      | Some payload =>
          if String.eqb payload "" then NoRoomDetails
          else
            match link_sharing.decrypt_credentials payload key with
            | Raised _ => DecryptFailed
            | Ok (room_name, server, secret) =>
                start_chat room_name display_name secret server tor
            end
      end
  end.

End Enchat.
End enchat.

(** * A reference implementation of the parameters

    The laws of [PyLib] are satisfiable: the instance below keeps text
    and bytes identical, encrypts by prefixing the key to the message
    and hashes by the identity.  The examples run on it. *)
Module reference.

(** [strip_prefix p t] is the rest of [t] after [p], if [t] starts with [p]. *)
Fixpoint strip_prefix (p t : string) : option string :=
  match p, t with
  | EmptyString, _ => Some t
  | String a p', String b t' => if Ascii.eqb a b then strip_prefix p' t' else None
  | String _ _, EmptyString => None
  end.

Lemma strip_prefix_app p m : strip_prefix p (p +:+ m) = Some m.
Proof.
  induction p as [|a p IH]; simpl; [done|].
  by rewrite Ascii.eqb_refl.
Qed.

Definition toy_Fernet (key : string) : option string :=
  if String.eqb key "" then None else Some key.

#[export] Instance lib : PyLib := {|
  utf8_encode := fun s => s;
  utf8_decode := fun b => Some b;
  utf8_decode_encode := fun s => eq_refl;
  utf8_encode_decode := fun b s (E : Some b = Some s) => eq_sym (Some_inj _ _ E);
  urlsafe_b64encode := fun b => b;
  urlsafe_b64decode := fun s => Some s;
  b64_text := fun b => ex_intro _ b eq_refl;
  b64_decode_encode := fun b s (E : Some b = Some s) => f_equal Some (eq_sym (Some_inj _ _ E));
  sha256_hexdigest := fun b => b;
  fernet := string;
  entropy := unit;
  Fernet := toy_Fernet;
  fernet_encrypt := fun f _ m => f +:+ m;
  fernet_decrypt := fun f t => strip_prefix f t;
  fernet_decrypt_encrypt := fun f _ m => strip_prefix_app f m;
  fernet_token_text := fun f _ m => ex_intro _ (f +:+ m) eq_refl;
|}.

#[export] Instance host : Host := {|
  expanduser := fun p => p;
  shlex_split := fun s => Some (filter (fun w => w ≠ "") (Py.split " " None s));
  can_write := fun _ => true;
|}.

#[export] Instance constants : Constants := {|
  CHUNK_SIZE := 4;
  MAX_FILE_SIZE := 1024;
  FILE_TEMP_DIR := "/tmp/enchat";
  DOWNLOADS_DIR := "downloads";
  KEYRING_AVAILABLE := false;
|}.

(** Keep the last hundred entries. *)
#[export] Instance utils : Utils := {|
  trim := fun buf => drop (List.length buf - 100) buf;
|}.

Definition empty_state : State := initial_state ∅.

(** A transfer of the twelve bytes [hello world!], split in three, as
    the receiver sees it when the last chunk arrives first. *)
Definition demo_md : Metadata := {|
  md_file_id := "01234567"; md_filename := "a.txt"; md_size := 12;
  md_total_chunks := 3; md_hash := "hello world!";
|}.

Definition demo_chunk (i : Z) (data : str) : Chunk :=
  {| ck_file_id := "01234567"; ck_chunk_num := i; ck_data := data |}.

Definition demo_chunks : list Chunk :=
  [demo_chunk 0 "keyhell"; demo_chunk 1 "keyo wo"; demo_chunk 2 "keyrld!"].

Definition received : State :=
  state_of
    ((file_transfer.handle_file_chunk (demo_chunk 2 "keyrld!") "bob" ;;;
      file_transfer.handle_file_metadata demo_md "bob" ;;;
      file_transfer.handle_file_chunk (demo_chunk 0 "keyhell") "bob" ;;;
      file_transfer.handle_file_chunk (demo_chunk 1 "keyo wo") "bob")
       empty_state []).

Definition oracle : commands.Oracle := {|
  commands.now := 1000;
  commands.random_index := 0;
  commands.health := Some 200;
  commands.remote_session := Some "s1";
  commands.clipboard := true;
  commands.uuid4 := "0123456789abcdef";
  commands.chunk_entropy := fun _ => tt;
  commands.ephemeral_key := "k";
  commands.link_entropy := tt;
|}.

End reference.

(** * Properties *)

(** ** Strings as lists of characters *)
Section Strings.

Lemma chars_of_chars l : Py.chars (Py.of_chars l) = l.
Proof. apply list_ascii_of_string_of_list_ascii. Qed.

Lemma of_chars_chars s : Py.of_chars (Py.chars s) = s.
Proof. apply string_of_list_ascii_of_string. Qed.

Lemma chars_app a b : Py.chars (a +:+ b) = Py.chars a ++ Py.chars b.
Proof. unfold Py.chars. induction a as [|c a IH]; simpl; [done | by rewrite IH]. Qed.

Lemma of_chars_app l k : Py.of_chars (l ++ k) = Py.of_chars l +:+ Py.of_chars k.
Proof. unfold Py.of_chars. induction l as [|c l IH]; simpl; [done | by rewrite IH]. Qed.

Lemma chars_inj a b : Py.chars a = Py.chars b -> a = b.
Proof. intros E. by rewrite <- (of_chars_chars a), E, of_chars_chars. Qed.



Lemma len_app a b : Py.len (a +:+ b) = Py.len a + Py.len b.
Proof. unfold Py.len. rewrite chars_app, length_app. lia. Qed.

Lemma str_app_assoc (a b c : string) : (a +:+ b) +:+ c = a +:+ (b +:+ c).
Proof.
  induction a as [|x a IH]; [done|].
  change (String x ((a +:+ b) +:+ c) = String x (a +:+ (b +:+ c))). by rewrite IH.
Qed.

Lemma str_app_nil_r (a : string) : a +:+ "" = a.
Proof.
  induction a as [|x a IH]; [done|].
  change (String x (a +:+ "") = String x a). by rewrite IH.
Qed.

Lemma string_eqb_true a b : String.eqb a b = true <-> a = b.
Proof. apply String.eqb_eq. Qed.

Lemma string_eqb_false a b : String.eqb a b = false <-> a <> b.
Proof. apply String.eqb_neq. Qed.

Lemma ascii_eqb_true a b : Py.ascii_eqb a b = true <-> a = b.
Proof. apply Ascii.eqb_eq. Qed.

Lemma ascii_eqb_false a b : Py.ascii_eqb a b = false <-> a <> b.
Proof. apply Ascii.eqb_neq. Qed.

End Strings.

(** ** Session keys (session_key.py) *)
Section SessionKeyFacts.
Context `{PyLib}.
Import session_key.

Lemma Qgtb_spec a b : Py.Qgtb a b = true <-> (b < a)%Q.
Proof.
  unfold Py.Qgtb. rewrite negb_true_iff.
  destruct (Qle_bool a b) eqn:E.
  - apply Qle_bool_iff in E. split; [done|]. intros L.
    exfalso. apply (Qlt_not_le _ _ L E).
  - split; [|done]. intros _. apply Qnot_le_lt. intros L.
    apply Qle_bool_iff in L. congruence.
Qed.

(** C8.  [should_rotate_key] answers true exactly when the room has no
    stored session key or the age of the stored key, the clock reading
    minus the stored creation time, exceeds 300 seconds; and
    [set_session_key] stores the key together with the creation time
    [int(time.time())] under the room, replacing what was there and
    leaving the other rooms alone. *)
Theorem should_rotate_key_iff_absent_or_old (now : Q) (room : str) (s : State) :
  (should_rotate_key now room s = true <->
     active_sessions s !! room = None \/
     exists key timestamp,
       active_sessions s !! room = Some (key, timestamp) /\
       (inject_Z 300 < now - inject_Z timestamp)%Q)
  /\ (forall key,
        active_sessions (set_session_key now room key s) !! room
          = Some (key, Py.int_of_float now)
        /\ get_session_key room (set_session_key now room key s) = Some key
        /\ forall room', room' <> room ->
             active_sessions (set_session_key now room key s) !! room'
               = active_sessions s !! room').
Proof.
  split.
  - unfold should_rotate_key.
    destruct (active_sessions s !! room) as [[key ts]|] eqn:E.
    + rewrite Qgtb_spec. split.
      * intros L. right. by exists key, ts.
      * intros [|(key' & ts' & [= <- <-] & L)]; done.
    + split; [by left | done].
  - intros key. unfold get_session_key, set_session_key. simpl.
    rewrite lookup_insert_eq. repeat split.
    intros room' Hne. by rewrite lookup_insert_ne.
Qed.

End SessionKeyFacts.

(** ** Decryption failures (session_key.py) *)
Section DecryptionFacts.
Context `{PyLib}.
Import session_key.

Lemma decrypt_with_session_unfold token key f :
  Fernet key = Some f ->
  decrypt_with_session token key =
    match fernet_decrypt f (utf8_encode token) with
    | Some b => match utf8_decode b with Some m => Ok m | None => Ok "" end
    | None => Ok ""
    end.
Proof.
  intros Hk. unfold decrypt_with_session, new_Fernet. rewrite Hk. simpl.
  unfold decrypt. destruct (fernet_decrypt f (utf8_encode token)) as [b|]; simpl; [|done].
  unfold decode. by destruct (utf8_decode b).
Qed.

Lemma encrypt_with_session_token rnd data key f :
  Fernet key = Some f ->
  exists token,
    encrypt_with_session rnd data key = Ok token /\
    utf8_encode token = fernet_encrypt f rnd (utf8_encode data).
Proof.
  intros Hk. unfold encrypt_with_session, new_Fernet. rewrite Hk. simpl.
  destruct (fernet_token_text f rnd (utf8_encode data)) as [token Ht].
  exists token. unfold decode. rewrite Ht. split; [done|].
  by apply utf8_encode_decode.
Qed.

(** The marker of [decrypt_with_session] is what a genuine encryption of
    the empty message decrypts to, whatever the library. *)
Lemma empty_message_decrypts_to_marker rnd key f token :
  Fernet key = Some f ->
  encrypt_with_session rnd "" key = Ok token ->
  decrypt_with_session token key = Ok "".
Proof.
  intros Hk He.
  destruct (encrypt_with_session_token rnd "" key f Hk) as (token' & He' & Ht).
  rewrite He in He'. injection He' as <-.
  rewrite (decrypt_with_session_unfold _ _ _ Hk), Ht, fernet_decrypt_encrypt.
  by rewrite utf8_decode_encode.
Qed.

(** C3, as the code has it.  For a well-formed key, neither decryption
    function raises on any token.  On a token that the key does not
    authenticate, [decrypt_with_session] answers the empty string and
    [decrypt_session_key] answers [None].  [None] is never the answer
    for an authentic token, and a non-empty answer of
    [decrypt_with_session] is always the text of an authentic token; the
    empty answer is shared with the encryption of the empty message.
    Encrypting and then decrypting under the same key gives the message
    back, for messages and for session keys. *)
Theorem decryption_failure_marked_and_roundtrip (key : bytes) (f : fernet) :
  Fernet key = Some f ->
  (forall token, fernet_decrypt f (utf8_encode token) = None ->
     decrypt_with_session token key = Ok "" /\ decrypt_session_key token f = Ok None)
  /\ (forall token,
        returns (decrypt_with_session token key) /\ returns (decrypt_session_key token f))
  /\ (forall token k,
        decrypt_session_key token f = Ok (Some k) <->
        fernet_decrypt f (utf8_encode token) = Some k)
  /\ (forall token m,
        decrypt_with_session token key = Ok m -> m <> "" ->
        exists b, fernet_decrypt f (utf8_encode token) = Some b /\ utf8_decode b = Some m)
  /\ (forall rnd m, exists token,
        encrypt_with_session rnd m key = Ok token /\
        decrypt_with_session token key = Ok m)
  /\ (forall rnd k, exists token,
        encrypt_session_key rnd k f = Ok token /\
        decrypt_session_key token f = Ok (Some k)).
Proof.
  intros Hk. split; [|split; [|split; [|split; [|split]]]].
  - intros token Hbad. split.
    + by rewrite (decrypt_with_session_unfold _ _ _ Hk), Hbad.
    + unfold decrypt_session_key, decrypt. by rewrite Hbad.
  - intros token. split.
    + rewrite (decrypt_with_session_unfold _ _ _ Hk).
      destruct (fernet_decrypt f (utf8_encode token)) as [b|]; [|by eexists].
      destruct (utf8_decode b); by eexists.
    + unfold decrypt_session_key, decrypt.
      destruct (fernet_decrypt f (utf8_encode token)); by eexists.
  - intros token k. unfold decrypt_session_key, decrypt.
    destruct (fernet_decrypt f (utf8_encode token)); simpl; split; congruence.
  - intros token m Hm Hne.
    rewrite (decrypt_with_session_unfold _ _ _ Hk) in Hm.
    destruct (fernet_decrypt f (utf8_encode token)) as [b|]; [|congruence].
    exists b. split; [done|].
    destruct (utf8_decode b); congruence.
  - intros rnd m.
    destruct (encrypt_with_session_token rnd m key f Hk) as (token & He & Ht).
    exists token. split; [done|].
    rewrite (decrypt_with_session_unfold _ _ _ Hk), Ht, fernet_decrypt_encrypt.
    by rewrite utf8_decode_encode.
  - intros rnd k. unfold encrypt_session_key, decrypt_session_key, decode, decrypt.
    destruct (fernet_token_text f rnd k) as [token Ht].
    exists token. rewrite Ht. split; [done|].
    by rewrite (utf8_encode_decode _ _ Ht), fernet_decrypt_encrypt.
Qed.

End DecryptionFacts.

(** C3 on the reference library: the key [k] is well formed, so the
    theorem applies, and a forged token is answered by the marker. *)
Lemma decryption_failure_marked_witness :
  Fernet (PyLib := reference.lib) "k" = Some "k" /\
  session_key.decrypt_with_session (H := reference.lib) "forged" "k" = Ok "".
Proof.
  split; [reflexivity|].
  apply (decryption_failure_marked_and_roundtrip (H := reference.lib) "k" "k" eq_refl).
  reflexivity.
Defined.

(** C3 as stated fails: under the key [k] the token [forged] is not
    authentic and the token [k] is the encryption of the empty message,
    yet [decrypt_with_session] gives the same answer for both. *)
Lemma decrypt_with_session_marker_not_distinct :
  fernet_decrypt (PyLib := reference.lib) "k" "forged" = None /\
  session_key.encrypt_with_session (H := reference.lib) tt "" "k" = Ok "k" /\
  session_key.decrypt_with_session (H := reference.lib) "forged" "k"
    = session_key.decrypt_with_session (H := reference.lib) "k" "k".
Proof. repeat split. Qed.

(** ** Splitting *)

(** Closes a decidable goal on concrete data by evaluation. *)
Ltac by_evaluation := apply (bool_decide_unpack _); vm_compute; exact I.

Section SplitFacts.

Lemma is_prefix_app_notin (c : ascii) sep a b :
  c ∉ sep -> Py.is_prefix sep (a ++ c :: b) = Py.is_prefix sep a.
Proof.
  revert a. induction sep as [|x sep IH]; intros a Hc; [by destruct a|].
  apply not_elem_of_cons in Hc as [Hne Hc].
  destruct a as [|y a]; simpl.
  - apply andb_false_iff. left. by apply ascii_eqb_false.
  - by rewrite IH.
Qed.

Lemma occurs_app_notin (c : ascii) sep a b :
  c ∉ sep -> sep <> [] ->
  Py.occurs sep (a ++ c :: b) = Py.occurs sep a || Py.occurs sep b.
Proof.
  intros Hc Hsep. induction a as [|y a IH].
  - destruct sep as [|x sep]; [done|]. simpl.
    apply not_elem_of_cons in Hc as [Hne _].
    assert (Py.ascii_eqb x c = false) as -> by (apply ascii_eqb_false; congruence).
    done.
  - change ((y :: a) ++ c :: b) with (y :: (a ++ c :: b)).
    cbn [Py.occurs]. rewrite IH.
    change (y :: a ++ c :: b) with ((y :: a) ++ c :: b).
    rewrite is_prefix_app_notin by done. by rewrite orb_assoc.
Qed.

Lemma split_go_no_occurrence sep m l :
  Py.occurs sep l = false -> Py.split_go sep m 0 l = [l].
Proof.
  induction l as [|c l IH]; [done|].
  cbn [Py.occurs]. intros [Hp Ho]%orb_false_iff.
  cbn [Py.split_go]. rewrite Hp, andb_false_r. by rewrite IH.
Qed.

Lemma occurs_char (c : ascii) l : Py.occurs [c] l = false <-> c ∉ l.
Proof.
  induction l as [|x l IH]; simpl.
  - split; [intros _; apply not_elem_of_nil | done].
  - rewrite andb_true_r, orb_false_iff, IH, not_elem_of_cons.
    unfold Py.ascii_eqb. rewrite Ascii.eqb_neq. done.
Qed.

Lemma split_go_char_app (c : ascii) m a b :
  c ∉ a -> m <> Some O ->
  Py.split_go [c] m 0 (a ++ c :: b) = a :: Py.split_go [c] (Nat.pred <$> m) 0 b.
Proof.
  intros Ha Hm. induction a as [|x a IH].
  - simpl. unfold Py.ascii_eqb. rewrite Ascii.eqb_refl. simpl.
    by destruct m as [[|m]|].
  - apply not_elem_of_cons in Ha as [Hne Ha].
    change ((x :: a) ++ c :: b) with (x :: (a ++ c :: b)).
    cbn [Py.split_go Py.is_prefix].
    apply ascii_eqb_false in Hne. rewrite Hne, andb_false_l, andb_false_r.
    by rewrite IH.
Qed.

Lemma split_go_exhausted sep l : Py.split_go sep (Some O) 0 l = [l].
Proof. induction l as [|c l IH]; [done|]. cbn [Py.split_go]. simpl. by rewrite IH. Qed.

Lemma split_one (c : ascii) (a b : string) :
  c ∉ Py.chars a -> c ∉ Py.chars b ->
  Py.split (String c "") None (a +:+ String c "" +:+ b) = [a; b].
Proof.
  intros Ha Hb. unfold Py.split. rewrite !chars_app. simpl.
  rewrite split_go_char_app by done. simpl.
  rewrite split_go_no_occurrence by by apply occurs_char.
  simpl. by rewrite !of_chars_chars.
Qed.

Lemma split_three (c : ascii) (a b d : string) :
  c ∉ Py.chars a -> c ∉ Py.chars b ->
  Py.split (String c "") (Some 2%nat)
    (a +:+ String c "" +:+ b +:+ String c "" +:+ d) = [a; b; d].
Proof.
  intros Ha Hb. unfold Py.split. rewrite !chars_app. simpl.
  rewrite split_go_char_app by done. simpl.
  rewrite split_go_char_app by done. simpl.
  rewrite split_go_exhausted. simpl. by rewrite !of_chars_chars.
Qed.

End SplitFacts.

(** ** Share links (link_sharing.py) *)
Section LinkFacts.
Context `{PyLib}.
Import link_sharing.

Lemma split_join_prefix rest :
  Py.split_go (Py.chars "/join#") None 0
    (Py.chars LINK_SERVER_URL ++ Py.chars "/join#" ++ rest)
  = Py.chars LINK_SERVER_URL :: Py.split_go (Py.chars "/join#") None 0 rest.
Proof. reflexivity. Qed.

Lemma parse_construct (session_id key : str) :
  ":"%char ∉ Py.chars session_id -> ":"%char ∉ Py.chars key ->
  Py.contains "/join#" session_id = false -> Py.contains "/join#" key = false ->
  parse_share_url (construct_share_url session_id key) = Some (session_id, key).
Proof.
  intros Hs Hk Js Jk. unfold parse_share_url, construct_share_url, Py.split at 1.
  rewrite !chars_app, split_join_prefix.
  change (Py.chars ":") with [":"%char]. simpl app.
  rewrite split_go_no_occurrence.
  2:{ rewrite occurs_app_notin; [|by_evaluation|done].
      unfold Py.contains in Js, Jk. by rewrite Js, Jk. }
  cbn [map].
  replace (Py.of_chars (Py.chars session_id ++ ":"%char :: Py.chars key))
    with (session_id +:+ ":" +:+ key)
    by (rewrite of_chars_app; simpl; by rewrite !of_chars_chars).
  by rewrite split_one.
Qed.

Lemma credentials_roundtrip (ephemeral_key : bytes) (f : fernet) (rnd : entropy)
    (room_name room_secret server_url : str) :
  Fernet ephemeral_key = Some f ->
  "|"%char ∉ Py.chars room_name -> "|"%char ∉ Py.chars server_url ->
  exists payload key,
    generate_link_components ephemeral_key rnd room_name room_secret server_url
      = Ok (payload, key) /\
    decrypt_credentials payload key = Ok (room_name, server_url, room_secret).
Proof.
  intros Hf Hr Hs. unfold generate_link_components, decrypt_credentials, new_Fernet.
  rewrite Hf. simpl.
  set (plain := room_name +:+ "|" +:+ server_url +:+ "|" +:+ room_secret).
  destruct (b64_text (fernet_encrypt f rnd (utf8_encode plain))) as [payload Hp].
  destruct (b64_text ephemeral_key) as [key Hk].
  exists payload, key. unfold decode. rewrite Hp, Hk. simpl. split; [done|].
  rewrite (b64_decode_encode _ _ Hk), (b64_decode_encode _ _ Hp). simpl.
  rewrite Hf. simpl. unfold decrypt. rewrite fernet_decrypt_encrypt. simpl.
  rewrite utf8_decode_encode. simpl.
  unfold plain. by rewrite (split_three "|"%char).
Qed.

(** C9, as the code has it.  The credentials put into a link by
    [generate_link_components] under a well-formed ephemeral key come
    back from [decrypt_credentials] when the room name and the server
    URL contain no vertical bar.  [parse_share_url] inverts
    [construct_share_url] for a session id and a key that contain
    neither a colon nor the text [/join#]. *)
Theorem share_link_roundtrip :
  (forall (ephemeral_key : bytes) (f : fernet) (rnd : entropy)
          (room_name room_secret server_url : str),
     Fernet ephemeral_key = Some f ->
     "|"%char ∉ Py.chars room_name -> "|"%char ∉ Py.chars server_url ->
     exists payload key,
       generate_link_components ephemeral_key rnd room_name room_secret server_url
         = Ok (payload, key) /\
       decrypt_credentials payload key = Ok (room_name, server_url, room_secret))
  /\ (forall session_id key : str,
        ":"%char ∉ Py.chars session_id -> ":"%char ∉ Py.chars key ->
        Py.contains "/join#" session_id = false -> Py.contains "/join#" key = false ->
        parse_share_url (construct_share_url session_id key) = Some (session_id, key)).
Proof. split; [apply credentials_roundtrip | apply parse_construct]. Qed.

End LinkFacts.

(** C9 on the reference library, for the room [lobby] on [https://ntfy.sh]
    and for the session [s1] with key [a2V5]. *)
Lemma share_link_roundtrip_witness :
  (exists payload key,
     link_sharing.generate_link_components (H := reference.lib) "k" tt
       "lobby" "pass|word" "https://ntfy.sh" = Ok (payload, key) /\
     link_sharing.decrypt_credentials (H := reference.lib) payload key
       = Ok ("lobby", "https://ntfy.sh", "pass|word"))
  /\ link_sharing.parse_share_url (link_sharing.construct_share_url "s1" "a2V5")
       = Some ("s1", "a2V5").
Proof.
  destruct (share_link_roundtrip (H := reference.lib)) as [Hc Hp].
  split.
  - apply (Hc "k" "k" tt "lobby" "pass|word" "https://ntfy.sh" eq_refl); by_evaluation.
  - apply (Hp "s1" "a2V5"); try reflexivity; by_evaluation.
Defined.

(** C9 as stated fails: a session id with a colon does not survive
    [parse_share_url]. *)
Lemma parse_share_url_colon_in_session_id :
  link_sharing.parse_share_url (link_sharing.construct_share_url "a:b" "k") = None.
Proof. reflexivity. Qed.

(** ** Filename sanitisation (file_transfer.py) *)
Section SanitizeFacts.
Import file_transfer.

Lemma rfind_from_None c i l : Py.rfind_from c i l = None <-> c ∉ l.
Proof.
  revert i. induction l as [|x l IH]; intros i; simpl.
  - split; [intros _; apply not_elem_of_nil | done].
  - rewrite not_elem_of_cons. destruct (Py.rfind_from c (S i) l) eqn:E.
    + split; [done|]. intros [_ Hl]. apply (proj2 (IH (S i))) in Hl. congruence.
    + apply IH in E. destruct (Py.ascii_eqb x c) eqn:Ex.
      * apply ascii_eqb_true in Ex. split; [done|]. intros [Hne _]. congruence.
      * apply ascii_eqb_false in Ex. split; [|done]. intros _. split; [congruence|done].
Qed.
















(** The properties asked of a name that is written to the downloads
    directory. *)
Definition safe_name (r : str) : Prop :=
  ("/"%char ∉ Py.chars r) /\ r <> "." /\ r <> ".." /\
  Py.startswith_char "." r = false /\
  (forall c, c ∈ Py.chars r -> unsafe_char c = false) /\
  Py.len r <= 255.

Lemma safe_name_intro r :
  "/"%char ∉ Py.chars r -> head (Py.chars r) <> Some "."%char ->
  (forall c, c ∈ Py.chars r -> unsafe_char c = false) -> Py.len r <= 255 ->
  safe_name r.
Proof.
  intros Hsep Hhd Hsafe Hlen. repeat split; try done.
  - by intros ->.
  - by intros ->.
  - destruct r as [|x r]; [done|]. simpl. apply ascii_eqb_false.
    intros ->. by apply Hhd.
Qed.


End SanitizeFacts.



(** The truncation itself goes wrong on a long extension: the slice
    bound [255 - len(ext)] turns negative and the answer is the
    extension, longer than 255 characters and starting with a dot. *)
Example sanitize_filename_long_extension :
  let r := file_transfer.sanitize_filename
             ("a." +:+ Py.of_chars (replicate 300 "b"%char)) "x" in
  Py.len r = 301 /\ Py.startswith_char "." r = true.
Proof. by vm_compute. Qed.

(** Unfolds the plumbing of [M] and computes. *)
Ltac run_M :=
  repeat (unfold try_except, bind, lift, or_raise, get, get_buf, modify, modify_buf,
            append, getitem, ret, raise; simpl).

(** ** Receiving a file (file_transfer.py) *)
Section ReceiveFacts.
Context `{PyLib} `{Host} `{Constants}.
Import file_transfer.

(** The handlers as equations on the state and the buffer. *)
Lemma check_completion_eq file_id s b :
  _check_file_completion file_id s b =
    match available_files s !! file_id with
    | Some file_info =>
        match metadata file_info with
        | Some md =>
            if complete file_info then (Ok tt, s, b)
            else if (0 <? total_chunks file_info)
                    && (chunks_received file_info =? total_chunks file_info)
            then (Ok tt,
                  set_available_files (alter with_complete file_id (available_files s)) s,
                  b ++ [system (PanelFileReady (md_filename md) file_id)])
            else (Ok tt, s, b)
        | None => (Ok tt, s, b)
        end
    | None => (Ok tt, s, b)
    end.
Proof.
  unfold _check_file_completion, bind, get.
  destruct (available_files s !! file_id) as [info|]; [|done].
  destruct (metadata info); [|done].
  destruct (complete info); [done|].
  by destruct (_ && _).
Qed.

(** The state after the placeholder for an unseen file was created. *)
Definition created (file_id sender : str) (s : State) : State :=
  set_available_files (<[file_id := new_file None sender (-1)]> (available_files s))
    (set_file_chunks (<[file_id := ∅]> (file_chunks s)) s).

Definition ensure_created (file_id sender : str) (s : State) : State :=
  if decide (file_id ∈ dom (available_files s)) then s else created file_id sender s.

(** The state after a chunk was stored under its number. *)
Definition after_store (chunk : Chunk) (chunks : gmap Z Chunk) (s : State) : State :=
  let chunks' := <[ck_chunk_num chunk := chunk]> chunks in
  set_available_files
    (alter (with_chunks_received (Z.of_nat (size chunks'))) (ck_file_id chunk)
       (available_files (set_file_chunks (<[ck_file_id chunk := chunks']> (file_chunks s)) s)))
    (set_file_chunks (<[ck_file_id chunk := chunks']> (file_chunks s)) s).

Lemma handle_file_chunk_eq chunk sender s b :
  handle_file_chunk chunk sender s b =
    let file_id := ck_file_id chunk in
    let s0 := ensure_created file_id sender s in
    match available_files s0 !! file_id with
    | None => (Raised KeyError, s0, b)
    | Some file_info =>
        if complete file_info then (Ok tt, s0, b)
        else
          match file_chunks s0 !! file_id with
          | None => (Raised KeyError, s0, b)
          | Some chunks =>
              _check_file_completion file_id
                (if decide (ck_chunk_num chunk ∈ dom chunks) then s0
                 else after_store chunk chunks s0) b
          end
    end.
Proof.
  unfold handle_file_chunk, ensure_created, bind, get, getitem, modify, ret, raise.
  destruct (decide (ck_file_id chunk ∈ dom (available_files s))); simpl.
  - destruct (available_files s !! ck_file_id chunk) as [info|]; [|done].
    destruct (complete info); [done|].
    destruct (file_chunks s !! ck_file_id chunk) as [chunks|]; [|done].
    by destruct (decide (ck_chunk_num chunk ∈ dom chunks)).
  - rewrite !lookup_insert_eq. simpl. by rewrite decide_False by set_solver.
Qed.

Lemma handle_file_metadata_eq md sender s b :
  handle_file_metadata md sender s b =
    let file_id := md_file_id md in
    let s0 := ensure_created file_id sender s in
    _check_file_completion file_id
      (set_available_files (alter (with_metadata md) file_id (available_files s0)) s0)
      (b ++ [system (PanelFileIncoming sender (md_filename md) (md_size md)
                       (md_total_chunks md) file_id)]).
Proof.
  unfold handle_file_metadata, ensure_created, bind, get, modify, ret, update_file, append,
    modify_buf.
  by destruct (decide (md_file_id md ∈ dom (available_files s))).
Qed.

Lemma ensure_created_id file_id sender s :
  is_Some (available_files s !! file_id) -> ensure_created file_id sender s = s.
Proof.
  intros Hin. unfold ensure_created. rewrite decide_True; [done|].
  by apply elem_of_dom.
Qed.

Lemma ensure_created_lookup file_id sender s :
  is_Some (available_files (ensure_created file_id sender s) !! file_id).
Proof.
  unfold ensure_created. destruct (decide _) as [Hin|Hin].
  - by apply elem_of_dom.
  - simpl. rewrite lookup_insert_eq. by eexists.
Qed.

(** The completion check either leaves everything as it is, or marks
    the record complete and reports it; it never touches the chunks. *)
Lemma check_completion_cases file_id s b :
  exists s' b',
    _check_file_completion file_id s b = (Ok tt, s', b') /\
    file_chunks s' = file_chunks s /\
    ((s' = s /\ b' = b) \/
     exists file_info,
       available_files s !! file_id = Some file_info /\
       available_files s' !! file_id = Some (with_complete file_info)).
Proof.
  rewrite check_completion_eq.
  destruct (available_files s !! file_id) as [info|] eqn:E; [|by eauto 8].
  destruct (metadata info); [|by eauto 8].
  destruct (complete info); [by eauto 8|].
  destruct (_ && _); [|by eauto 8].
  eexists _, _. split; [done|]. split; [done|]. right.
  exists info. split; [done|]. simpl. by rewrite lookup_alter_eq, E.
Qed.

(** C5.  Delivering a chunk a second time changes nothing: the state
    (the stored chunks and [chunks_received] with it), the buffer and
    the outcome after the second delivery are those after the first. *)
Theorem handle_file_chunk_idempotent (chunk : Chunk) (sender sender' : str)
    (s : State) (b : Buf) :
  let r := handle_file_chunk chunk sender s b in
  handle_file_chunk chunk sender' (state_of r) (buf_of r) = r.
Proof.
  intros r. subst r. rewrite (handle_file_chunk_eq chunk sender s b). cbv zeta.
  set (file_id := ck_file_id chunk).
  set (s0 := ensure_created file_id sender s).
  destruct (ensure_created_lookup file_id sender s) as [info Hinfo]. fold s0 in Hinfo.
  rewrite Hinfo.
  assert (Hs0 : ensure_created file_id sender' s0 = s0)
    by (apply ensure_created_id; by eexists).
  destruct (complete info) eqn:Hc.
  { unfold state_of, buf_of. simpl. rewrite handle_file_chunk_eq. cbv zeta.
    fold file_id. by rewrite Hs0, Hinfo, Hc. }
  destruct (file_chunks s0 !! file_id) as [chunks|] eqn:Hch.
  2:{ unfold state_of, buf_of. simpl. rewrite handle_file_chunk_eq. cbv zeta.
      fold file_id. by rewrite Hs0, Hinfo, Hc, Hch. }
  (* the state the completion check of the first delivery starts from *)
  set (s1 := if decide (ck_chunk_num chunk ∈ dom chunks) then s0 else after_store chunk chunks s0).
  assert (exists info1 chunks1,
            available_files s1 !! file_id = Some info1 /\
            file_chunks s1 !! file_id = Some chunks1 /\
            ck_chunk_num chunk ∈ dom chunks1) as (info1 & chunks1 & Hi1 & Hc1 & Hn1).
  { unfold s1. destruct (decide _) as [Hin|Hin]; [by eauto|].
    unfold after_store. fold file_id. simpl.
    rewrite lookup_alter_eq, Hinfo, lookup_insert_eq. simpl.
    eexists _, _. split; [done|]. split; [done|]. set_solver. }
  destruct (check_completion_cases file_id s1 b)
    as (s' & b' & Hr & Hfc & [[-> ->]|(info' & Hi' & Hdone)]).
  - (* nothing was completed: the second delivery repeats the check *)
    rewrite Hr. unfold state_of, buf_of. simpl. rewrite handle_file_chunk_eq. cbv zeta.
    fold file_id. rewrite (ensure_created_id file_id sender' s1) by by eexists.
    rewrite Hi1, Hc1.
    destruct (complete info1) eqn:Hc'; [done|].
    by rewrite decide_True.
  - (* the first delivery completed the file: the second is ignored *)
    rewrite Hr. unfold state_of, buf_of. simpl. rewrite handle_file_chunk_eq. cbv zeta.
    fold file_id. rewrite (ensure_created_id file_id sender' s') by by eexists.
    by rewrite Hdone.
Qed.

End ReceiveFacts.

(** ** Assembling a file (file_transfer.py) *)
Section AssemblyFacts.
Context `{PyLib} `{Host} `{Constants}.
Import file_transfer.

Definition temp_path_of (file_id : str) (md : Metadata) : str :=
  path_join FILE_TEMP_DIR (file_id +:+ "_" +:+ md_filename md).

(** What [assemble_file_from_chunks] answers and leaves on disk for a
    complete record, as a function of the record, the stored chunks and
    the files. *)
Definition assembled (file_id : str) (f_cipher : fernet) (file_info : FileInfo)
    (chunks_dict : gmap Z Chunk) (files : gmap string bytes)
  : result (option str * option AssembleError) * gmap string bytes :=
  match metadata file_info with
  | None => (Ok (None, Some (ErrorAssembling TypeError)), files)
  | Some md =>
      let temp_path := temp_path_of file_id md in
      if can_write temp_path then
        let '(r, written) :=
          if md_total_chunks md =? 0 then (Ok tt, "")
          else write_chunks f_cipher (sorted_chunks_of chunks_dict) "" in
        match r with
        | Raised e => (Ok (None, Some (ErrorAssembling e)), <[temp_path := written]> files)
        | Ok _ =>
            if String.eqb (sha256_hexdigest written) (md_hash md)
            then (Ok (Some temp_path, None), <[temp_path := written]> files)
            else (Ok (None, Some IntegrityCheckFailed), delete temp_path files)
        end
      else (Ok (None, Some (ErrorAssembling OSError)), files)
  end.

Lemma set_fs_id (s : State) : set_fs (fs s) s = s.
Proof. by destruct s. Qed.

Lemma assemble_eq file_id f_cipher s b :
  assemble_file_from_chunks file_id f_cipher s b =
    match available_files s !! file_id with
    | None => (Ok (None, Some NotAvailableOrIncomplete), s, b)
    | Some file_info =>
        if complete file_info then
          match file_chunks s !! file_id with
          | None => (Raised KeyError, s, b)
          | Some chunks_dict =>
              let '(r, files) := assembled file_id f_cipher file_info chunks_dict (fs s) in
              (r, set_fs files s, b)
          end
        else (Ok (None, Some NotAvailableOrIncomplete), s, b)
    end.
Proof.
  unfold assemble_file_from_chunks, assembled. run_M.
  destruct (available_files s !! file_id) as [info|]; [|done].
  destruct (complete info); [|done]. simpl.
  destruct (file_chunks s !! file_id) as [chunks_dict|]; [|done].
  destruct (metadata info) as [md|]; simpl; [|by rewrite set_fs_id].
  fold (temp_path_of file_id md). unfold open_wb, write_file, os_remove.
  destruct (can_write (temp_path_of file_id md)); run_M;
    [|by destruct (_ =? _); rewrite set_fs_id].
  destruct (md_total_chunks md =? 0); run_M.
  - destruct (String.eqb _ _); run_M; [done|].
    rewrite decide_True by (rewrite dom_insert_L; set_solver). run_M.
    by rewrite delete_insert_eq.
  - destruct (write_chunks f_cipher (sorted_chunks_of chunks_dict) "") as [[[]|e] written];
      run_M; rewrite ?insert_insert_eq; [|done].
    destruct (String.eqb _ _); run_M; [done|].
    rewrite decide_True by (rewrite dom_insert_L; set_solver). run_M.
    by rewrite delete_insert_eq.
Qed.

(** [pieces] are the plaintexts of [chunks], in order. *)
Definition decrypts_to (f_cipher : fernet) (chunks : list Chunk) (pieces : list bytes) : Prop :=
  Forall2 (fun chunk piece =>
             fernet_decrypt f_cipher (utf8_encode (ck_data chunk)) = Some piece)
          chunks pieces.

Lemma write_chunks_pieces f_cipher chunks pieces written :
  decrypts_to f_cipher chunks pieces ->
  write_chunks f_cipher chunks written = (Ok tt, written +:+ String.concat "" pieces).
Proof.
  intros Hd. revert written. induction Hd as [|c piece cs ps Hc _ IH]; intros written.
  - simpl. by rewrite str_app_nil_r.
  - simpl. unfold decrypt. rewrite Hc. simpl. rewrite IH.
    destruct ps; simpl; by rewrite ?str_app_nil_r, ?str_app_assoc.
Qed.

Lemma str_concat_cons (piece : string) ps :
  String.concat "" (piece :: ps) = piece +:+ String.concat "" ps.
Proof. destruct ps; simpl; by rewrite ?str_app_nil_r. Qed.



Lemma sorted_keys_ascending (chunks_dict : gmap Z Chunk) :
  StronglySorted Z.le (sorted_keys chunks_dict) /\
  sorted_keys chunks_dict ≡ₚ elements (dom chunks_dict).
Proof.
  split; [apply StronglySorted_merge_sort; apply _ | apply merge_sort_Permutation].
Qed.




End AssemblyFacts.

Section AssemblyExample.
Import reference.


End AssemblyExample.

(** ** Empty files (file_transfer.py) *)
Section EmptyFileFacts.
Context `{PyLib} `{Host} `{Constants}.
Import file_transfer.

(** The metadata the sender packages for a file without contents. *)
Definition empty_file_md (file_id filename : str) : Metadata := {|
  md_file_id := file_id; md_filename := filename; md_size := 0;
  md_total_chunks := 0; md_hash := sha256_hexdigest "";
|}.

(** [split_file_to_chunks] on an empty file answers that metadata and
    no chunk. *)
Lemma split_empty_file uuid4 rnd filepath f_cipher s :
  fs s !! filepath = Some "" -> 0 <= MAX_FILE_SIZE ->
  split_file_to_chunks uuid4 rnd filepath f_cipher s =
    (Some (empty_file_md (Py.slice_to uuid4 8) (Py.basename filepath)), inl []).
Proof.
  intros Hf Hmax. unfold split_file_to_chunks. rewrite Hf.
  change (Py.len "") with 0. rewrite (proj2 (Z.ltb_ge _ _) Hmax).
  unfold blocks_of. change (Py.chars "") with (@nil ascii). simpl.
  by rewrite take_nil.
Qed.

(** Assembly has a branch for a record without chunks: were such a
    record marked complete, the empty file would be written and its
    digest, that of the empty input, accepted. *)
Lemma assemble_empty_file file_id filename sender f_cipher s b chunks_dict :
  let md := empty_file_md file_id filename in
  available_files s !! file_id
    = Some {| metadata := Some md; sender := sender; chunks_received := 0;
              total_chunks := 0; complete := true |} ->
  file_chunks s !! file_id = Some chunks_dict ->
  can_write (temp_path_of file_id md) = true ->
  let r := assemble_file_from_chunks file_id f_cipher s b in
  outcome_of r = Ok (Some (temp_path_of file_id md), None) /\
  fs (state_of r) !! temp_path_of file_id md = Some "".
Proof.
  intros md Hinfo Hchunks Hwrite r. unfold r.
  rewrite assemble_eq, Hinfo. simpl. rewrite Hchunks. unfold assembled. simpl.
  fold md. rewrite Hwrite. simpl. rewrite String.eqb_refl.
  split; [done|]. unfold state_of. simpl. by rewrite lookup_insert_eq.
Qed.

(** C1 on the code: when the metadata of an empty file is the first the
    receiver hears of it, the record is created with the metadata known
    and [chunks_received] equal to [total_chunks], both zero, and yet
    [complete] stays false: the completion check demands [total > 0].
    The following assembly is refused as incomplete. *)
Theorem empty_file_is_never_complete (file_id filename sender : str)
    (f_cipher : fernet) (files : gmap string bytes) :
  let md := empty_file_md file_id filename in
  let r := handle_file_metadata md sender (initial_state files) [] in
  outcome_of r = Ok tt /\
  available_files (state_of r) !! file_id
    = Some {| metadata := Some md; sender := sender; chunks_received := 0;
              total_chunks := 0; complete := false |} /\
  outcome_of (assemble_file_from_chunks file_id f_cipher (state_of r) (buf_of r))
    = Ok (None, Some NotAvailableOrIncomplete).
Proof.
  intros md r.
  assert (Hr : available_files (state_of r) !! file_id
               = Some {| metadata := Some md; sender := sender; chunks_received := 0;
                         total_chunks := 0; complete := false |} /\
               outcome_of r = Ok tt).
  { unfold r. rewrite handle_file_metadata_eq. cbv zeta.
    unfold ensure_created. simpl. rewrite decide_False by set_solver.
    rewrite check_completion_eq. simpl.
    rewrite lookup_alter_eq, lookup_insert_eq. simpl.
    split; [|done]. unfold state_of. simpl.
    by rewrite lookup_alter_eq, lookup_insert_eq. }
  destruct Hr as [Hinfo Hout]. split; [done|]. split; [done|].
  by rewrite assemble_eq, Hinfo.
Qed.

End EmptyFileFacts.

(** ** Order of arrival (file_transfer.py) *)

(** What the listener hands to the receiving handlers. *)
Inductive Arrival : Type :=
  | Meta (md : Metadata)
  | Part (chunk : Chunk).

Section OrderFacts.
Context `{PyLib} `{Host} `{Constants}.
Import file_transfer.

Definition deliver (sender : str) (a : Arrival) : M unit :=
  match a with
  | Meta md => handle_file_metadata md sender
  | Part chunk => handle_file_chunk chunk sender
  end.

Fixpoint deliver_all (sender : str) (arrivals : list Arrival) : M unit :=
  match arrivals with
  | [] => ret tt
  | a :: rest => deliver sender a ;;; deliver_all sender rest
  end.

(** The chunks of a bundle by chunk number. *)
Definition chunk_map (chunks : list Chunk) : gmap Z Chunk :=
  list_to_map ((fun chunk => (ck_chunk_num chunk, chunk)) <$> chunks).

(** A bundle as the sender packages it: the metadata counts the chunks,
    which carry the file id and are numbered from zero in order. *)
Definition bundle_ok (md : Metadata) (chunks : list Chunk) : Prop :=
  md_total_chunks md = Z.of_nat (List.length chunks) /\
  forall i chunk, chunks !! i = Some chunk ->
    ck_file_id chunk = md_file_id md /\ ck_chunk_num chunk = Z.of_nat i.

(** Whether the completion check marks a record complete. *)
Definition completes (file_info : FileInfo) : bool :=
  bool_decide (is_Some (metadata file_info)) && negb (complete file_info)
  && (0 <? total_chunks file_info)
  && (chunks_received file_info =? total_chunks file_info).

Lemma check_on_record file_id s b file_info :
  available_files s !! file_id = Some file_info ->
  exists s' b',
    _check_file_completion file_id s b = (Ok tt, s', b') /\
    file_chunks s' = file_chunks s /\ fs s' = fs s /\
    available_files s' !! file_id
      = Some (if completes file_info then with_complete file_info else file_info).
Proof.
  intros Hinfo. rewrite check_completion_eq, Hinfo. unfold completes.
  destruct (metadata file_info) as [md|]; simpl; [|by eauto 8].
  destruct (complete file_info); simpl; [by eauto 8|].
  destruct (_ && _); [|by eauto 8].
  eexists _, _. split; [done|]. repeat split.
  simpl. by rewrite lookup_alter_eq, Hinfo.
Qed.

Section OneBundle.
Variables (md : Metadata) (chunks : list Chunk) (sender : str).
Hypothesis Hbundle : bundle_ok md chunks.
Hypothesis Hnonempty : (1 <= List.length chunks)%nat.

Let file_id := md_file_id md.
Let N := List.length chunks.

Lemma chunk_keys_nodup :
  NoDup ((fun chunk => (ck_chunk_num chunk, chunk)) <$> chunks).*1.
Proof.
  rewrite <- list_fmap_compose. apply NoDup_alt. intros i j k Hi Hj.
  apply list_lookup_fmap_Some in Hi as (ci & -> & Hci).
  apply list_lookup_fmap_Some in Hj as (cj & E & Hcj).
  destruct Hbundle as [_ Hnum]. simpl in E.
  rewrite (proj2 (Hnum _ _ Hci)), (proj2 (Hnum _ _ Hcj)) in E. lia.
Qed.

Lemma chunk_map_lookup chunk :
  chunk ∈ chunks -> chunk_map chunks !! ck_chunk_num chunk = Some chunk.
Proof.
  intros Hin. apply elem_of_list_to_map; [apply chunk_keys_nodup|].
  apply list_elem_of_fmap. by exists chunk.
Qed.

Lemma chunk_map_size : size (chunk_map chunks) = N.
Proof.
  unfold chunk_map. rewrite map_size_list_to_map by apply chunk_keys_nodup.
  by rewrite length_fmap.
Qed.

Lemma chunk_file_id chunk : chunk ∈ chunks -> ck_file_id chunk = file_id.
Proof.
  intros (i & Hi)%list_elem_of_lookup. by apply Hbundle in Hi as [? _].
Qed.

(** What the receiver knows of the bundle: nothing, or whether the
    metadata has been seen and which chunks are stored. *)
Definition Summary : Type := option (bool * gmap Z Chunk).

Definition step (σ : Summary) (a : Arrival) : Summary :=
  match σ, a with
  | None, Meta _ => Some (true, ∅)
  | None, Part chunk => Some (false, {[ck_chunk_num chunk := chunk]})
  | Some (_, stored), Meta _ => Some (true, stored)
  | Some (seen, stored), Part chunk => Some (seen, <[ck_chunk_num chunk := chunk]> stored)
  end.

(** The record of the file: [marked] is the [complete] flag. *)
Definition record_with (seen : bool) (stored : gmap Z Chunk) (marked : bool) : FileInfo :=
  {| metadata := if seen then Some md else None; state.sender := sender;
     chunks_received := Z.of_nat (size stored);
     total_chunks := if seen then Z.of_nat N else -1;
     complete := marked |}.

(** The record once the completion check has run. *)
Definition record_of (seen : bool) (stored : gmap Z Chunk) : FileInfo :=
  record_with seen stored (seen && (size stored =? N)%nat).

Definition view_ok (σ : Summary) (s : State) : Prop :=
  match σ with
  | None => available_files s !! file_id = None
  | Some (seen, stored) =>
      available_files s !! file_id = Some (record_of seen stored) /\
      file_chunks s !! file_id = Some stored /\
      stored ⊆ chunk_map chunks
  end.

Definition arrival_ok (a : Arrival) : Prop :=
  match a with
  | Meta md' => md' = md
  | Part chunk => chunk ∈ chunks
  end.

Lemma stored_full stored :
  stored ⊆ chunk_map chunks -> size stored = N -> stored = chunk_map chunks.
Proof.
  intros Hsub Hsize. apply map_subseteq_size_eq; [done|].
  rewrite chunk_map_size. lia.
Qed.

Lemma stored_insert_known stored chunk :
  stored ⊆ chunk_map chunks -> chunk ∈ chunks ->
  ck_chunk_num chunk ∈ dom stored -> <[ck_chunk_num chunk := chunk]> stored = stored.
Proof.
  intros Hsub Hin [c Hc]%elem_of_dom. apply insert_id.
  rewrite Hc. f_equal.
  pose proof (lookup_weaken _ _ _ _ Hc Hsub) as Hc'.
  rewrite (chunk_map_lookup _ Hin) in Hc'. congruence.
Qed.

Lemma check_settles seen stored :
  let r := record_with seen stored false in
  (if completes r then with_complete r else r) = record_of seen stored.
Proof.
  unfold completes, record_of, record_with, with_complete. simpl.
  destruct seen; simpl; [|done].
  replace (0 <? Z.of_nat N) with true by (symmetry; apply Z.ltb_lt; unfold N; lia).
  simpl. destruct (size stored =? N)%nat eqn:E.
  - apply Nat.eqb_eq in E. by rewrite (proj2 (Z.eqb_eq _ _)) by lia.
  - apply Nat.eqb_neq in E. by rewrite (proj2 (Z.eqb_neq _ _)) by lia.
Qed.

Lemma check_settled seen stored :
  let r := record_of seen stored in
  (if completes r then with_complete r else r) = r.
Proof.
  unfold completes, record_of, record_with, with_complete. simpl.
  destruct seen; simpl; [|done].
  replace (0 <? Z.of_nat N) with true by (symmetry; apply Z.ltb_lt; unfold N; lia).
  simpl. destruct (size stored =? N)%nat eqn:E; simpl; [done|].
  apply Nat.eqb_neq in E. by rewrite (proj2 (Z.eqb_neq _ _)) by lia.
Qed.

Lemma finish_with_check s1 b1 seen stored marked files :
  available_files s1 !! file_id = Some (record_with seen stored marked) ->
  file_chunks s1 !! file_id = Some stored ->
  stored ⊆ chunk_map chunks ->
  marked = false \/ record_with seen stored marked = record_of seen stored ->
  fs s1 = files ->
  exists s' b',
    _check_file_completion file_id s1 b1 = (Ok tt, s', b') /\
    view_ok (Some (seen, stored)) s' /\ fs s' = files.
Proof.
  intros Hinfo Hchunks Hsub Hmarked Hfiles.
  destruct (check_on_record file_id s1 b1 _ Hinfo) as (s' & b' & Hr & Hfc & Hfs & Hi').
  exists s', b'. split; [done|]. split; [|congruence].
  split; [|split; [by rewrite Hfc | done]].
  rewrite Hi'. f_equal. destruct Hmarked as [->|E].
  - apply check_settles.
  - rewrite E. apply check_settled.
Qed.

Lemma deliver_step σ s b a :
  view_ok σ s -> arrival_ok a ->
  exists s' b',
    deliver sender a s b = (Ok tt, s', b') /\ view_ok (step σ a) s' /\ fs s' = fs s.
Proof.
  intros Hview Ha. destruct Hbundle as [Htotal _].
  destruct σ as [[seen stored]|], a as [md'|chunk]; simpl in Ha, Hview |- *.
  - (* metadata for a known file *)
    subst md'. destruct Hview as (Hinfo & Hchunks & Hsub).
    rewrite handle_file_metadata_eq. cbv zeta. fold file_id.
    rewrite ensure_created_id by by eexists.
    eapply (finish_with_check _ _ true stored (seen && (size stored =? N)%nat));
      [|done|done| |done].
    + simpl. rewrite lookup_alter_eq, Hinfo. simpl. f_equal.
      unfold with_metadata, record_of, record_with. simpl. by rewrite Htotal.
    + destruct (seen && (size stored =? N)%nat) eqn:E; [right|by left].
      apply andb_true_iff in E as [_ E]. unfold record_of. simpl. by rewrite E.
  - (* a chunk for a known file *)
    destruct Hview as (Hinfo & Hchunks & Hsub).
    rewrite handle_file_chunk_eq. cbv zeta. rewrite (chunk_file_id _ Ha).
    rewrite ensure_created_id by by eexists.
    rewrite Hinfo. simpl. destruct (seen && (size stored =? N)%nat) eqn:Hdone.
    { (* already complete: the chunk is among the stored ones *)
      exists s, b. split; [done|]. split; [|done].
      apply andb_true_iff in Hdone as [_ Hsize%Nat.eqb_eq].
      rewrite insert_id; [by repeat split|].
      rewrite (stored_full _ Hsub Hsize). by apply chunk_map_lookup. }
    rewrite Hchunks. destruct (decide _) as [Hin|Hin].
    + rewrite (stored_insert_known _ _ Hsub Ha Hin).
      eapply (finish_with_check _ _ seen stored (seen && (size stored =? N)%nat));
        [done|done|done|by right|done].
    + eapply (finish_with_check _ _ seen _ false); [| | |by left|done].
      * unfold after_store. rewrite (chunk_file_id _ Ha). simpl.
        rewrite lookup_alter_eq, Hinfo. simpl. f_equal.
        unfold with_chunks_received, record_of, record_with. simpl. by rewrite Hdone.
      * unfold after_store. rewrite (chunk_file_id _ Ha). simpl.
        by rewrite lookup_insert_eq.
      * apply insert_subseteq_l; [by apply chunk_map_lookup | done].
  - (* metadata first *)
    subst md'. rewrite handle_file_metadata_eq. cbv zeta. fold file_id.
    unfold ensure_created. rewrite decide_False by by apply not_elem_of_dom.
    eapply (finish_with_check _ _ true ∅ false); [| | |by left|done].
    + simpl. rewrite lookup_alter_eq, lookup_insert_eq. simpl. f_equal.
      unfold with_metadata, new_file, record_with. simpl.
      by rewrite Htotal, map_size_empty.
    + simpl. by rewrite lookup_insert_eq.
    + apply map_empty_subseteq.
  - (* a chunk first *)
    rewrite handle_file_chunk_eq. cbv zeta. rewrite (chunk_file_id _ Ha).
    unfold ensure_created. rewrite decide_False by by apply not_elem_of_dom.
    simpl. rewrite !lookup_insert_eq. simpl.
    rewrite decide_False by set_solver.
    eapply (finish_with_check _ _ false {[ck_chunk_num chunk := chunk]} false);
      [| | |by left|done].
    + unfold after_store. rewrite (chunk_file_id _ Ha). simpl.
      by rewrite lookup_alter_eq, lookup_insert_eq.
    + unfold after_store. rewrite (chunk_file_id _ Ha). simpl.
      by rewrite lookup_insert_eq.
    + apply insert_subseteq_l; [by apply chunk_map_lookup | apply map_empty_subseteq].
Qed.

Lemma deliver_all_run arrivals σ s b :
  view_ok σ s -> Forall arrival_ok arrivals ->
  exists s' b',
    deliver_all sender arrivals s b = (Ok tt, s', b') /\
    view_ok (foldl step σ arrivals) s' /\ fs s' = fs s.
Proof.
  intros Hview Hall. revert σ s b Hview.
  induction Hall as [|a rest Ha _ IH]; intros σ s b Hview; [by eauto|].
  destruct (deliver_step σ s b a Hview Ha) as (s1 & b1 & Hr1 & Hview1 & Hfs1).
  destruct (IH _ s1 b1 Hview1) as (s' & b' & Hr & Hview' & Hfs').
  exists s', b'. simpl. unfold bind. rewrite Hr1, Hr.
  split; [done|]. split; [done | congruence].
Qed.

Definition seen_of (σ : Summary) : bool :=
  match σ with Some (seen, _) => seen | None => false end.

Definition keys_of (σ : Summary) : gset Z :=
  match σ with Some (_, stored) => dom stored | None => ∅ end.

Lemma fold_step_seen arrivals σ :
  seen_of σ = true \/ (exists md', Meta md' ∈ arrivals) ->
  seen_of (foldl step σ arrivals) = true.
Proof.
  revert σ. induction arrivals as [|a rest IH]; intros σ Hseen; simpl.
  - destruct Hseen as [?|[md' Hin]]; [done | by apply elem_of_nil in Hin].
  - apply IH. destruct Hseen as [Hseen|[md' Hin]].
    + left. by destruct σ as [[[] stored]|], a.
    + apply elem_of_cons in Hin as [<-|Hin]; [|by eauto].
      left. by destruct σ as [[seen stored]|].
Qed.

Lemma fold_step_keys arrivals σ chunk :
  ck_chunk_num chunk ∈ keys_of σ \/ Part chunk ∈ arrivals ->
  ck_chunk_num chunk ∈ keys_of (foldl step σ arrivals).
Proof.
  revert σ. induction arrivals as [|a rest IH]; intros σ Hkey; simpl.
  - destruct Hkey as [?|Hin]; [done | by apply elem_of_nil in Hin].
  - apply IH. destruct Hkey as [Hkey|Hin].
    + left. destruct σ as [[seen stored]|], a; simpl in *; set_solver.
    + apply elem_of_cons in Hin as [<-|Hin]; [|by right].
      left. destruct σ as [[seen stored]|]; simpl; set_solver.
Qed.

(** After the metadata and every chunk have arrived, in whatever order
    and however often, the record is complete and all chunks are stored. *)
Lemma deliver_all_complete arrivals s b :
  available_files s !! file_id = None ->
  arrivals ≡ₚ Meta md :: (Part <$> chunks) ->
  exists s' b',
    deliver_all sender arrivals s b = (Ok tt, s', b') /\
    available_files s' !! file_id = Some (record_with true (chunk_map chunks) true) /\
    file_chunks s' !! file_id = Some (chunk_map chunks) /\
    fs s' = fs s.
Proof.
  intros Hfresh Hperm.
  assert (Hall : Forall arrival_ok arrivals).
  { rewrite Hperm. constructor; [done|]. apply Forall_fmap, Forall_forall. by intros. }
  destruct (deliver_all_run arrivals None s b Hfresh Hall) as (s' & b' & Hr & Hview & Hfs).
  exists s', b'. split; [done|].
  pose proof (fold_step_seen arrivals None) as Hseen.
  pose proof (fold_step_keys arrivals None) as Hkeys.
  destruct (foldl step None arrivals) as [[seen stored]|].
  2:{ simpl in Hseen. discriminate Hseen. right. exists md. rewrite Hperm. left. }
  simpl in Hseen, Hkeys, Hview. destruct Hview as (Hinfo & Hchunks & Hsub).
  rewrite Hseen in Hinfo by (right; exists md; rewrite Hperm; left).
  assert (stored = chunk_map chunks) as ->.
  { apply subseteq_dom_eq; [done|]. intros k Hk.
    apply elem_of_dom in Hk as [chunk Hk].
    apply elem_of_list_to_map in Hk; [|apply chunk_keys_nodup].
    apply list_elem_of_fmap in Hk as (chunk' & [= -> ->] & Hin).
    apply Hkeys. right. rewrite Hperm. right. by apply list_elem_of_fmap_2. }
  split; [|done]. rewrite Hinfo. unfold record_of.
  by rewrite chunk_map_size, Nat.eqb_refl.
Qed.

Lemma chunk_numbers : ck_chunk_num <$> chunks = Z.of_nat <$> seq 0 N.
Proof.
  apply list_eq. intros i. rewrite !list_lookup_fmap.
  destruct (chunks !! i) as [chunk|] eqn:Hi; simpl.
  - rewrite lookup_seq_lt by (apply lookup_lt_Some in Hi; by unfold N).
    simpl. f_equal. by apply Hbundle in Hi as [_ ->].
  - by rewrite lookup_seq_ge by (apply lookup_ge_None in Hi; by unfold N).
Qed.

Lemma seq_ascending k n : StronglySorted Z.le (Z.of_nat <$> seq k n).
Proof.
  revert k. induction n as [|n IH]; intros k; simpl; constructor; [apply IH|].
  apply Forall_fmap, Forall_forall. intros i Hi%elem_of_seq. simpl. lia.
Qed.

Lemma sorted_keys_chunk_map : sorted_keys (chunk_map chunks) = Z.of_nat <$> seq 0 N.
Proof.
  apply (StronglySorted_unique Z.le).
  - apply sorted_keys_ascending.
  - apply seq_ascending.
  - rewrite (proj2 (sorted_keys_ascending _)). unfold chunk_map.
    rewrite dom_list_to_map_L, <- list_fmap_compose.
    change (fst ∘ (fun chunk => (ck_chunk_num chunk, chunk))) with ck_chunk_num.
    rewrite elements_list_to_set; [by rewrite chunk_numbers|].
    pose proof chunk_keys_nodup as Hnd. by rewrite <- list_fmap_compose in Hnd.
Qed.

Lemma lookup_chunks_from k n :
  (k + n <= N)%nat ->
  omap (fun i => chunk_map chunks !! i) (Z.of_nat <$> seq k n) = take n (drop k chunks).
Proof.
  revert k. induction n as [|n IH]; intros k Hk; [done|].
  destruct (lookup_lt_is_Some_2 chunks k) as [chunk Hc]; [unfold N in Hk; lia|].
  simpl. rewrite (drop_S _ _ _ Hc). simpl.
  assert (Hnum : ck_chunk_num chunk = Z.of_nat k) by (by apply Hbundle in Hc as [_ ?]).
  rewrite <- Hnum, chunk_map_lookup by (by eapply list_elem_of_lookup_2).
  simpl. f_equal. apply IH. lia.
Qed.

Lemma sorted_chunks_chunk_map : sorted_chunks_of (chunk_map chunks) = chunks.
Proof.
  unfold sorted_chunks_of. rewrite sorted_keys_chunk_map, lookup_chunks_from by lia.
  rewrite drop_0. unfold N. apply firstn_all.
Qed.

End OneBundle.

(** Assembly on a state in which the bundle has been received in full. *)
Lemma assemble_delivered md chunks sender f_cipher s1 b1 pieces :
  bundle_ok md chunks -> (1 <= List.length chunks)%nat ->
  available_files s1 !! md_file_id md
    = Some (record_with md chunks sender true (chunk_map chunks) true) ->
  file_chunks s1 !! md_file_id md = Some (chunk_map chunks) ->
  decrypts_to f_cipher chunks pieces ->
  sha256_hexdigest (String.concat "" pieces) = md_hash md ->
  can_write (temp_path_of (md_file_id md) md) = true ->
  let a := assemble_file_from_chunks (md_file_id md) f_cipher s1 b1 in
  outcome_of a = Ok (Some (temp_path_of (md_file_id md) md), None) /\
  fs (state_of a) !! temp_path_of (md_file_id md) md = Some (String.concat "" pieces).
Proof.
  intros Hbundle Hnonempty Hinfo Hchunks Hd Hh Hwrite a. subst a.
  rewrite assemble_eq, Hinfo. simpl. rewrite Hchunks.
  unfold assembled. simpl. rewrite Hwrite.
  replace (md_total_chunks md =? 0) with false
    by (symmetry; apply Z.eqb_neq; destruct Hbundle as [-> _]; lia).
  rewrite (sorted_chunks_chunk_map md chunks Hbundle) by done.
  rewrite (write_chunks_pieces _ _ _ _ Hd).
  change ("" +:+ String.concat "" pieces) with (String.concat "" pieces).
  simpl. apply string_eqb_true in Hh. rewrite Hh. simpl.
  split; [done|]. unfold state_of. simpl. by rewrite lookup_insert_eq.
Qed.

(** C4.  Take a bundle of N >= 1 chunks as the sender packages it and a
    receiver that has not heard of the file.  Whatever the order in
    which the metadata and the chunks arrive, the handlers return, the
    record is complete with all N chunks counted, and the stored chunks
    are those of the bundle.  Assembly then answers the same and leaves
    the same files as after any other order of arrival; and when the
    chunks decrypt and the digest matches, the assembled file is the
    plaintext of the chunks in chunk order. *)
Theorem delivery_order_independent (md : Metadata) (chunks : list Chunk)
    (sender : str) (s : State) (b : Buf) (order : list Arrival) :
  bundle_ok md chunks -> (1 <= List.length chunks)%nat ->
  available_files s !! md_file_id md = None ->
  order ≡ₚ Meta md :: (Part <$> chunks) ->
  let file_id := md_file_id md in
  let n := Z.of_nat (List.length chunks) in
  let r := deliver_all sender order s b in
  outcome_of r = Ok tt /\
  available_files (state_of r) !! file_id
    = Some {| metadata := Some md; state.sender := sender; chunks_received := n;
              total_chunks := n; complete := true |} /\
  file_chunks (state_of r) !! file_id = Some (chunk_map chunks) /\
  forall f_cipher,
    let a := assemble_file_from_chunks file_id f_cipher (state_of r) (buf_of r) in
    (forall order' b', order' ≡ₚ Meta md :: (Part <$> chunks) ->
       let r' := deliver_all sender order' s b' in
       let a' := assemble_file_from_chunks file_id f_cipher (state_of r') (buf_of r') in
       outcome_of a' = outcome_of a /\ fs (state_of a') = fs (state_of a))
    /\ (forall pieces, decrypts_to f_cipher chunks pieces ->
          sha256_hexdigest (String.concat "" pieces) = md_hash md ->
          can_write (temp_path_of file_id md) = true ->
          outcome_of a = Ok (Some (temp_path_of file_id md), None) /\
          fs (state_of a) !! temp_path_of file_id md = Some (String.concat "" pieces)).
Proof.
  intros Hbundle Hnonempty Hfresh Hperm file_id n r. subst file_id n.
  destruct (deliver_all_complete md chunks sender Hbundle Hnonempty order s b Hfresh Hperm)
    as (s1 & b1 & Hr & Hinfo & Hchunks & Hfs).
  unfold r. rewrite Hr. unfold outcome_of, state_of, buf_of. simpl.
  split; [done|].
  split; [by rewrite Hinfo; unfold record_with; rewrite (chunk_map_size md chunks Hbundle)|].
  split; [done|]. intros f_cipher. split.
  - rewrite assemble_eq. rewrite Hinfo. simpl. rewrite Hchunks, Hfs.
    intros order' b' Hperm'.
    destruct (deliver_all_complete md chunks sender Hbundle Hnonempty order' s b'
                Hfresh Hperm') as (s2 & b2 & Hr' & Hinfo' & Hchunks' & Hfs').
    rewrite Hr'. simpl. rewrite assemble_eq.
    rewrite Hinfo'. simpl. rewrite Hchunks', Hfs'.
    by destruct (assembled _ _ _ _ _).
  - intros pieces Hd Hh Hwrite.
    by apply (assemble_delivered md chunks sender f_cipher s1 b1 pieces).
Qed.

End OrderFacts.

Section OrderExample.
Import reference.

Lemma demo_bundle_ok : bundle_ok demo_md demo_chunks.
Proof.
  split; [reflexivity|].
  intros [|[|[|i]]] chunk Hi; simpl in Hi; inversion Hi; split; reflexivity.
Defined.

(** C4 on the reference transfer, delivered in reversed order: the last
    chunk first, the metadata last. *)
Lemma delivery_order_independent_witness :
  let r := deliver_all (H := lib) "bob" (rev (Meta demo_md :: (Part <$> demo_chunks)))
             empty_state [] in
  outcome_of r = Ok tt /\
  complete <$> available_files (state_of r) !! "01234567" = Some true.
Proof.
  destruct (delivery_order_independent (H := lib) demo_md demo_chunks "bob"
              empty_state [] (rev (Meta demo_md :: (Part <$> demo_chunks)))
              demo_bundle_ok)
    as (Hout & Hinfo & _).
  - simpl. lia.
  - reflexivity.
  - symmetry. apply Permutation_rev.
  - split; [exact Hout|]. exact (f_equal (fmap complete) Hinfo).
Defined.

End OrderExample.

(** ** Commands rejected locally (commands.py) *)
Section RejectionFacts.
Context `{PyLib} `{Host} `{Constants} `{Utils}.
Import commands.

(** The command word and the arguments of an input line. *)
Definition parse_line (line : str) : str * str :=
  Py.partition " " (Py.slice_from line 1).

(** The situations in which a lottery draw or cancel, a poll close or a
    vote has no matching lottery or poll, or comes from another nick
    than the recorded starter; each with the message shown and whether
    the buffer is trimmed afterwards. *)
Inductive rejection (room nick : str) (s : State) : str -> str -> Msg -> bool -> Prop :=
  | draw_without_lottery args :
      sub_cmd_of args = "draw" -> lottery_state s !! room = None ->
      rejection room nick s "lottery" args NoLotteryToDraw true
  | draw_by_other args lottery :
      sub_cmd_of args = "draw" -> lottery_state s !! room = Some lottery ->
      lottery_starter lottery <> nick ->
      rejection room nick s "lottery" args (OnlyStarterCanDraw (lottery_starter lottery)) true
  | cancel_without_lottery args :
      sub_cmd_of args = "cancel" -> lottery_state s !! room = None ->
      rejection room nick s "lottery" args NoLotteryToCancel true
  | cancel_by_other args lottery :
      sub_cmd_of args = "cancel" -> lottery_state s !! room = Some lottery ->
      lottery_starter lottery <> nick ->
      rejection room nick s "lottery" args (OnlyStarterCanCancel (lottery_starter lottery)) true
  | close_without_poll args :
      Py.lower args = "close" -> poll_state s !! room = None ->
      rejection room nick s "poll" args NoPollToClose false
  | close_by_other args poll :
      Py.lower args = "close" -> poll_state s !! room = Some poll ->
      poll_starter poll <> nick ->
      rejection room nick s "poll" args (OnlyStarterCanClose (poll_starter poll)) false
  | vote_without_poll args :
      poll_state s !! room = None ->
      rejection room nick s "vote" args NoPollToVote false.

(** C7.  A lottery draw or cancel, a poll close or a vote that finds no
    matching lottery or poll in the room, or a draw, cancel or close by
    a nick other than the recorded starter, returns without raising,
    appends the corresponding error message to the buffer (trimmed
    afterwards for the lottery commands) and leaves the whole shared
    state, the outbox queue in particular, as it was. *)
Theorem command_rejected_locally (o : Oracle) (line room nick server : str)
    (f : fernet) (secret : str) (is_public is_tor : bool) (s : State) (buf : Buf)
    (cmd args : str) (msg : Msg) (trimmed : bool) :
  parse_line line = (cmd, args) ->
  rejection room nick s cmd args msg trimmed ->
  let r := handle_command o line room nick server f secret is_public is_tor s buf in
  outcome_of r = Ok None /\
  state_of r = s /\
  outbox_queue (state_of r) = outbox_queue s /\
  buf_of r = if trimmed then trim (buf ++ [system msg]) else buf ++ [system msg].
Proof.
  intros Hline Hrej r. subst r. unfold handle_command.
  unfold parse_line in Hline. rewrite Hline.
  destruct Hrej as [args Hsub Hl|args l Hsub Hl Hne|args Hsub Hl|args l Hsub Hl Hne
                   |args Hlow Hp|args p Hlow Hp Hne|args Hp]; simpl.
  - unfold cmd_lottery. rewrite Hsub. run_M. rewrite Hl. done.
  - unfold cmd_lottery. rewrite Hsub. run_M. rewrite Hl.
    apply string_eqb_false in Hne. rewrite Hne. done.
  - unfold cmd_lottery. rewrite Hsub. run_M. rewrite Hl. done.
  - unfold cmd_lottery. rewrite Hsub. run_M. rewrite Hl.
    apply string_eqb_false in Hne. rewrite Hne. done.
  - unfold cmd_poll. run_M. rewrite Hlow, Hp. done.
  - unfold cmd_poll. run_M. rewrite Hlow, Hp. simpl.
    apply string_eqb_false in Hne. rewrite Hne. done.
  - unfold cmd_vote. run_M. rewrite Hp. done.
Qed.

End RejectionFacts.

Section RejectionExample.
Import reference.

(** C7 on [/lottery draw] in a room without a lottery. *)
Lemma command_rejected_locally_witness :
  let r := commands.handle_command (H := lib) oracle "/lottery draw" "room" "me"
             "srv" "key" "secret" false false empty_state [] in
  outbox_queue (state_of r) = [] /\ buf_of r = [system NoLotteryToDraw].
Proof.
  destruct (command_rejected_locally (H := lib) oracle "/lottery draw" "room" "me"
              "srv" "key" "secret" false false empty_state []
              "lottery" "draw" NoLotteryToDraw true eq_refl)
    as (_ & _ & Hqueue & Hbuf).
  - apply draw_without_lottery; reflexivity.
  - split; [exact Hqueue | exact Hbuf].
Defined.

End RejectionExample.

(** ** The roster and the command handler (commands.py) *)
Section RosterFacts.
Context `{PyLib} `{Host} `{Constants} `{Utils}.
Import commands.

(** A computation that leaves [room_participants] as it found it. *)
Definition keeps_roster {A} (m : M A) : Prop :=
  forall s b, room_participants (state_of (m s b)) = room_participants s.

Lemma keeps_ret {A} (a : A) : keeps_roster (ret a).
Proof. by intros s b. Qed.

Lemma keeps_raise {A} e : keeps_roster (raise (A := A) e).
Proof. by intros s b. Qed.

Lemma keeps_get : keeps_roster get.
Proof. by intros s b. Qed.

Lemma keeps_get_buf : keeps_roster get_buf.
Proof. by intros s b. Qed.

Lemma keeps_modify_buf g : keeps_roster (modify_buf g).
Proof. by intros s b. Qed.

Lemma keeps_lift {A} (r : result A) : keeps_roster (lift r).
Proof. by intros s b. Qed.

Lemma keeps_getitem {K V} `{Countable K} (d : gmap K V) k : keeps_roster (getitem d k).
Proof. intros s b. unfold getitem. by destruct (d !! k). Qed.

Lemma keeps_modify g :
  (forall s, room_participants (g s) = room_participants s) -> keeps_roster (modify g).
Proof. intros Hg s b. apply Hg. Qed.

Lemma keeps_bind {A B} (m : M A) (k : A -> M B) :
  keeps_roster m -> (forall a, keeps_roster (k a)) -> keeps_roster (bind m k).
Proof.
  intros Hm Hk s b. unfold bind. specialize (Hm s b).
  destruct (m s b) as [[[a|e] s'] b']; unfold state_of in *; simpl in *; [|done].
  rewrite <- Hm. apply (Hk a s' b').
Qed.

Lemma keeps_try_except {A} (m : M A) (h : exn -> M A) :
  keeps_roster m -> (forall e, keeps_roster (h e)) -> keeps_roster (try_except m h).
Proof.
  intros Hm Hh s b. unfold try_except. specialize (Hm s b).
  destruct (m s b) as [[[a|e] s'] b']; unfold state_of in *; simpl in *; [done|].
  rewrite <- Hm. apply (Hh e s' b').
Qed.

Lemma keeps_for_each {A} (l : list A) (body : A -> M unit) :
  (forall x, keeps_roster (body x)) -> keeps_roster (for_each l body).
Proof.
  intros Hbody. induction l as [|x l IH]; simpl; [apply keeps_ret|].
  by apply keeps_bind.
Qed.

(** Decomposes a computation along its structure. *)
Ltac keeps :=
  repeat first
    [ progress intros
    | apply keeps_ret | apply keeps_raise | apply keeps_get | apply keeps_get_buf
    | apply keeps_modify_buf | apply keeps_lift | apply keeps_getitem
    | apply keeps_bind | apply keeps_try_except | apply keeps_for_each
    | apply keeps_modify; intros; reflexivity
    | progress unfold say, trim_buf, enqueue_sys, append, lottery_help, copy2,
        file_transfer.assemble_file_from_chunks, file_transfer.open_wb,
        file_transfer.write_file, file_transfer.os_remove,
        file_transfer.enqueue_file_transfer
    | match goal with
      | |- keeps_roster (match ?x with _ => _ end) => destruct x
      end ].

Lemma keeps_clean_chat room nick server f args is_public :
  keeps_roster (cmd_clean_chat room nick server f args is_public).
Proof. unfold cmd_clean_chat. keeps. Qed.

Lemma keeps_help : keeps_roster cmd_help.
Proof. unfold cmd_help. keeps. Qed.

Lemma keeps_stats : keeps_roster cmd_stats.
Proof. unfold cmd_stats. keeps. Qed.

Lemma keeps_lottery o room nick server f args :
  keeps_roster (cmd_lottery o room nick server f args).
Proof. unfold cmd_lottery. keeps. Qed.

Lemma keeps_poll room nick server f args :
  keeps_roster (cmd_poll room nick server f args).
Proof. unfold cmd_poll. keeps. Qed.

Lemma keeps_vote room nick server f args :
  keeps_roster (cmd_vote room nick server f args).
Proof. unfold cmd_vote. keeps. Qed.

Lemma keeps_security o room is_public is_tor :
  keeps_roster (cmd_security o room is_public is_tor).
Proof. unfold cmd_security. keeps. Qed.

Lemma keeps_notifications : keeps_roster cmd_notifications.
Proof. unfold cmd_notifications. keeps. Qed.

Lemma keeps_files : keeps_roster cmd_files.
Proof. unfold cmd_files. keeps. Qed.

Lemma keeps_download room nick server f args :
  keeps_roster (cmd_download room nick server f args).
Proof. unfold cmd_download. keeps. Qed.

Lemma keeps_share o room nick server f args :
  keeps_roster (cmd_share o room nick server f args).
Proof. unfold cmd_share. keeps. Qed.

Lemma keeps_server o server : keeps_roster (cmd_server o server).
Proof. unfold cmd_server. keeps. Qed.

Lemma keeps_share_room o room server secret args is_public :
  keeps_roster (cmd_share_room o room server secret args is_public).
Proof. unfold cmd_share_room. keeps. Qed.

Lemma keeps_copy_link o : keeps_roster (cmd_copy_link o).
Proof. unfold cmd_copy_link. keeps. Qed.

Lemma who_updates_roster o nick s b :
  room_participants (state_of (cmd_who o nick s b))
    = <[nick := now o]> (room_participants s).
Proof.
  unfold cmd_who. unfold bind at 1. unfold modify at 1.
  match goal with
  | |- room_participants (state_of (?k ?s' b)) = _ =>
      assert (Hk : keeps_roster k) by keeps; by rewrite (Hk s' b)
  end.
Qed.

(** C2, as the code has it.  [/who] sets the roster entry of the local
    nick to the current clock reading and leaves the other entries
    alone; every other command, known or not, returning or raising,
    leaves the roster as it was. *)
Theorem roster_changed_only_by_who (o : Oracle) (line room nick server : str)
    (f : fernet) (secret : str) (is_public is_tor : bool) (s : State) (buf : Buf) :
  let r := handle_command o line room nick server f secret is_public is_tor s buf in
  room_participants (state_of r) =
    if String.eqb (parse_line line).1 "who"
    then <[nick := now o]> (room_participants s)
    else room_participants s.
Proof.
  intros r. subst r. unfold handle_command, parse_line.
  destruct (Py.partition " " (Py.slice_from line 1)) as [cmd args]. simpl.
  destruct (String.eqb cmd "exit") eqn:E1.
  { apply string_eqb_true in E1. by subst cmd. }
  destruct (String.eqb cmd "clear") eqn:E2.
  { apply string_eqb_true in E2. by subst cmd. }
  destruct (String.eqb cmd "clean-chat") eqn:E3.
  { apply string_eqb_true in E3. subst cmd. apply keeps_clean_chat. }
  destruct (String.eqb cmd "who") eqn:E4; [apply who_updates_roster|].
  repeat match goal with
         | |- context [if String.eqb cmd ?c then _ else _] => destruct (String.eqb cmd c)
         end;
    first [ apply keeps_help | apply keeps_stats | apply keeps_lottery | apply keeps_poll
          | apply keeps_vote | apply keeps_security | apply keeps_notifications
          | apply keeps_files | apply keeps_download | apply keeps_share
          | apply keeps_server | apply keeps_share_room | apply keeps_copy_link
          | done ].
Qed.

End RosterFacts.

(** C2 as stated fails: [/who] writes the roster.  The local nick is
    not in the roster before the command and is in it afterwards. *)
Lemma who_command_writes_roster :
  let r := commands.handle_command (H := reference.lib) (H0 := reference.host)
             (H1 := reference.constants) (H2 := reference.utils) reference.oracle
             "/who" "room" "me" "srv" "key" "secret" false false
             reference.empty_state [] in
  room_participants reference.empty_state !! "me" = None /\
  room_participants (state_of r) !! "me" = Some 1000%Q.
Proof. split; reflexivity. Qed.

(** ** Sending a file (file_transfer.py) *)
Section SendFacts.
Context `{PyLib} `{Host} `{Constants}.
Import file_transfer.

Lemma read_blocks_concat size fuel l :
  (0 < size)%nat -> (List.length l < fuel)%nat ->
  concat (read_blocks fuel size l) = l.
Proof.
  intros Hsize. revert l. induction fuel as [|fuel IH]; intros l Hfuel; [lia|].
  cbn [read_blocks]. destruct (take size l) as [|x block] eqn:Ht.
  - destruct l as [|y l]; [done|]. destruct size; [lia | done].
  - rewrite <- Ht. cbn [concat]. rewrite IH; [apply take_drop|].
    rewrite length_drop.
    assert (List.length l <> 0)%nat by (destruct l; [by rewrite take_nil in Ht | done]).
    lia.
Qed.

Lemma concat_of_chars (blocks : list (list ascii)) :
  String.concat "" (map Py.of_chars blocks) = Py.of_chars (concat blocks).
Proof.
  induction blocks as [|block blocks IH]; [done|].
  change (map Py.of_chars (block :: blocks))
    with (Py.of_chars block :: map Py.of_chars blocks).
  rewrite str_concat_cons, IH. cbn [concat]. by rewrite of_chars_app.
Qed.

(** The blocks read from a file make up its contents. *)
Lemma blocks_of_contents contents :
  (0 < CHUNK_SIZE)%nat -> String.concat "" (blocks_of contents) = contents.
Proof.
  intros Hsize. unfold blocks_of.
  rewrite concat_of_chars, read_blocks_concat by (done || lia).
  apply of_chars_chars.
Qed.

Lemma encrypt_blocks_chunks f_cipher file_id rnd k blocks chunks :
  encrypt_blocks f_cipher file_id rnd k blocks = Ok chunks ->
  List.length chunks = List.length blocks /\
  decrypts_to f_cipher chunks blocks /\
  forall i chunk, chunks !! i = Some chunk ->
    ck_file_id chunk = file_id /\ ck_chunk_num chunk = Z.of_nat (k + i).
Proof.
  revert k chunks. induction blocks as [|block blocks IH]; intros k chunks; simpl.
  - intros [= <-]. split; [done|]. split; [constructor | by intros i chunk [=]].
  - unfold decode.
    destruct (utf8_decode (fernet_encrypt f_cipher (rnd k) block)) as [token|] eqn:Ht;
      simpl; [|done].
    destruct (encrypt_blocks f_cipher file_id rnd (S k) blocks) as [rest|] eqn:Hrest;
      [|done].
    intros [= <-]. destruct (IH _ _ Hrest) as (Hlen & Hdec & Hnum).
    split; [simpl; by rewrite Hlen|]. split.
    + constructor; [|done]. simpl.
      by rewrite (utf8_encode_decode _ _ Ht), fernet_decrypt_encrypt.
    + intros [|i] chunk Hi; simpl in Hi.
      * injection Hi as <-. simpl. split; [done | f_equal; lia].
      * destruct (Hnum _ _ Hi) as [-> ->]. split; [done | f_equal; lia].
Qed.

(** What [split_file_to_chunks] hands over is a bundle in the sense of
    [bundle_ok]: its chunks decrypt to the blocks of the file, and the
    digest in the metadata is that of the blocks in order. *)
Lemma split_file_bundle uuid4 rnd filepath f_cipher s md chunks contents :
  fs s !! filepath = Some contents ->
  split_file_to_chunks uuid4 rnd filepath f_cipher s = (Some md, inl chunks) ->
  bundle_ok md chunks /\
  decrypts_to f_cipher chunks (blocks_of contents) /\
  md_hash md = sha256_hexdigest (String.concat "" (blocks_of contents)).
Proof.
  intros Hfile. unfold split_file_to_chunks. rewrite Hfile.
  destruct (MAX_FILE_SIZE <? Py.len contents); [done|].
  destruct (encrypt_blocks _ _ _ _ _) as [chunks'|] eqn:He; [|done].
  intros [= <- <-]. destruct (encrypt_blocks_chunks _ _ _ _ _ _ He) as (Hlen & Hdec & Hnum).
  split; [|done]. split; [done|]. intros i chunk Hi. by apply Hnum in Hi.
Qed.

(** From one end to the other: a file that the sender splits into at
    least one chunk, received in any order by a client that had no
    record of it, is assembled to the bytes the sender read. *)
Corollary transfer_roundtrip uuid4 rnd filepath f_cipher (sent : State) contents
    md chunks sender (s : State) (b : Buf) (order : list Arrival) :
  fs sent !! filepath = Some contents ->
  split_file_to_chunks uuid4 rnd filepath f_cipher sent = (Some md, inl chunks) ->
  (1 <= List.length chunks)%nat ->
  available_files s !! md_file_id md = None ->
  order ≡ₚ Meta md :: (Part <$> chunks) ->
  can_write (temp_path_of (md_file_id md) md) = true ->
  let r := deliver_all sender order s b in
  let a := assemble_file_from_chunks (md_file_id md) f_cipher (state_of r) (buf_of r) in
  outcome_of a = Ok (Some (temp_path_of (md_file_id md) md), None) /\
  fs (state_of a) !! temp_path_of (md_file_id md) md = Some contents.
Proof.
  intros Hfile Hsplit Hnonempty Hfresh Hperm Hwrite r a.
  destruct (split_file_bundle _ _ _ _ _ _ _ _ Hfile Hsplit) as (Hbundle & Hdec & Hhash).
  destruct (deliver_all_complete md chunks sender Hbundle Hnonempty order s b Hfresh Hperm)
    as (s1 & b1 & Hr & Hinfo & Hchunks & _).
  assert (Hsize : (0 < CHUNK_SIZE)%nat).
  { destruct CHUNK_SIZE eqn:E; [|lia]. exfalso.
    unfold split_file_to_chunks in Hsplit. rewrite Hfile in Hsplit.
    destruct (MAX_FILE_SIZE <? Py.len contents); [done|].
    unfold blocks_of in Hsplit. rewrite E in Hsplit. simpl in Hsplit.
    injection Hsplit as _ <-. simpl in Hnonempty. lia. }
  subst a r. rewrite Hr.
  change (state_of (Ok (), s1, b1)) with s1. change (buf_of (Ok (), s1, b1)) with b1.
  rewrite <- (blocks_of_contents contents Hsize) at 1.
  by apply (assemble_delivered md chunks sender).
Qed.

End SendFacts.

Section SendExample.
Import reference.

(** The reference file on the disk of the sender. *)
Definition sender_state : State := initial_state {["/home/a.txt" := "hello world!"]}.

(** The round trip on the reference file, the chunks arriving before
    the metadata. *)
Lemma transfer_roundtrip_witness :
  let r := deliver_all (H := lib) "bob" ((Part <$> demo_chunks) ++ [Meta demo_md])
             empty_state [] in
  let a := file_transfer.assemble_file_from_chunks (H := lib) "01234567" "key"
             (state_of r) (buf_of r) in
  fs (state_of a) !! "/tmp/enchat/01234567_a.txt" = Some "hello world!".
Proof.
  destruct (transfer_roundtrip (H := lib) "0123456789abcdef" (fun _ => tt) "/home/a.txt"
              "key" sender_state "hello world!" demo_md demo_chunks "bob" empty_state []
              ((Part <$> demo_chunks) ++ [Meta demo_md]))
    as [_ Hfile].
  - reflexivity.
  - vm_compute. reflexivity.
  - simpl. lia.
  - reflexivity.
  - symmetry. apply (Permutation_cons_append (Part <$> demo_chunks) (Meta demo_md)).
  - reflexivity.
  - exact Hfile.
Defined.

End SendExample.


(** ** The records of the receiver (file_transfer.py) *)
Section TransferRecords.
Context `{PyLib} `{Host} `{Constants}.
Import file_transfer.

(** What the listener hands over, with the nick it came from. *)
Definition receive_one (x : str * Arrival) : M unit := deliver x.1 x.2.

Fixpoint receive (arrivals : list (str * Arrival)) : M unit :=
  match arrivals with
  | [] => ret tt
  | x :: rest => receive_one x ;;; receive rest
  end.

(** The file an arrival belongs to. *)
Definition file_id_of (a : Arrival) : str :=
  match a with
  | Meta md => md_file_id md
  | Part chunk => ck_file_id chunk
  end.















(** The parts of the state the receiving handlers have no business with. *)
Definition same_elsewhere (s s' : State) : Prop :=
  outbox_queue s' = outbox_queue s /\ fs s' = fs s /\
  room_participants s' = room_participants s /\
  notifications_enabled s' = notifications_enabled s /\
  tor_ip s' = tor_ip s /\ lottery_state s' = lottery_state s /\
  poll_state s' = poll_state s /\ last_generated_link s' = last_generated_link s /\
  active_sessions s' = active_sessions s.

(** The record and the chunks of one file are as they were. *)
Definition same_file (file_id : str) (s s' : State) : Prop :=
  available_files s' !! file_id = available_files s !! file_id /\
  file_chunks s' !! file_id = file_chunks s !! file_id.

Lemma same_elsewhere_refl s : same_elsewhere s s.
Proof. by repeat split. Qed.

Lemma same_elsewhere_trans s1 s2 s3 :
  same_elsewhere s1 s2 -> same_elsewhere s2 s3 -> same_elsewhere s1 s3.
Proof. unfold same_elsewhere. intuition congruence. Qed.

Lemma same_file_trans file_id s1 s2 s3 :
  same_file file_id s1 s2 -> same_file file_id s2 s3 -> same_file file_id s1 s3.
Proof. unfold same_file. intuition congruence. Qed.

Lemma ensure_created_frame file_id sender s :
  same_elsewhere s (ensure_created file_id sender s) /\
  forall j, j <> file_id -> same_file j s (ensure_created file_id sender s).
Proof.
  unfold ensure_created. destruct (decide _); [by split; [apply same_elsewhere_refl|]|].
  split; [by repeat split|]. intros j Hne. split; simpl; by rewrite lookup_insert_ne.
Qed.

Lemma check_completion_frame file_id s b :
  let s' := state_of (_check_file_completion file_id s b) in
  same_elsewhere s s' /\ file_chunks s' = file_chunks s /\
  forall j, j <> file_id -> available_files s' !! j = available_files s !! j.
Proof.
  rewrite check_completion_eq.
  destruct (available_files s !! file_id) as [info|];
    [|by split; [apply same_elsewhere_refl|]].
  destruct (metadata info); [|by split; [apply same_elsewhere_refl|]].
  destruct (complete info); [by split; [apply same_elsewhere_refl|]|].
  destruct (_ && _); [|by split; [apply same_elsewhere_refl|]].
  split; [by repeat split|]. split; [done|].
  intros j Hne. simpl. by rewrite lookup_alter_ne.
Qed.

Lemma receive_one_frame x s b :
  let s' := state_of (receive_one x s b) in
  same_elsewhere s s' /\ forall j, j <> file_id_of x.2 -> same_file j s s'.
Proof.
  destruct x as [sender [md|chunk]]; unfold receive_one; simpl.
  - rewrite handle_file_metadata_eq. simpl.
    destruct (ensure_created_frame (md_file_id md) sender s) as [He Hf].
    set (s0 := ensure_created (md_file_id md) sender s) in *.
    match goal with |- context [_check_file_completion ?i ?t ?c] =>
      destruct (check_completion_frame i t c) as (Hce & Hcc & Hca) end.
    split.
    + eapply same_elsewhere_trans; [exact He|].
      eapply same_elsewhere_trans; [|exact Hce]. by repeat split.
    + intros j Hne. eapply same_file_trans; [by apply Hf|]. split.
      * rewrite Hca by done. simpl. by rewrite lookup_alter_ne.
      * by rewrite Hcc.
  - rewrite handle_file_chunk_eq. simpl.
    destruct (ensure_created_frame (ck_file_id chunk) sender s) as [He Hf].
    set (s0 := ensure_created (ck_file_id chunk) sender s) in *.
    destruct (available_files s0 !! ck_file_id chunk) as [info|]; [|by split].
    destruct (complete info); [by split|].
    destruct (file_chunks s0 !! ck_file_id chunk) as [chunks|]; [|by split].
    match goal with |- context [_check_file_completion ?i ?t ?c] =>
      destruct (check_completion_frame i t c) as (Hce & Hcc & Hca) end.
    destruct (decide (ck_chunk_num chunk ∈ dom chunks)).
    + split; [by eapply same_elsewhere_trans|].
      intros j Hne. eapply same_file_trans; [by apply Hf|]. split.
      * by rewrite Hca.
      * by rewrite Hcc.
    + split.
      * eapply same_elsewhere_trans; [exact He|].
        eapply same_elsewhere_trans; [|exact Hce]. by repeat split.
      * intros j Hne. eapply same_file_trans; [by apply Hf|]. split.
        -- rewrite Hca by done. unfold after_store. simpl. by rewrite lookup_alter_ne.
        -- rewrite Hcc. unfold after_store. simpl. by rewrite lookup_insert_ne.
Qed.

Lemma receive_cons x rest s b :
  receive (x :: rest) s b =
    match receive_one x s b with
    | (Ok _, s1, b1) => receive rest s1 b1
    | (Raised e, s1, b1) => (Raised e, s1, b1)
    end.
Proof. done. Qed.

(** The receiving handlers work on the records and the chunk stores
    only: they enqueue nothing, write no file and leave the roster, the
    lotteries, the polls and the session keys alone; and the record and
    the chunks of a file that none of the arrivals names stay as they
    are. *)
Theorem receiving_touches_only_its_files (arrivals : list (str * Arrival))
    (s : State) (b : Buf) :
  let s' := state_of (receive arrivals s b) in
  (outbox_queue s' = outbox_queue s /\ fs s' = fs s /\
   room_participants s' = room_participants s /\
   notifications_enabled s' = notifications_enabled s /\
   tor_ip s' = tor_ip s /\ lottery_state s' = lottery_state s /\
   poll_state s' = poll_state s /\ last_generated_link s' = last_generated_link s /\
   active_sessions s' = active_sessions s) /\
  forall file_id, file_id ∉ (file_id_of ∘ snd) <$> arrivals ->
    available_files s' !! file_id = available_files s !! file_id /\
    file_chunks s' !! file_id = file_chunks s !! file_id.
Proof.
  change (let s' := state_of (receive arrivals s b) in
          same_elsewhere s s' /\
          forall file_id, file_id ∉ (file_id_of ∘ snd) <$> arrivals -> same_file file_id s s').
  revert s b. induction arrivals as [|x rest IH]; intros s b; simpl.
  - split; [apply same_elsewhere_refl|]. by split.
  - change (bind (receive_one x) (fun _ => receive rest) s b)
      with (receive (x :: rest) s b).
    rewrite receive_cons.
    destruct (receive_one_frame x s b) as [He Hf].
    destruct (receive_one x s b) as [[[[]|e] s1] b1]; simpl in He, Hf.
    + destruct (IH s1 b1) as [He' Hf']. split; [by eapply same_elsewhere_trans|].
      intros j Hj. apply not_elem_of_cons in Hj as [Hne Hj].
      eapply same_file_trans; [by apply Hf|]. by apply Hf'.
    + split; [done|]. intros j Hj. apply not_elem_of_cons in Hj as [Hne Hj].
      by apply Hf.
Qed.

(** One arrival leaves a complete record complete. *)
Lemma receive_one_complete x file_id info s b :
  available_files s !! file_id = Some info -> complete info = true ->
  let s' := state_of (receive_one x s b) in
  (exists info', available_files s' !! file_id = Some info' /\ complete info' = true /\
     chunks_received info' = chunks_received info /\ sender info' = sender info) /\
  file_chunks s' !! file_id = file_chunks s !! file_id.
Proof.
  intros Hinfo Hcomplete.
  destruct (decide (file_id = file_id_of x.2)) as [->|Hne].
  - destruct x as [from [md|chunk]]; unfold receive_one; simpl in *.
    + rewrite handle_file_metadata_eq. simpl.
      rewrite ensure_created_id by eauto.
      rewrite check_completion_eq. simpl. rewrite lookup_alter_eq, Hinfo. simpl.
      rewrite Hcomplete. simpl. rewrite lookup_alter_eq, Hinfo. simpl.
      split; [|done]. by eexists.
    + rewrite handle_file_chunk_eq. simpl.
      rewrite ensure_created_id by eauto. rewrite Hinfo, Hcomplete. simpl.
      split; [|done]. by eexists.
  - destruct (receive_one_frame x s b) as [_ Hf].
    destruct (Hf _ Hne) as [Ha Hc]. simpl. rewrite Ha, Hc. split; [|done]. by eexists.
Qed.

(** Once a record is marked complete, no later arrival unmarks it,
    adds to its chunks or replaces one, or changes the count and the
    sender it shows. *)
Theorem complete_record_is_final (file_id : str) (info : FileInfo)
    (arrivals : list (str * Arrival)) (s : State) (b : Buf) :
  available_files s !! file_id = Some info -> complete info = true ->
  let s' := state_of (receive arrivals s b) in
  (exists info', available_files s' !! file_id = Some info' /\ complete info' = true /\
     chunks_received info' = chunks_received info /\ sender info' = sender info) /\
  file_chunks s' !! file_id = file_chunks s !! file_id.
Proof.
  revert info s b. induction arrivals as [|x rest IH]; intros info s b Hinfo Hcomplete.
  - simpl. split; [|done]. by eexists.
  - cbv zeta. rewrite receive_cons.
    destruct (receive_one_complete x _ _ s b Hinfo Hcomplete)
      as [(info1 & Hinfo1 & Hc1 & Hn1 & Hs1) Hch1].
    destruct (receive_one x s b) as [[[[]|e] s1] b1];
      unfold state_of in Hinfo1, Hch1; simpl in Hinfo1, Hch1.
    + destruct (IH info1 s1 b1 Hinfo1 Hc1) as [(info2 & Hinfo2 & Hc2 & Hn2 & Hs2) Hch2].
      split; [|congruence]. exists info2. repeat split; congruence.
    + split; [|done]. by exists info1.
Qed.




End TransferRecords.

Section TransferRecordsExample.
Import reference.

(** A chunk and the metadata arriving late for the reference transfer,
    which is complete. *)
Lemma complete_record_is_final_witness :
  let s' := state_of (receive (H := lib)
                        [("eve", Part (demo_chunk 7 "late")); ("eve", Meta demo_md)]
                        received []) in
  complete <$> available_files s' !! "01234567" = Some true /\
  file_chunks s' !! "01234567" = file_chunks received !! "01234567".
Proof.
  destruct (complete_record_is_final (H := lib) "01234567"
              {| metadata := Some demo_md; sender := "bob"; chunks_received := 3;
                 total_chunks := 3; complete := true |}
              [("eve", Part (demo_chunk 7 "late")); ("eve", Meta demo_md)] received [])
    as [(info' & Hinfo' & Hcomplete & _) Hchunks].
  - vm_compute. reflexivity.
  - reflexivity.
  - split; [|exact Hchunks]. cbv zeta. rewrite Hinfo'. simpl. by rewrite Hcomplete.
Defined.

End TransferRecordsExample.


(** ** Splitting a file (file_transfer.py) *)
Section SplitFileFacts.
Context `{PyLib} `{Host} `{Constants}.
Import file_transfer.






End SplitFileFacts.

Section SplitFileExample.
Import reference.


End SplitFileExample.

(** ** What assembly does to the state (file_transfer.py) *)
Section AssemblySafety.
Context `{PyLib} `{Host} `{Constants}.
Import file_transfer.






End AssemblySafety.


(** ** Decimal numerals: [str(n)] and [int(s)] *)
Section Numerals.

Lemma chars_String c s : Py.chars (String c s) = c :: Py.chars s.
Proof. done. Qed.

Lemma pretty_N_char_digit x :
  (x < 10)%N -> Py.digit_of (pretty_N_char x) = Some (Z.of_N x).
Proof.
  intros Hx.
  assert (x = 0 \/ x = 1 \/ x = 2 \/ x = 3 \/ x = 4 \/ x = 5 \/ x = 6 \/ x = 7
          \/ x = 8 \/ x = 9)%N as Hcases by lia.
  repeat (destruct Hcases as [->|Hcases]; [reflexivity|]). by subst.
Qed.

(** The characters [pretty_N_go] puts in front of [s] are digits. *)
Lemma pretty_N_go_digits x s :
  exists ds, Py.chars (pretty_N_go x s) = ds ++ Py.chars s /\
    Forall (fun c => is_Some (Py.digit_of c)) ds /\ ((0 < x)%N -> ds <> []).
Proof.
  revert s. induction (N.lt_wf_0 x) as [x _ IH]; intros s.
  assert (x = 0 \/ 0 < x)%N as [->|Hpos] by lia.
  - exists []. rewrite pretty_N_go_0. split; [done|]. split; [constructor | lia].
  - rewrite pretty_N_go_step by done.
    destruct (IH (x `div` 10)%N (N.div_lt x 10 Hpos eq_refl)
                (String (pretty_N_char (x `mod` 10)) s)) as (ds & -> & Hds & _).
    exists (ds ++ [pretty_N_char (x `mod` 10)]). rewrite chars_String, <- app_assoc.
    split; [done|]. split.
    + apply Forall_app. split; [done|]. constructor; [|constructor].
      rewrite pretty_N_char_digit by (by apply N.mod_lt). by eexists.
    + intros _. by destruct ds.
Qed.

(** Reading the digits [pretty_N_go] wrote gives the number back. *)
Lemma int_digits_pretty_N_go x :
  (0 < x)%N -> forall s acc after_digit,
  exists k, Py.int_digits acc after_digit (Py.chars (pretty_N_go x s))
            = Py.int_digits (acc * 10 ^ k + Z.of_N x) true (Py.chars s) /\ 0 <= k.
Proof.
  induction (N.lt_wf_0 x) as [x _ IH]. intros Hpos s acc after_digit.
  rewrite pretty_N_go_step by done.
  assert (Hd : Py.digit_of (pretty_N_char (x `mod` 10)) = Some (Z.of_N (x `mod` 10)))
    by (apply pretty_N_char_digit; by apply N.mod_lt).
  assert (Hx : Z.of_N x = 10 * Z.of_N (x `div` 10) + Z.of_N (x `mod` 10)).
  { change 10 with (Z.of_N 10). rewrite <- N2Z.inj_mul, <- N2Z.inj_add. f_equal.
    by apply N.div_mod. }
  destruct (N.eq_0_gt_0_cases (x `div` 10)%N) as [Hz|Hq].
  - rewrite Hz, pretty_N_go_0, chars_String. cbn [Py.int_digits]. rewrite Hd.
    exists 1. split; [|lia]. f_equal. rewrite Hx, Hz. simpl Z.of_N. lia.
  - destruct (IH (x `div` 10)%N (N.div_lt x 10 Hpos eq_refl) Hq
                (String (pretty_N_char (x `mod` 10)) s) acc after_digit)
      as (k & -> & Hk).
    rewrite chars_String. cbn [Py.int_digits]. rewrite Hd.
    exists (k + 1). split; [|lia]. f_equal.
    rewrite Z.pow_add_r by lia. rewrite Hx. lia.
Qed.

Lemma drop_while_head (p : ascii -> bool) l :
  match l with [] => True | c :: _ => p c = false end -> Py.drop_while p l = l.
Proof. destruct l as [|c l]; [done|]. simpl. by intros ->. Qed.

(** [strip] leaves a text alone that has no white space at its ends. *)
Lemma strip_with_none (p : ascii -> bool) s :
  Forall (fun c => p c = false) (Py.chars s) -> Py.strip_with p s = s.
Proof.
  intros Hall. unfold Py.strip_with.
  rewrite (drop_while_head p (Py.chars s)) by (by destruct Hall).
  rewrite (drop_while_head p (rev (Py.chars s))).
  - by rewrite rev_involutive, of_chars_chars.
  - apply Forall_rev in Hall. by destruct Hall.
Qed.

Lemma digit_not_space c : is_Some (Py.digit_of c) -> Py.isspace c = false.
Proof.
  unfold Py.digit_of, Py.isspace. intros [d Hd].
  destruct (_ && _)%nat eqn:E in Hd; [|done].
  apply andb_prop in E as [E1 E2]. apply Nat.leb_le in E1, E2.
  rewrite (proj2 (Nat.leb_gt (nat_of_ascii c) 13)) by lia.
  rewrite (proj2 (Nat.leb_gt (nat_of_ascii c) 32)) by lia.
  rewrite (proj2 (Nat.eqb_neq (nat_of_ascii c) 133)) by lia.
  rewrite (proj2 (Nat.eqb_neq (nat_of_ascii c) 160)) by lia.
  by rewrite !andb_false_r.
Qed.

Lemma digit_not_sign c :
  is_Some (Py.digit_of c) -> Py.ascii_eqb c "-" = false /\ Py.ascii_eqb c "+" = false.
Proof.
  intros [d Hd]. split; apply ascii_eqb_false; intros ->; by vm_compute in Hd.
Qed.

(** [int] of a text made of digits reads them from the left. *)
Lemma int_of_digits s :
  Forall (fun c => is_Some (Py.digit_of c)) (Py.chars s) ->
  Py.int s = Py.int_digits 0 false (Py.chars s).
Proof.
  intros Hall. unfold Py.int, Py.strip.
  rewrite strip_with_none
    by (eapply Forall_impl; [exact Hall | intros c; apply digit_not_space]).
  destruct (Py.chars s) as [|c l]; [done|].
  apply Forall_cons in Hall as [Hc _]. by destruct (digit_not_sign c Hc) as [-> ->].
Qed.

(** [int(str(n)) == n] for a natural number. *)
Lemma int_pretty_N (n : N) : Py.int (pretty n) = Some (Z.of_N n).
Proof.
  unfold pretty, pretty_N. destruct (decide (n = 0)%N) as [->|Hn]; [done|].
  destruct (pretty_N_go_digits n "") as (ds & Hchars & Hds & _).
  rewrite int_of_digits by (rewrite Hchars, app_nil_r; exact Hds).
  destruct (int_digits_pretty_N_go n ltac:(lia) "" 0 false) as (k & -> & _).
  simpl. f_equal; lia.
Qed.

Lemma int_pretty_nat (n : nat) : Py.int (pretty n) = Some (Z.of_nat n).
Proof.
  unfold pretty, pretty_nat. rewrite int_pretty_N. f_equal. lia.
Qed.

Lemma pretty_N_chars (n : N) :
  Py.chars (pretty n) <> [] /\ Forall (fun c => is_Some (Py.digit_of c)) (Py.chars (pretty n)).
Proof.
  unfold pretty, pretty_N. destruct (decide (n = 0)%N) as [->|Hn].
  - split; [done|]. constructor; [by eexists | constructor].
  - destruct (pretty_N_go_digits n "") as (ds & -> & Hds & Hne).
    rewrite app_nil_r. split; [apply Hne; lia | done].
Qed.

(** [int(str(z)) == z] for an integer, the sign included. *)
Lemma int_pretty_Z (z : Z) : Py.int (pretty z) = Some z.
Proof.
  destruct z as [|p|p].
  - done.
  - change (pretty (Z.pos p)) with (pretty (N.pos p)). by rewrite int_pretty_N.
  - change (pretty (Z.neg p)) with ("-" +:+ pretty (N.pos p)).
    destruct (pretty_N_chars (N.pos p)) as [Hne Hds].
    unfold Py.int, Py.strip. rewrite strip_with_none.
    + change (Py.chars ("-" +:+ pretty (N.pos p)))
        with ("-"%char :: Py.chars (pretty (N.pos p))).
      change (Py.ascii_eqb "-" "-") with true. cbv iota.
      pose proof (int_pretty_N (N.pos p)) as Hint.
      rewrite int_of_digits in Hint by done. by rewrite Hint.
    + change (Py.chars ("-" +:+ pretty (N.pos p)))
        with ("-"%char :: Py.chars (pretty (N.pos p))).
      constructor; [done|].
      eapply Forall_impl; [exact Hds | intros c; apply digit_not_space].
Qed.

End Numerals.

(** ** Where a download is saved (file_transfer.py, commands.py) *)
Section DownloadPath.
Context `{PyLib} `{Host} `{Constants}.
Import file_transfer commands.



Lemma basename_plain x : "/"%char ∉ Py.chars x -> Py.basename x = x.
Proof.
  intros Hx. unfold Py.basename, Py.rfind.
  by rewrite (proj2 (rfind_from_None "/" 0 (Py.chars x)) Hx).
Qed.






(** A name that is safe already passes through [sanitize_filename]
    unchanged, whatever the fallback id. *)
Theorem sanitize_filename_keeps_safe_names (name fallback_id : str) :
  safe_name name -> name <> "" -> sanitize_filename name fallback_id = name.
Proof.
  intros (Hsep & Hdot & Hdots & Hstart & Hsafe & Hlen) Hne.
  unfold sanitize_filename.
  rewrite (proj2 (string_eqb_false name "")) by done.
  rewrite basename_plain by done.
  rewrite (proj2 (string_eqb_false name "")) by done.
  rewrite (proj2 (string_eqb_false name ".")) by done.
  rewrite (proj2 (string_eqb_false name "..")) by done.
  rewrite Hstart. simpl.
  assert (Hsub : Py.re_sub_class unsafe_char "_" name = name).
  { unfold Py.re_sub_class. rewrite <- (of_chars_chars name) at 2. f_equal.
    rewrite <- (map_id (Py.chars name)) at 2. apply map_ext_in. intros c Hc.
    by rewrite (Hsafe c) by (by apply list_elem_of_In). }
  rewrite Hsub. rewrite (proj2 (Z.ltb_ge 255 (Py.len name))) by done.
  by rewrite (proj2 (string_eqb_false name "")).
Qed.

End DownloadPath.

Section SanitizeIdentityExample.

Lemma notes_txt_safe : safe_name "notes.txt".
Proof.
  apply safe_name_intro; [by_evaluation | done | | done].
  intros c Hc. change (Py.chars "notes.txt") with (list_ascii_of_string "notes.txt") in Hc.
  simpl in Hc. repeat (apply elem_of_cons in Hc as [->|Hc]; [reflexivity|]).
  by apply elem_of_nil in Hc.
Qed.

Lemma sanitize_filename_keeps_safe_names_witness :
  file_transfer.sanitize_filename "notes.txt" "01234567" = "notes.txt".
Proof.
  apply sanitize_filename_keeps_safe_names; [exact notes_txt_safe | done].
Defined.

End SanitizeIdentityExample.

(** ** The free name chosen for a download (commands.py) *)
Section FreeName.
Context `{PyLib} `{Host} `{Constants}.
Import file_transfer commands.









Section OneName.
Variable filename : str.
Hypothesis Hsafe : safe_name filename.
Hypothesis Hne : filename <> "".





End OneName.


End FreeName.

Section FreeNameExample.
Import reference.


End FreeNameExample.

(** ** What a command may do to the shared state (commands.py) *)
Section CommandEffects.
Context `{PyLib} `{Host} `{Constants} `{Utils}.
Import commands.

(** [G] says which items may be put on the outbox queue, and [s0] is
    the state in which the command starts. *)
Variable G : OutItem -> Prop.
Variable s0 : State.

(** The state every participant must agree on, and the records of the
    transfers, are as at the start. *)
Definition agreed (s : State) : Prop :=
  lottery_state s = lottery_state s0 /\ poll_state s = poll_state s0 /\
  available_files s = available_files s0 /\ file_chunks s = file_chunks s0 /\
  active_sessions s = active_sessions s0 /\ tor_ip s = tor_ip s0.

(** Run from [s] and [b], the computation keeps that state and appends
    at most [n] items to the queue, each allowed by [G]. *)
Definition runs {A} (n : nat) (m : M A) (s : State) (b : Buf) : Prop :=
  agreed (state_of (m s b)) /\
  exists l, outbox_queue (state_of (m s b)) = outbox_queue s ++ l /\
    (List.length l <= n)%nat /\ Forall G l.

(** A state update that touches neither that state nor the queue. *)
Definition quiet (g : State -> State) : Prop :=
  forall s, lottery_state (g s) = lottery_state s /\ poll_state (g s) = poll_state s /\
    available_files (g s) = available_files s /\ file_chunks (g s) = file_chunks s /\
    active_sessions (g s) = active_sessions s /\ tor_ip (g s) = tor_ip s /\
    outbox_queue (g s) = outbox_queue s.

Lemma runs_same {A} n (m : M A) s b :
  agreed s -> state_of (m s b) = s -> runs n m s b.
Proof.
  intros Hs Heq. unfold runs. rewrite Heq. split; [done|].
  exists []. rewrite app_nil_r. split; [done|]. split; [simpl; lia | constructor].
Qed.

Lemma runs_ret {A} n (a : A) s b : agreed s -> runs n (ret a) s b.
Proof. intros Hs. by apply runs_same. Qed.

Lemma runs_raise {A} n e s b : agreed s -> runs n (raise (A := A) e) s b.
Proof. intros Hs. by apply runs_same. Qed.

Lemma runs_get_buf n s b : agreed s -> runs n get_buf s b.
Proof. intros Hs. by apply runs_same. Qed.

Lemma runs_modify_buf n g s b : agreed s -> runs n (modify_buf g) s b.
Proof. intros Hs. by apply runs_same. Qed.

Lemma runs_lift {A} n (r : result A) s b : agreed s -> runs n (lift r) s b.
Proof. intros Hs. by apply runs_same. Qed.

Lemma runs_getitem {K V} `{Countable K} n (d : gmap K V) k s b :
  agreed s -> runs n (getitem d k) s b.
Proof. intros Hs. apply runs_same; [done|]. unfold getitem. by destruct (d !! k). Qed.

Lemma runs_modify n g s b : quiet g -> agreed s -> runs n (modify g) s b.
Proof.
  intros Hg (H1' & H2' & H3' & H4' & H5' & H6').
  destruct (Hg s) as (G1 & G2 & G3 & G4 & G5 & G6 & G7).
  unfold runs, modify, state_of. simpl. split.
  - unfold agreed. repeat split; congruence.
  - exists []. rewrite app_nil_r. split; [done|]. split; [simpl; lia | constructor].
Qed.

(** Putting one allowed item on the queue. *)
Lemma runs_put n item s b :
  G item -> agreed s ->
  runs (S n) (modify (fun s => set_outbox_queue (outbox_queue s ++ [item]) s)) s b.
Proof.
  intros Hitem Hs. unfold runs, modify, state_of. simpl. split; [done|].
  exists [item]. split; [done|]. split; [simpl; lia | by constructor].
Qed.

Lemma runs_weaken {A} n n' (m : M A) s b :
  (n <= n')%nat -> runs n m s b -> runs n' m s b.
Proof.
  intros Hle (Hs & l & Hl & Hlen & HG). split; [done|].
  exists l. split; [done|]. split; [lia | done].
Qed.

Lemma runs_bind {A B} n1 n2 (m : M A) (k : A -> M B) s b :
  runs n1 m s b ->
  (forall a s' b', agreed s' -> runs n2 (k a) s' b') ->
  runs (n1 + n2) (bind m k) s b.
Proof.
  intros (Hs & l & Hl & Hlen & HG) Hk. unfold runs, bind.
  destruct (m s b) as [[[a|e] s'] b']; unfold state_of in *; simpl in *.
  - destruct (Hk a s' b' Hs) as (Hs2 & l2 & Hl2 & Hlen2 & HG2).
    unfold state_of in *. split; [done|].
    exists (l ++ l2). rewrite Hl2, Hl, <- app_assoc. split; [done|].
    split; [rewrite length_app; lia | by apply Forall_app].
  - split; [done|]. exists l. split; [done|]. split; [lia | done].
Qed.

(** The two ways a sequence uses its allowance. *)
Lemma runs_then {A B} n (m : M A) (k : A -> M B) s b :
  runs 0 m s b ->
  (forall a s' b', agreed s' -> runs n (k a) s' b') ->
  runs n (bind m k) s b.
Proof. intros Hm Hk. by apply (runs_bind 0 n). Qed.

Lemma runs_first {A B} n (m : M A) (k : A -> M B) s b :
  runs n m s b ->
  (forall a s' b', agreed s' -> runs 0 (k a) s' b') ->
  runs n (bind m k) s b.
Proof.
  intros Hm Hk. rewrite <- (Nat.add_0_r n). by apply runs_bind.
Qed.

(** Reading the state first: the rest runs in the state that was read. *)
Lemma runs_get {A} n (k : State -> M A) s b :
  runs n (k s) s b -> runs n (bind get k) s b.
Proof. done. Qed.

Lemma runs_try_except {A} n (m : M A) (h : exn -> M A) s b :
  runs n m s b ->
  (forall e s' b', agreed s' -> runs 0 (h e) s' b') ->
  runs n (try_except m h) s b.
Proof.
  intros (Hs & l & Hl & Hlen & HG) Hh. unfold runs, try_except.
  destruct (m s b) as [[[a|e] s'] b']; unfold state_of in *; simpl in *.
  - split; [done|]. by exists l.
  - destruct (Hh e s' b' Hs) as (Hs2 & l2 & Hl2 & Hlen2 & HG2).
    unfold state_of in *. split; [done|].
    exists (l ++ l2). rewrite Hl2, Hl, <- app_assoc. split; [done|].
    split; [rewrite length_app; lia | by apply Forall_app].
Qed.

Lemma runs_for_each {A} (l : list A) (body : A -> M unit) s b :
  (forall x s' b', agreed s' -> runs 0 (body x) s' b') ->
  agreed s -> runs 0 (for_each l body) s b.
Proof.
  intros Hbody. revert s b. induction l as [|x l IH]; intros s b Hs; simpl.
  - by apply runs_ret.
  - apply runs_then; [by apply Hbody|]. intros _ s' b' Hs'. by apply IH.
Qed.

End CommandEffects.

(** Decomposes a computation that puts nothing on the queue. *)
Ltac runs_quietly :=
  repeat first
    [ progress intros
    | assumption
    | apply runs_ret | apply runs_raise | apply runs_get_buf | apply runs_modify_buf
    | apply runs_lift | apply runs_getitem
    | match goal with |- runs _ _ _ (bind get _) _ _ => apply runs_get; cbv beta end
    | apply runs_then | apply runs_try_except | apply runs_for_each
    | apply runs_modify; [intros ?; repeat split; reflexivity|]
    | progress unfold commands.say, commands.trim_buf, append, commands.lottery_help,
        commands.copy2, file_transfer.assemble_file_from_chunks, file_transfer.open_wb,
        file_transfer.write_file, file_transfer.os_remove
    | match goal with
      | |- runs _ _ _ (match ?x with _ => _ end) _ _ => destruct x
      | |- runs _ _ _ (let '(_, _) := ?x in _) _ _ => destruct x
      end ].

(** ** What the command handler enqueues (commands.py) *)
Section CommandIntents.
Context `{PyLib} `{Host} `{Constants} `{Utils}.
Import commands.

Variables (o : Oracle) (room nick server : str) (f : fernet) (args : str)
  (is_public : bool).
Variable s0 : State.

(** The local checks a system message has passed when it is enqueued,
    in terms of the state the command started in. *)
Definition allowed_sys (what : SysMsg) : Prop :=
  match what with
  | ROOM_CLEANUP =>
      is_public = false /\
      ((size (room_participants s0) <= 1)%nat \/ Py.strip args = "confirm")
  | LOTTERY_START => lottery_state s0 !! room = None
  | LOTTERY_ENTER =>
      exists l, lottery_state s0 !! room = Some l /\ nick ∉ lottery_participants l
  | LOTTERY_WINNER winner =>
      exists l, lottery_state s0 !! room = Some l /\ lottery_starter l = nick /\
        winner ∈ lottery_participants l
  | LOTTERY_CANCEL =>
      exists l, lottery_state s0 !! room = Some l /\ lottery_starter l = nick
  | POLL_START question options =>
      poll_state s0 !! room = None /\ (2 <= List.length options <= 10)%nat
  | POLL_VOTE index =>
      exists p, poll_state s0 !! room = Some p /\
        0 <= index < Z.of_nat (List.length (poll_options p))
  | POLL_CLOSE =>
      exists p, poll_state s0 !! room = Some p /\ poll_starter p = nick
  | FILE_DOWNLOAD file_id =>
      exists info, available_files s0 !! file_id = Some info /\ complete info = true
  end.

(** The items the handler may enqueue: a system message of the caller
    that passed its check, or the bundle of a file that is on disk. *)
Definition allowed (item : OutItem) : Prop :=
  match item with
  | SYS room' nick' what server' f' =>
      room' = room /\ nick' = nick /\ server' = server /\ f' = f /\ allowed_sys what
  | FILE_TRANSFER room' nick' md chunks server' f' =>
      room' = room /\ nick' = nick /\ server' = server /\ f' = f /\
      exists filepath,
        is_Some (fs s0 !! filepath) /\
        file_transfer.split_file_to_chunks (uuid4 o) (chunk_entropy o) filepath f s0
          = (Some md, inl chunks)
  end.

Lemma agreed_start : agreed s0 s0.
Proof. by repeat split. Qed.

Local Abbreviation does n m := (forall b, runs allowed s0 n m s0 b).

(** An allowed system message is put on the queue. *)
Lemma runs_enqueue_sys what s b :
  allowed_sys what -> agreed s0 s ->
  runs allowed s0 1 (enqueue_sys room nick what server f) s b.
Proof. intros Hw Hs. unfold enqueue_sys. by apply runs_put. Qed.

Lemma does_clean_chat : does 1 (cmd_clean_chat room nick server f args is_public).
Proof.
  intros b. pose proof agreed_start. unfold cmd_clean_chat.
  destruct is_public eqn:Hpublic; [runs_quietly|].
  apply runs_get. cbv zeta. apply runs_then; [runs_quietly|]. intros _ s b' Hs.
  destruct (_ && _) eqn:Hmany; [runs_quietly|].
  apply runs_first; [|runs_quietly]. apply runs_enqueue_sys; [|done].
  split; [done|]. apply andb_false_iff in Hmany as [Hmany|Hconfirm].
  - left. apply Nat.ltb_ge in Hmany. lia.
  - right. apply negb_false_iff in Hconfirm. by apply string_eqb_true.
Qed.

Lemma does_lottery : does 1 (cmd_lottery o room nick server f args).
Proof.
  intros b. pose proof agreed_start. unfold cmd_lottery.
  apply runs_get. cbv zeta. apply runs_first; [|runs_quietly].
  destruct (String.eqb (sub_cmd_of args) "start").
  { destruct (lottery_state s0 !! room) eqn:Hl; [runs_quietly|].
    by apply runs_enqueue_sys. }
  destruct (String.eqb (sub_cmd_of args) "enter").
  { destruct (lottery_state s0 !! room) as [l|] eqn:Hl; [|runs_quietly].
    destruct (decide (nick ∈ lottery_participants l)); [runs_quietly|].
    apply runs_enqueue_sys; [|done]. by exists l. }
  destruct (String.eqb (sub_cmd_of args) "status"); [runs_quietly|].
  destruct (String.eqb (sub_cmd_of args) "draw").
  { destruct (lottery_state s0 !! room) as [l|] eqn:Hl; [|runs_quietly].
    destruct (negb (String.eqb (lottery_starter l) nick)) eqn:Hstarter; [runs_quietly|].
    apply negb_false_iff, string_eqb_true in Hstarter.
    destruct (elements (lottery_participants l)) as [|p ps] eqn:Hp; [runs_quietly|].
    apply runs_enqueue_sys; [|done]. exists l. split; [done|]. split; [done|].
    apply elem_of_elements. rewrite Hp. apply list_elem_of_In, nth_In.
    apply Nat.mod_upper_bound. done. }
  destruct (String.eqb (sub_cmd_of args) "cancel"); [|runs_quietly].
  destruct (lottery_state s0 !! room) as [l|] eqn:Hl; [|runs_quietly].
  destruct (negb (String.eqb (lottery_starter l) nick)) eqn:Hstarter; [runs_quietly|].
  apply negb_false_iff, string_eqb_true in Hstarter.
  apply runs_enqueue_sys; [|done]. by exists l.
Qed.

Lemma does_poll : does 1 (cmd_poll room nick server f args).
Proof.
  intros b. pose proof agreed_start. unfold cmd_poll.
  apply runs_get. cbv zeta.
  destruct (String.eqb (Py.lower args) "status"); [runs_quietly|].
  destruct (String.eqb (Py.lower args) "close").
  { apply runs_first; [|runs_quietly].
    destruct (poll_state s0 !! room) as [p|] eqn:Hp; [|runs_quietly].
    destruct (negb (String.eqb (poll_starter p) nick)) eqn:Hstarter; [runs_quietly|].
    apply negb_false_iff, string_eqb_true in Hstarter.
    apply runs_enqueue_sys; [|done]. by exists p. }
  destruct (poll_state s0 !! room) as [p|] eqn:Hp; [runs_quietly|].
  destruct (map _ _) as [|question options] eqn:Hparts; [runs_quietly|].
  destruct (_ <? 3)%nat eqn:Hfew; [runs_quietly|].
  destruct (10 <? _)%nat eqn:Hmany; [runs_quietly|].
  apply runs_first; [|runs_quietly]. apply runs_enqueue_sys; [|done].
  split; [done|]. apply Nat.ltb_ge in Hfew, Hmany. simpl in Hfew. lia.
Qed.

Lemma does_vote : does 1 (cmd_vote room nick server f args).
Proof.
  intros b. pose proof agreed_start. unfold cmd_vote.
  apply runs_get. destruct (poll_state s0 !! room) as [p|] eqn:Hp; [|runs_quietly].
  cbv zeta. destruct (Py.int (Py.strip args)) as [choice|]; [|runs_quietly].
  destruct (_ && _) eqn:Hrange; [|runs_quietly].
  apply andb_prop in Hrange as [Hlo Hhi]. apply Z.leb_le in Hlo, Hhi.
  apply runs_first; [|runs_quietly]. apply runs_enqueue_sys; [|done].
  exists p. split; [done | lia].
Qed.

Lemma does_download : does 1 (cmd_download room nick server f args).
Proof.
  intros b. pose proof agreed_start. unfold cmd_download. cbv zeta.
  match goal with |- runs _ _ _ (match ?parsed with _ => _ end) _ _ =>
    destruct parsed as [file_id|] end; [|runs_quietly].
  destruct (String.eqb file_id ""); [runs_quietly|].
  apply runs_get.
  destruct (available_files s0 !! file_id) as [info|] eqn:Hinfo; [|runs_quietly].
  destruct (negb (complete info)) eqn:Hcomplete; [runs_quietly|].
  apply negb_false_iff in Hcomplete.
  apply runs_then; [runs_quietly|]. intros [[temp_path|] [error|]] s b' Hs;
    [runs_quietly | | runs_quietly | runs_quietly].
  apply runs_get. apply runs_then; [runs_quietly|]. intros info' s1 b1 Hs1.
  apply runs_then; [runs_quietly|]. intros meta s2 b2 Hs2. cbv zeta.
  apply runs_first; [|runs_quietly].
  apply runs_try_except; [|runs_quietly].
  apply runs_then; [runs_quietly|]. intros _ s3 b3 Hs3.
  apply runs_then; [runs_quietly|]. intros _ s4 b4 Hs4.
  apply runs_first; [|runs_quietly]. apply runs_enqueue_sys; [|done].
  by exists info.
Qed.

Lemma does_share : does 1 (cmd_share o room nick server f args).
Proof.
  intros b. pose proof agreed_start. unfold cmd_share. cbv zeta.
  destruct (String.eqb _ ""); [runs_quietly|].
  apply runs_get.
  destruct (decide (expanduser (Py.strip args) ∈ dom (fs s0))) as [Hin|]; [|runs_quietly].
  apply runs_then; [runs_quietly|]. intros _ s b' Hs.
  destruct (file_transfer.split_file_to_chunks _ _ _ _ _) as [[md|] [chunks|error]]
    eqn:Hsplit; [|runs_quietly..].
  apply runs_first; [|runs_quietly].
  unfold file_transfer.enqueue_file_transfer. apply runs_put; [|done].
  repeat split. exists (expanduser (Py.strip args)).
  split; [by apply elem_of_dom | done].
Qed.

(** Whatever the command, the handler keeps the agreed state and puts
    at most one allowed item on the queue. *)
Lemma does_handle_command line secret is_tor :
  (Py.partition " " (Py.slice_from line 1)).2 = args ->
  does 1 (handle_command o line room nick server f secret is_public is_tor).
Proof.
  intros Hargs b. pose proof agreed_start. unfold handle_command.
  destruct (Py.partition " " (Py.slice_from line 1)) as [cmd args']. simpl in Hargs.
  subst args'.
  destruct (String.eqb cmd "exit"); [runs_quietly|].
  destruct (String.eqb cmd "clear"); [runs_quietly|].
  destruct (String.eqb cmd "clean-chat"); [apply does_clean_chat|].
  destruct (String.eqb cmd "who"); [unfold cmd_who; runs_quietly|].
  destruct (String.eqb cmd "help"); [unfold cmd_help; runs_quietly|].
  destruct (String.eqb cmd "stats"); [unfold cmd_stats; runs_quietly|].
  destruct (String.eqb cmd "lottery"); [apply does_lottery|].
  destruct (String.eqb cmd "poll"); [apply does_poll|].
  destruct (String.eqb cmd "vote"); [apply does_vote|].
  destruct (String.eqb cmd "security"); [unfold cmd_security; runs_quietly|].
  destruct (String.eqb cmd "notifications"); [unfold cmd_notifications; runs_quietly|].
  destruct (String.eqb cmd "files"); [unfold cmd_files; runs_quietly|].
  destruct (String.eqb cmd "download"); [apply does_download|].
  destruct (String.eqb cmd "share"); [apply does_share|].
  destruct (String.eqb cmd "server"); [unfold cmd_server; runs_quietly|].
  destruct (String.eqb cmd "share-room"); [unfold cmd_share_room; runs_quietly|].
  destruct (String.eqb cmd "copy-link"); [unfold cmd_copy_link; runs_quietly|].
  runs_quietly.
Qed.

End CommandIntents.

Section CommandTheorems.
Context `{PyLib} `{Host} `{Constants} `{Utils}.
Import commands.

(** The commands that can enqueue something. *)
Definition emitting_commands : list str :=
  ["clean-chat"; "lottery"; "poll"; "vote"; "download"; "share"].

Lemma quiet_handle_command o line room nick server f secret is_public is_tor G s b :
  (parse_line line).1 ∉ emitting_commands ->
  runs G s 0 (handle_command o line room nick server f secret is_public is_tor) s b.
Proof.
  intros Hcmd. assert (Hs : agreed s s) by (by repeat split).
  unfold handle_command. unfold parse_line in Hcmd.
  destruct (Py.partition " " (Py.slice_from line 1)) as [cmd args]. simpl in Hcmd.
  unfold emitting_commands in Hcmd. rewrite !not_elem_of_cons in Hcmd.
  destruct Hcmd as (N1 & N2 & N3 & N4 & N5 & N6 & _).
  apply string_eqb_false in N1, N2, N3, N4, N5, N6.
  rewrite N1, N2, N3, N4, N5, N6.
  destruct (String.eqb cmd "exit"); [runs_quietly|].
  destruct (String.eqb cmd "clear"); [runs_quietly|].
  destruct (String.eqb cmd "who"); [unfold cmd_who; runs_quietly|].
  destruct (String.eqb cmd "help"); [unfold cmd_help; runs_quietly|].
  destruct (String.eqb cmd "stats"); [unfold cmd_stats; runs_quietly|].
  destruct (String.eqb cmd "security"); [unfold cmd_security; runs_quietly|].
  destruct (String.eqb cmd "notifications"); [unfold cmd_notifications; runs_quietly|].
  destruct (String.eqb cmd "files"); [unfold cmd_files; runs_quietly|].
  destruct (String.eqb cmd "server"); [unfold cmd_server; runs_quietly|].
  destruct (String.eqb cmd "share-room"); [unfold cmd_share_room; runs_quietly|].
  destruct (String.eqb cmd "copy-link"); [unfold cmd_copy_link; runs_quietly|].
  runs_quietly.
Qed.


(** What a command puts on the outbox queue.  The items already queued
    stay, in their order; at most one item is appended; it carries the
    room, nick, server and key of the caller and has passed the local
    check of its kind ([allowed_sys]), or is the bundle of an existing
    file; and only the six commands that announce something append at
    all. *)
Theorem handle_command_enqueues_checked_intents (o : Oracle)
    (line room nick server : str) (f : fernet) (secret : str)
    (is_public is_tor : bool) (s : State) (buf : Buf) :
  let r := handle_command o line room nick server f secret is_public is_tor s buf in
  exists l,
    outbox_queue (state_of r) = outbox_queue s ++ l /\
    (List.length l <= 1)%nat /\
    Forall (allowed o room nick server f (parse_line line).2 is_public s) l /\
    ((parse_line line).1 ∉ emitting_commands -> l = []).
Proof.
  intros r.
  destruct (does_handle_command o room nick server f (parse_line line).2 is_public s
              line secret is_tor eq_refl buf) as (_ & l & Hl & Hlen & Hall).
  exists l. split; [done|]. split; [done|]. split; [done|].
  intros Hquiet.
  destruct (quiet_handle_command o line room nick server f secret is_public is_tor
              (fun _ => True) s buf Hquiet) as (_ & l' & Hl' & Hlen' & _).
  rewrite Hl in Hl'. apply app_inv_head in Hl'. subst l'.
  destruct l; [done | simpl in Hlen'; lia].
Qed.

(** A computation that does not answer a string. *)
Definition silent (m : M (option str)) : Prop :=
  forall s b x, outcome_of (m s b) <> Ok (Some x).

Lemma silent_ret : silent (ret None).
Proof. by intros s b x. Qed.

Lemma silent_raise e : silent (raise e).
Proof. by intros s b x. Qed.

Lemma silent_bind {A} (m : M A) (k : A -> M (option str)) :
  (forall a, silent (k a)) -> silent (bind m k).
Proof.
  intros Hk s b x. unfold bind.
  destruct (m s b) as [[[a|e] s'] b']; [apply Hk | done].
Qed.

Ltac silent :=
  repeat first
    [ progress intros
    | apply silent_ret | apply silent_raise | apply silent_bind
    | match goal with
      | |- silent (match ?x with _ => _ end) => destruct x
      | |- silent (let '(_, _) := ?x in _) => destruct x
      end ].

(** The handler answers [exit] for the command [exit], leaving the
    state and the buffer alone, and answers no string for any other
    command: the chat loop is left on [/exit] only. *)
Theorem handle_command_exits_only_on_exit (o : Oracle) (line room nick server : str)
    (f : fernet) (secret : str) (is_public is_tor : bool) (s : State) (buf : Buf) :
  let r := handle_command o line room nick server f secret is_public is_tor s buf in
  ((parse_line line).1 = "exit" -> r = (Ok (Some "exit"), s, buf)) /\
  (forall x, outcome_of r = Ok (Some x) -> (parse_line line).1 = "exit").
Proof.
  intros r. subst r. unfold handle_command, parse_line.
  destruct (Py.partition " " (Py.slice_from line 1)) as [cmd args]. simpl.
  destruct (String.eqb cmd "exit") eqn:Hexit.
  - apply string_eqb_true in Hexit. by split.
  - apply string_eqb_false in Hexit. split; [done|]. intros x Hx. exfalso.
    revert Hx.
    match goal with |- outcome_of (?m s buf) = _ -> _ =>
      assert (Hm : silent m); [|apply Hm] end.
    unfold cmd_clean_chat, cmd_who, cmd_help, cmd_stats, cmd_lottery, cmd_poll, cmd_vote,
      cmd_security, cmd_notifications, cmd_files, cmd_download, cmd_share, cmd_server,
      cmd_share_room, cmd_copy_link.
    silent.
Qed.



End CommandTheorems.

Section CommandExamples.
Import reference.


End CommandExamples.

(** ** The lifetime of a session key (session_key.py) *)
Section SessionKeyLifetime.
Context `{PyLib}.
Import session_key.

Lemma int_of_float_bounds (x : Q) :
  (0 <= x)%Q ->
  (inject_Z (Py.int_of_float x) <= x)%Q /\ (x < inject_Z (Py.int_of_float x) + 1)%Q.
Proof.
  intros Hx. unfold Py.int_of_float.
  apply Qle_bool_iff in Hx. rewrite Hx. split.
  - apply Qfloor_le.
  - pose proof (Qlt_floor x) as Hlt. rewrite inject_Z_plus in Hlt. exact Hlt.
Qed.

(** The stored creation time is the clock reading cut to whole seconds,
    so a key ages up to one second faster than the clock.  A key stored
    at [now] is kept by [should_rotate_key] while no more than 299
    seconds have passed, and is due for rotation once more than 300
    seconds have passed. *)
Theorem session_key_lifetime (now now' : Q) (room : str) (key : bytes) (s : State) :
  (0 <= now)%Q ->
  let s' := set_session_key now room key s in
  ((now' - now <= 299)%Q -> should_rotate_key now' room s' = false) /\
  ((300 < now' - now)%Q -> should_rotate_key now' room s' = true).
Proof.
  intros Hnow s'. subst s'. unfold should_rotate_key, set_session_key. simpl.
  rewrite lookup_insert_eq.
  destruct (int_of_float_bounds now Hnow) as [Hlo Hhi].
  change (inject_Z SESSION_KEY_ROTATION_INTERVAL) with (300 # 1)%Q.
  split; intros Hage.
  - apply not_true_is_false. rewrite Qgtb_spec. lra.
  - apply Qgtb_spec. lra.
Qed.

End SessionKeyLifetime.

Section SessionKeyLifetimeExample.
Import reference.

(** A key stored at 1000.5 s is still current at 1200 s. *)
Lemma session_key_lifetime_witness :
  session_key.should_rotate_key 1200 "lobby"
    (session_key.set_session_key (2001 # 2) "lobby" "k" empty_state) = false.
Proof.
  apply (session_key_lifetime (2001 # 2) 1200 "lobby" "k" empty_state).
  - vm_compute. discriminate.
  - vm_compute. discriminate.
Defined.

End SessionKeyLifetimeExample.

(** ** Durations of share links (link_sharing.py) *)
Section ParseTime.
Context `{PyLib}.
Import link_sharing.


Lemma chars_lower (a : string) : Py.chars (Py.lower a) = map Py.lower_char (Py.chars a).
Proof. unfold Py.lower. apply chars_of_chars. Qed.









End ParseTime.


(** ** Keyboard input (input.py) *)
Section InputFacts.
Import input.

(** The characters that are typed text for both loops. *)
Definition is_text (ch : str) : bool :=
  negb (bool_decide (ch ∈ [LF; CR; ETX; DEL; BS])).

Lemma is_text_tests ch :
  is_text ch = true ->
  String.eqb ch LF = false /\ String.eqb ch CR = false /\ String.eqb ch ETX = false /\
  String.eqb ch DEL = false /\ String.eqb ch BS = false.
Proof.
  unfold is_text. rewrite negb_true_iff, bool_decide_eq_false.
  rewrite !not_elem_of_cons. intros (N1 & N2 & N3 & N4 & N5 & _).
  by repeat split; apply string_eqb_false.
Qed.

Lemma posix_key_text ch st :
  is_text ch = true -> posix_key ch st = set_current_input (current_input st ++ [ch]) st.
Proof.
  intros (E1 & E2 & E3 & E4 & E5)%is_text_tests. unfold posix_key.
  by rewrite E1, E2, E3, E4, E5.
Qed.

Lemma win_key_text ch st :
  is_text ch = true -> win_key ch st = set_current_input (current_input st ++ [ch]) st.
Proof.
  intros (E1 & E2 & E3 & E4 & E5)%is_text_tests. unfold win_key.
  by rewrite E1, E2, E3, E5.
Qed.

Lemma posix_app keys keys' st : _posix (keys ++ keys') st = _posix keys' (_posix keys st).
Proof. apply foldl_app. Qed.

Lemma win_app keys keys' st : _win (keys ++ keys') st = _win keys' (_win keys st).
Proof. apply foldl_app. Qed.

(** The exit requests among the keys, and the text among them. *)
Definition interrupts (keys : list str) : list str :=
  (fun _ => "/exit") <$> filter (fun ch => ch = ETX) keys.

Definition text_of (keys : list str) : list str :=
  filter (fun ch => ch <> ETX) keys.

Lemma typing keys st :
  Forall (fun ch => is_text ch = true \/ ch = ETX) keys ->
  _posix keys st =
    {| current_input := current_input st ++ text_of keys;
       input_queue := input_queue st ++ interrupts keys |} /\
  _win keys st = _posix keys st.
Proof.
  intros Hkeys. revert st. induction Hkeys as [|ch keys Hch _ IH]; intros st.
  - unfold text_of, interrupts. simpl. rewrite !app_nil_r. by destruct st.
  - unfold _posix, _win in *. cbn [foldl].
    assert (Hstep : win_key ch st = posix_key ch st /\
              posix_key ch st =
                {| current_input := current_input st ++ text_of [ch];
                   input_queue := input_queue st ++ interrupts [ch] |}).
    { destruct Hch as [Htext| ->].
      - rewrite win_key_text, posix_key_text by done. split; [done|].
        unfold text_of, interrupts.
        rewrite filter_cons_True by (intros ->; done).
        rewrite filter_cons_False by (intros ->; done).
        simpl. by rewrite app_nil_r.
      - split; [done|]. unfold text_of, interrupts, posix_key, put. simpl.
        by rewrite app_nil_r. }
    destruct Hstep as [Hw Hp]. rewrite Hw.
    destruct (IH (posix_key ch st)) as [Hp' Hw']. rewrite Hw', Hp'. split; [|done].
    rewrite Hp. simpl.
    unfold text_of, interrupts. rewrite <- !app_assoc.
    change (ch :: keys) with ([ch] ++ keys). by rewrite !filter_app, fmap_app.
Qed.

(** A line and its Enter key.  When the keys read before Enter are
    typed text or Ctrl+C, the loop queues one [/exit] for each Ctrl+C
    and then, at Enter, the text typed so far joined into one line; the
    text on either side of a Ctrl+C is kept.  After Enter the line
    buffer is empty.  The two loops do the same on such keys. *)
Theorem typed_line_is_queued (keys : list str) (enter : str) (st : InputState) :
  Forall (fun ch => is_text ch = true \/ ch = ETX) keys ->
  enter = LF \/ enter = CR ->
  _posix (keys ++ [enter]) st =
    {| current_input := [];
       input_queue := input_queue st ++ interrupts keys
                        ++ [String.concat "" (current_input st ++ text_of keys)] |} /\
  _win (keys ++ [enter]) st = _posix (keys ++ [enter]) st.
Proof.
  intros Hkeys Henter. rewrite posix_app, win_app.
  destruct (typing keys st Hkeys) as [-> ->].
  unfold _posix, _win. cbn [foldl].
  destruct Henter as [-> | ->]; unfold posix_key, win_key, set_current_input, put; simpl;
    by rewrite <- app_assoc.
Qed.

Lemma removelast_snoc {A} (l : list A) x : removelast (l ++ [x]) = l.
Proof. apply removelast_last. Qed.

Lemma erasing (erase : str) (key : str -> InputState -> InputState) typed k st :
  (forall st', current_input st' <> [] ->
     key erase st' = set_current_input (removelast (current_input st')) st') ->
  (k <= List.length typed)%nat ->
  foldl (fun st ch => key ch st) (set_current_input (current_input st ++ typed) st)
        (replicate k erase)
  = set_current_input (current_input st ++ take (List.length typed - k) typed) st.
Proof.
  intros Hkey. revert typed. induction k as [|k IH]; intros typed Hk.
  - simpl. by rewrite Nat.sub_0_r, firstn_all.
  - destruct typed as [|x typed _] using rev_ind; [simpl in Hk; lia|].
    rewrite length_app in Hk |- *. simpl in Hk |- *.
    rewrite Hkey.
    2:{ simpl. intros Hnil. apply app_eq_nil in Hnil as [_ Hnil].
        by apply app_eq_nil in Hnil as [_ Hnil]. }
    simpl. rewrite app_assoc, removelast_snoc.
    change (set_current_input (current_input st ++ typed)
              (set_current_input ((current_input st ++ typed) ++ [x]) st))
      with (set_current_input (current_input st ++ typed) st).
    rewrite IH by lia.
    replace (List.length typed + 1 - S k)%nat with (List.length typed - k)%nat by lia.
    rewrite take_app_le by lia. done.
Qed.

(** Erasing.  After some text has been typed, each erase key takes
    the last character off the line, and the queue is left alone: the
    POSIX loop erases on DEL and on backspace, the Windows loop on
    backspace.  With nothing on the line the erase key is not
    ignored but put on the line as a character, and the Windows loop
    does so with DEL at any time. *)
Theorem erase_keys_take_back_text (typed : list str) (k : nat) (st : InputState) :
  Forall (fun ch => is_text ch = true) typed ->
  (k <= List.length typed)%nat ->
  let erased :=
    {| current_input := current_input st ++ take (List.length typed - k) typed;
       input_queue := input_queue st |} in
  _posix (typed ++ replicate k DEL) st = erased /\
  _posix (typed ++ replicate k BS) st = erased /\
  _win (typed ++ replicate k BS) st = erased /\
  (forall erase, erase = DEL \/ erase = BS ->
     current_input st = [] ->
     posix_key erase st = set_current_input [erase] st /\
     win_key erase st = set_current_input [erase] st) /\
  win_key DEL st = set_current_input (current_input st ++ [DEL]) st.
Proof.
  intros Htyped Hk erased.
  assert (Hkeys : Forall (fun ch => is_text ch = true \/ ch = ETX) typed)
    by (eapply Forall_impl; [exact Htyped | by left]).
  assert (Htext : text_of typed = typed).
  { unfold text_of. clear Hk Hkeys.
    induction Htyped as [|ch typed Hch _ IH]; [done|].
    rewrite filter_cons_True by (intros ->; done). by rewrite IH. }
  assert (Hint : interrupts typed = []).
  { unfold interrupts. clear Hk Hkeys Htext.
    induction Htyped as [|ch typed Hch _ IH]; [done|].
    rewrite filter_cons_False by (intros ->; done). exact IH. }
  destruct (typing typed st Hkeys) as [Hposix Hwin].
  rewrite Htext, Hint, app_nil_r in Hposix.
  assert (Hstart : _posix typed st = set_current_input (current_input st ++ typed) st)
    by (by rewrite Hposix).
  assert (Hnonempty : forall st' : InputState, current_input st' <> [] ->
            bool_decide (current_input st' = []) = false)
    by (intros st' Hne; by apply bool_decide_eq_false).
  split; [|split; [|split; [|split]]].
  - rewrite posix_app, Hstart. unfold _posix.
    rewrite (erasing DEL posix_key) by
      (done || (intros st' Hne; unfold posix_key; simpl; by rewrite (Hnonempty st' Hne))).
    done.
  - rewrite posix_app, Hstart. unfold _posix.
    rewrite (erasing BS posix_key) by
      (done || (intros st' Hne; unfold posix_key; simpl; by rewrite (Hnonempty st' Hne))).
    done.
  - rewrite win_app, Hwin, Hstart. unfold _win.
    rewrite (erasing BS win_key) by
      (done || (intros st' Hne; unfold win_key; simpl; by rewrite (Hnonempty st' Hne))).
    done.
  - intros erase [-> | ->] Hempty; unfold posix_key, win_key; simpl;
      rewrite Hempty; by simpl.
  - done.
Qed.

(** The lines a loop has queued while reading [keys]. *)
Definition queued (loop : list str -> InputState -> InputState) (keys : list str)
    (st : InputState) : list str :=
  drop (List.length (input_queue st)) (input_queue (loop keys st)).

Definition single_line (line : str) : Prop :=
  (ascii_of_nat 10 ∉ Py.chars line) /\ (ascii_of_nat 13 ∉ Py.chars line).

Definition one_character (ch : str) : Prop := (String.length ch <= 1)%nat.

Lemma chars_concat (l : list str) :
  Py.chars (String.concat "" l) = concat (Py.chars <$> l).
Proof.
  induction l as [|x l IH]; [done|].
  rewrite str_concat_cons, chars_app, IH. done.
Qed.

Lemma one_character_not_newline ch :
  one_character ch -> String.eqb ch LF = false -> String.eqb ch CR = false ->
  single_line ch.
Proof.
  unfold one_character. intros Hlen HLF HCR.
  apply string_eqb_false in HLF, HCR.
  destruct ch as [|c [|c' rest]];
    [split; apply not_elem_of_nil | | simpl in Hlen; lia].
  change (Py.chars (String c "")) with [c].
  split; intros Hin%list_elem_of_singleton; subst c; by (apply HLF || apply HCR).
Qed.

Lemma single_line_concat (l : list str) :
  Forall single_line l -> single_line (String.concat "" l).
Proof.
  intros Hl. unfold single_line. rewrite chars_concat.
  induction Hl as [|x l [Hx1 Hx2] _ [IH1 IH2]]; [by split; intros ?%elem_of_nil|].
  rewrite fmap_cons. cbn [concat]. rewrite !elem_of_app. tauto.
Qed.

Lemma removelast_Forall {A} (P : A -> Prop) (l : list A) :
  Forall P l -> Forall P (removelast l).
Proof.
  intros Hl. destruct l as [|x l _] using rev_ind; [done|].
  rewrite removelast_snoc. by apply Forall_app in Hl as [Hl _].
Qed.

Section Loop.
Variable key : str -> InputState -> InputState.
Hypothesis key_cases : forall ch st,
  (String.eqb ch LF || String.eqb ch CR = true /\
   key ch st = set_current_input [] (put (String.concat "" (current_input st)) st)) \/
  (ch = ETX /\ key ch st = put "/exit" st) \/
  (String.eqb ch LF || String.eqb ch CR = false /\ ch <> ETX /\
   (key ch st = set_current_input (removelast (current_input st)) st \/
    key ch st = set_current_input (current_input st ++ [ch]) st)).

Lemma loop_queue keys st :
  Forall one_character keys ->
  Forall single_line (current_input st) ->
  exists lines,
    input_queue (foldl (fun st ch => key ch st) st keys) = input_queue st ++ lines /\
    List.length lines = List.length (filter (fun ch => ch ∈ [LF; CR; ETX]) keys) /\
    Forall single_line lines /\
    Forall single_line (current_input (foldl (fun st ch => key ch st) st keys)).
Proof.
  intros Hkeys. revert st. induction Hkeys as [|ch keys Hch _ IH]; intros st Hcur.
  - exists []. simpl. by rewrite app_nil_r.
  - cbn [foldl].
    destruct (key_cases ch st) as [[Henter Hstep]|[[-> Hstep]|(Hother & Hne & Hstep)]].
    + destruct (IH (key ch st)) as (lines & Hq & Hlen & Hlines & Hcur').
      { rewrite Hstep. constructor. }
      exists (String.concat "" (current_input st) :: lines).
      rewrite Hq, Hstep. cbn [input_queue set_current_input put current_input].
      rewrite <- app_assoc. split; [done|]. split.
      * rewrite filter_cons_True; [cbn [List.length]; by rewrite Hlen|].
        apply orb_true_iff in Henter as [E|E]; apply string_eqb_true in E; subst ch.
        -- apply list_elem_of_here.
        -- apply list_elem_of_further, list_elem_of_here.
      * split; [|by rewrite Hstep in Hcur'].
        constructor; [by apply single_line_concat | done].
    + destruct (IH (key ETX st)) as (lines & Hq & Hlen & Hlines & Hcur').
      { by rewrite Hstep. }
      exists ("/exit" :: lines). rewrite Hq, Hstep.
      cbn [input_queue set_current_input put current_input]. rewrite <- app_assoc.
      split; [done|]. split.
      * rewrite filter_cons_True; [cbn [List.length]; by rewrite Hlen|].
        do 2 apply list_elem_of_further. apply list_elem_of_here.
      * split; [|by rewrite Hstep in Hcur']. constructor; [|done]. split; by_evaluation.
    + apply orb_false_iff in Hother as [HLF HCR].
      destruct (IH (key ch st)) as (lines & Hq & Hlen & Hlines & Hcur').
      { destruct Hstep as [-> | ->]; simpl.
        - by apply removelast_Forall.
        - apply Forall_app. split; [done|]. constructor; [|done].
          by apply one_character_not_newline. }
      exists lines. rewrite Hq.
      assert (Hsame : input_queue (key ch st) = input_queue st)
        by (destruct Hstep as [-> | ->]; done).
      rewrite Hsame. split; [done|]. split; [|done].
      rewrite filter_cons_False; [done|].
      rewrite !elem_of_cons. apply string_eqb_false in HLF, HCR.
      intros [?|[?|[?|?%elem_of_nil]]]; done.
Qed.

End Loop.

Lemma posix_key_cases ch st :
  (String.eqb ch LF || String.eqb ch CR = true /\
   posix_key ch st = set_current_input [] (put (String.concat "" (current_input st)) st)) \/
  (ch = ETX /\ posix_key ch st = put "/exit" st) \/
  (String.eqb ch LF || String.eqb ch CR = false /\ ch <> ETX /\
   (posix_key ch st = set_current_input (removelast (current_input st)) st \/
    posix_key ch st = set_current_input (current_input st ++ [ch]) st)).
Proof.
  unfold posix_key. destruct (String.eqb ch LF || String.eqb ch CR) eqn:Henter.
  - by left.
  - right. destruct (String.eqb ch ETX) eqn:Hetx.
    + apply string_eqb_true in Hetx. subst ch. by left.
    + apply string_eqb_false in Hetx. right. split; [done|]. split; [done|].
      destruct (_ && _); [by left | by right].
Qed.

Lemma win_key_cases ch st :
  (String.eqb ch LF || String.eqb ch CR = true /\
   win_key ch st = set_current_input [] (put (String.concat "" (current_input st)) st)) \/
  (ch = ETX /\ win_key ch st = put "/exit" st) \/
  (String.eqb ch LF || String.eqb ch CR = false /\ ch <> ETX /\
   (win_key ch st = set_current_input (removelast (current_input st)) st \/
    win_key ch st = set_current_input (current_input st ++ [ch]) st)).
Proof.
  unfold win_key. rewrite (orb_comm (String.eqb ch CR)).
  destruct (String.eqb ch LF || String.eqb ch CR) eqn:Henter.
  - by left.
  - right. destruct (String.eqb ch ETX) eqn:Hetx.
    + apply string_eqb_true in Hetx. subst ch. by left.
    + apply string_eqb_false in Hetx. right. split; [done|]. split; [done|].
      destruct (_ && _); [by left | by right].
Qed.

(** What reaches the chat loop.  Whatever single characters the
    input thread reads, starting with an empty line, the lines queued
    before stay queued in their order, one line is queued for each
    Enter and each Ctrl+C read, and no queued line contains a line
    feed or a carriage return.  This holds for both loops. *)
Theorem queued_lines_are_single_lines (keys : list str) (queue : list str) :
  Forall one_character keys ->
  let st := {| current_input := []; input_queue := queue |} in
  forall loop, loop = _posix \/ loop = _win ->
    input_queue (loop keys st) = queue ++ queued loop keys st /\
    List.length (queued loop keys st)
      = List.length (filter (fun ch => ch ∈ [LF; CR; ETX]) keys) /\
    Forall single_line (queued loop keys st).
Proof.
  intros Hkeys st loop Hloop.
  assert (Hq : exists lines,
    input_queue (loop keys st) = input_queue st ++ lines /\
    List.length lines = List.length (filter (fun ch => ch ∈ [LF; CR; ETX]) keys) /\
    Forall single_line lines).
  { destruct Hloop as [-> | ->].
    - destruct (loop_queue posix_key posix_key_cases keys st Hkeys)
        as (lines & Hq & Hlen & Hlines & _); [constructor|]. by exists lines.
    - destruct (loop_queue win_key win_key_cases keys st Hkeys)
        as (lines & Hq & Hlen & Hlines & _); [constructor|]. by exists lines. }
  destruct Hq as (lines & Hq & Hlen & Hlines).
  unfold queued. rewrite Hq. rewrite drop_app_length. done.
Qed.

End InputFacts.

Section InputExamples.
Import input.

(** Typing [hi], Ctrl+C, [!] and Enter. *)
Lemma typed_line_is_queued_witness :
  _posix ["h"; "i"; ETX; "!"; LF] {| current_input := []; input_queue := [] |}
    = {| current_input := []; input_queue := ["/exit"; "hi!"] |}.
Proof.
  destruct (typed_line_is_queued ["h"; "i"; ETX; "!"] LF
              {| current_input := []; input_queue := [] |}) as [Hposix _].
  - repeat constructor; (by left) || (by right).
  - by left.
  - exact Hposix.
Defined.

(** Typing [helo], taking the last two characters back. *)
Lemma erase_keys_take_back_text_witness :
  _posix ["h"; "e"; "l"; "o"; DEL; DEL] {| current_input := []; input_queue := [] |}
    = {| current_input := ["h"; "e"]; input_queue := [] |}.
Proof.
  destruct (erase_keys_take_back_text ["h"; "e"; "l"; "o"] 2
              {| current_input := []; input_queue := [] |}) as [Hposix _].
  - by repeat constructor.
  - simpl. lia.
  - exact Hposix.
Defined.

(** Two lines typed on Windows. *)
Lemma queued_lines_are_single_lines_witness :
  Forall single_line
    (queued _win ["a"; CR; "b"; CR] {| current_input := []; input_queue := ["old"] |}).
Proof.
  destruct (queued_lines_are_single_lines ["a"; CR; "b"; CR] ["old"]) with (loop := _win)
    as (_ & _ & Hlines).
  - repeat constructor.
  - by right.
  - exact Hlines.
Defined.

End InputExamples.

(** ** Saving a download (commands.py) *)
Section DownloadFacts.
Context `{PyLib} `{Host} `{Constants} `{Utils}.
Import file_transfer commands.

Local Arguments free_path : simpl never.












End DownloadFacts.

Section DownloadExamples.
Import reference.







End DownloadExamples.


(** ** What a share link is taken apart into (link_sharing.py) *)
Section LinkParsing.
Import link_sharing.

(** [sep.join(fields)] on lists of characters. *)
Fixpoint join_chars (sep : list ascii) (fields : list (list ascii)) : list ascii :=
  match fields with
  | [] => []
  | [field] => field
  | field :: rest => field ++ sep ++ join_chars sep rest
  end.

Lemma split_go_skip sep m a rest :
  Py.split_go sep m (List.length a) (a ++ rest) = Py.split_go sep m 0 rest.
Proof. induction a as [|x a IH]; [done|]. exact IH. Qed.

Lemma is_prefix_app sep l :
  Py.is_prefix sep l = true -> exists rest, l = sep ++ rest.
Proof.
  revert l. induction sep as [|a sep IH]; intros l; [by exists l|].
  destruct l as [|b l]; [done|]. simpl.
  intros [Hab Hrest]%andb_prop. apply ascii_eqb_true in Hab. subst b.
  destruct (IH l Hrest) as [rest ->]. by exists rest.
Qed.

Lemma split_go_join sep l :
  sep <> [] ->
  Py.split_go sep None 0 l <> [] /\ join_chars sep (Py.split_go sep None 0 l) = l.
Proof.
  intros Hsep. remember (List.length l) as n eqn:Hn. revert l Hn.
  induction n as [n IH] using lt_wf_ind. intros l Hn.
  destruct l as [|c l]; [done|]. cbn [Py.split_go]. simpl andb.
  destruct (Py.is_prefix sep (c :: l)) eqn:Hprefix.
  - destruct (is_prefix_app _ _ Hprefix) as [rest Hrest].
    destruct sep as [|x sep]; [done|]. injection Hrest as <- ->.
    replace (List.length (c :: sep) - 1)%nat with (List.length sep) by (simpl; lia).
    change (Nat.pred <$> None) with (@None nat). rewrite split_go_skip.
    destruct (IH (List.length rest)) with (l := rest) as [Hne Hjoin].
    { subst n. simpl. rewrite length_app. lia. }
    { done. }
    split; [done|].
    destruct (Py.split_go (c :: sep) None 0 rest) as [|field fields]; [done|].
    change (join_chars (c :: sep) ([] :: field :: fields))
      with ((c :: sep) ++ join_chars (c :: sep) (field :: fields)).
    by rewrite Hjoin.
  - destruct (IH (List.length l)) with (l := l) as [Hne Hjoin].
    { subst n. simpl. lia. }
    { done. }
    destruct (Py.split_go sep None 0 l) as [|field fields]; [done|].
    split; [done|]. rewrite <- Hjoin. by destruct fields.
Qed.

Lemma split_go_fields (c : ascii) l :
  Forall (fun field => c ∉ field) (Py.split_go [c] None 0 l).
Proof.
  induction l as [|x l IH]; [repeat constructor; apply not_elem_of_nil|].
  cbn [Py.split_go Py.is_prefix]. simpl andb.
  destruct (Py.ascii_eqb c x) eqn:Hc; simpl.
  - constructor; [apply not_elem_of_nil | done].
  - apply ascii_eqb_false in Hc.
    destruct (Py.split_go [c] None 0 l) as [|field fields].
    + repeat constructor. apply not_elem_of_cons. split; [done | apply not_elem_of_nil].
    + apply Forall_cons in IH as [Hfield Hfields]. constructor; [|done].
      apply not_elem_of_cons. by split.
Qed.

Lemma map_of_chars_two (fields : list (list ascii)) (a b : string) :
  map Py.of_chars fields = [a; b] -> fields = [Py.chars a; Py.chars b].
Proof.
  destruct fields as [|x [|y [|z fields]]]; try done.
  simpl. intros [= <- <-]. by rewrite !chars_of_chars.
Qed.

(** Whatever [parse_share_url] accepts has the shape of a share link:
    some text, the marker [/join#], the session id, a colon and the
    key, where neither the session id nor the key contains a colon.
    The text before the marker is not looked at. *)
Theorem parse_share_url_shape (url session_id key : str) :
  parse_share_url url = Some (session_id, key) ->
  (exists before, url = before +:+ "/join#" +:+ session_id +:+ ":" +:+ key) /\
  (":"%char ∉ Py.chars session_id) /\ (":"%char ∉ Py.chars key).
Proof.
  unfold parse_share_url, Py.split.
  destruct (split_go_join (Py.chars "/join#") (Py.chars url)) as [_ Hurl]; [done|].
  destruct (map Py.of_chars (Py.split_go (Py.chars "/join#") None 0 (Py.chars url)))
    as [|before [|fragment [|]]] eqn:Hfields; try done.
  apply map_of_chars_two in Hfields. rewrite Hfields in Hurl.
  destruct (split_go_join (Py.chars ":") (Py.chars fragment)) as [_ Hfragment]; [done|].
  pose proof (split_go_fields ":" (Py.chars fragment)) as Hcolon.
  change [":"%char] with (Py.chars ":") in Hcolon.
  destruct (map Py.of_chars (Py.split_go (Py.chars ":") None 0 (Py.chars fragment)))
    as [|sid [|k [|]]] eqn:Hparts; try done.
  apply map_of_chars_two in Hparts. rewrite Hparts in Hfragment, Hcolon.
  intros [= -> ->].
  apply Forall_cons in Hcolon as [Hsid Hkey]. apply Forall_cons in Hkey as [Hkey _].
  split; [|done]. exists before. apply chars_inj.
  rewrite !chars_app. cbn [join_chars] in Hurl, Hfragment.
  by rewrite Hfragment, Hurl.
Qed.

End LinkParsing.

Section LinkParsingExample.
Import link_sharing.

(** A link to another host is taken apart all the same. *)
Lemma parse_share_url_shape_witness :
  exists before,
    "http://other.example/join#s1:a2V5" = before +:+ "/join#" +:+ "s1" +:+ ":" +:+ "a2V5".
Proof.
  apply (parse_share_url_shape "http://other.example/join#s1:a2V5" "s1" "a2V5").
  reflexivity.
Defined.

End LinkParsingExample.

(** ** Joining through a share link (enchat.py) *)
Section JoinFacts.
Context `{PyLib}.
Import link_sharing enchat.

(** From the sharing of a room to the joining of it.  Take the link
    that [construct_share_url] builds from a session id and the key of
    [generate_link_components], and a link server that answers the
    payload for that session id.  [join_from_link] then starts the chat
    in the room that was shared, on its server and with its secret,
    under the nickname typed.  The room name and the server contain no
    vertical bar, the session id and the key no colon and no [/join#],
    and the payload is not empty. *)
Theorem shared_link_joins_room (ephemeral_key : bytes) (f : fernet) (rnd : entropy)
    (room_name room_secret server_url payload key session_id display_name : str)
    (get_remote_payload : str -> option str) (tor : bool) :
  Fernet ephemeral_key = Some f ->
  "|"%char ∉ Py.chars room_name -> "|"%char ∉ Py.chars server_url ->
  generate_link_components ephemeral_key rnd room_name room_secret server_url
    = Ok (payload, key) ->
  ":"%char ∉ Py.chars session_id -> ":"%char ∉ Py.chars key ->
  Py.contains "/join#" session_id = false -> Py.contains "/join#" key = false ->
  payload <> "" ->
  get_remote_payload session_id = Some payload ->
  join_from_link get_remote_payload display_name (construct_share_url session_id key) tor
    = start_chat room_name display_name room_secret server_url tor.
Proof.
  intros Hf Hroom Hserver Hgen Hsid Hkey Jsid Jkey Hpayload Hget.
  unfold join_from_link.
  rewrite (parse_construct session_id key Hsid Hkey Jsid Jkey), Hget.
  apply string_eqb_false in Hpayload. rewrite Hpayload.
  destruct (credentials_roundtrip ephemeral_key f rnd room_name room_secret server_url
              Hf Hroom Hserver) as (payload' & key' & Hgen' & Hdec).
  rewrite Hgen in Hgen'. injection Hgen' as <- <-. by rewrite Hdec.
Qed.

End JoinFacts.

Section JoinExample.
Import link_sharing enchat.

(** The room [lobby] shared under the session [s1]. *)
Lemma shared_link_joins_room_witness :
  join_from_link (H := reference.lib)
    (fun session_id => if String.eqb session_id "s1" then Some "klobby|https://ntfy.sh|pass"
                       else None)
    "ann" (construct_share_url "s1" "k") false
  = start_chat "lobby" "ann" "pass" "https://ntfy.sh" false.
Proof.
  apply (shared_link_joins_room (H := reference.lib) "k" "k" tt "lobby" "pass"
           "https://ntfy.sh" "klobby|https://ntfy.sh|pass" "k" "s1" "ann").
  - reflexivity.
  - by_evaluation.
  - by_evaluation.
  - reflexivity.
  - by_evaluation.
  - by_evaluation.
  - reflexivity.
  - reflexivity.
  - discriminate.
  - reflexivity.
Defined.

End JoinExample.

(** ** Commands that are accepted (commands.py) *)
Section AcceptedCommands.
Context `{PyLib} `{Host} `{Constants} `{Utils}.
Import commands.

Lemma partition_chars_app (c : ascii) a b :
  c ∉ a -> Py.partition_chars c (a ++ c :: b) = (a, true, b).
Proof.
  induction a as [|x a IH]; intros Ha.
  - simpl. unfold Py.ascii_eqb. by rewrite Ascii.eqb_refl.
  - apply not_elem_of_cons in Ha as [Hne Ha]. simpl.
    assert (Py.ascii_eqb x c = false) as -> by (apply ascii_eqb_false; congruence).
    by rewrite IH.
Qed.

(** A command word followed by a space and the arguments. *)
Lemma parse_line_word (word args : str) :
  " "%char ∉ Py.chars word ->
  parse_line ("/" +:+ word +:+ " " +:+ args) = (word, args).
Proof.
  intros Hword. unfold parse_line, Py.slice_from, Py.partition.
  change (Py.chars ("/" +:+ word +:+ " " +:+ args))
    with ("/"%char :: Py.chars (word +:+ " " +:+ args)).
  simpl drop. rewrite chars_of_chars, chars_app. change (drop 0 ?l) with l.
  change (Py.chars (" " +:+ args)) with (" "%char :: Py.chars args).
  rewrite partition_chars_app by done. by rewrite !of_chars_chars.
Qed.

Lemma handle_vote o line room nick server f secret is_public is_tor :
  (parse_line line).1 = "vote" ->
  handle_command o line room nick server f secret is_public is_tor
    = cmd_vote room nick server f (parse_line line).2.
Proof.
  unfold handle_command, parse_line.
  destruct (Py.partition " " (Py.slice_from line 1)) as [cmd args]. simpl.
  by intros ->.
Qed.

Lemma handle_lottery o line room nick server f secret is_public is_tor :
  (parse_line line).1 = "lottery" ->
  handle_command o line room nick server f secret is_public is_tor
    = cmd_lottery o room nick server f (parse_line line).2.
Proof.
  unfold handle_command, parse_line.
  destruct (Py.partition " " (Py.slice_from line 1)) as [cmd args]. simpl.
  by intros ->.
Qed.

Lemma handle_poll o line room nick server f secret is_public is_tor :
  (parse_line line).1 = "poll" ->
  handle_command o line room nick server f secret is_public is_tor
    = cmd_poll room nick server f (parse_line line).2.
Proof.
  unfold handle_command, parse_line.
  destruct (Py.partition " " (Py.slice_from line 1)) as [cmd args]. simpl.
  by intros ->.
Qed.

Lemma pretty_Z_no_space (z : Z) :
  Forall (fun c => Py.isspace c = false) (Py.chars (pretty z)).
Proof.
  assert (Hn : forall n : N, Forall (fun c => Py.isspace c = false) (Py.chars (pretty n))).
  { intros n. destruct (pretty_N_chars n) as [_ Hds].
    eapply Forall_impl; [exact Hds | intros c; apply digit_not_space]. }
  destruct z as [|p|p].
  - by repeat constructor.
  - apply (Hn (N.pos p)).
  - change (pretty (Z.neg p)) with ("-" +:+ pretty (N.pos p)).
    change (Py.chars ("-" +:+ pretty (N.pos p)))
      with ("-"%char :: Py.chars (pretty (N.pos p))).
    constructor; [done | apply Hn].
Qed.

(** Voting by number.  With a poll running in the room, [/vote]
    followed by the decimal text of [k] sends the vote for option
    [k - 1] when [k] is between 1 and the number of options, and
    leaves the buffer alone; for any other integer it sends nothing
    and shows the range of valid choices. *)
Theorem vote_command_sends_choice (o : Oracle) (room nick server : str) (f : fernet)
    (secret : str) (is_public is_tor : bool) (s : State) (buf : Buf) (p : Poll) (k : Z) :
  poll_state s !! room = Some p ->
  let n := List.length (poll_options p) in
  let r := handle_command o ("/vote " +:+ pretty k) room nick server f secret
             is_public is_tor s buf in
  (1 <= k <= Z.of_nat n ->
   r = (Ok None,
        set_outbox_queue (outbox_queue s ++ [SYS room nick (POLL_VOTE (k - 1)) server f]) s,
        buf)) /\
  (k < 1 \/ Z.of_nat n < k -> r = (Ok None, s, buf ++ [system (InvalidChoice n)])).
Proof.
  intros Hpoll n r. subst r.
  assert (Hline : parse_line ("/vote " +:+ pretty k) = ("vote", pretty k))
    by (apply (parse_line_word "vote"); by_evaluation).
  rewrite handle_vote by (by rewrite Hline). rewrite Hline. cbn [snd].
  unfold cmd_vote, enqueue_sys, say, append, bind, get, modify, modify_buf, ret.
  rewrite Hpoll. unfold Py.strip. rewrite strip_with_none by apply pretty_Z_no_space.
  rewrite int_pretty_Z. fold n.
  split.
  - intros [Hlo Hhi].
    rewrite (proj2 (Z.leb_le 1 k) Hlo), (proj2 (Z.leb_le k (Z.of_nat n)) Hhi). done.
  - intros Hout.
    destruct Hout as [Hlo|Hhi].
    + by rewrite (proj2 (Z.leb_gt 1 k) Hlo).
    + rewrite (proj2 (Z.leb_gt k (Z.of_nat n)) Hhi). by rewrite andb_false_r.
Qed.

(** Drawing the lottery.  Every participant can be drawn: for each
    of them there is a pick of the random generator with which
    [/lottery draw] of the starter announces that participant as the
    winner. *)
Theorem lottery_draw_can_pick_anyone (room nick server : str) (f : fernet)
    (secret : str) (is_public is_tor : bool) (s : State) (buf : Buf) (l : Lottery)
    (winner : str) :
  lottery_state s !! room = Some l ->
  lottery_starter l = nick ->
  winner ∈ lottery_participants l ->
  exists i : nat, forall o : Oracle,
    random_index o = i ->
    handle_command o "/lottery draw" room nick server f secret is_public is_tor s buf
      = (Ok None,
         set_outbox_queue
           (outbox_queue s ++ [SYS room nick (LOTTERY_WINNER winner) server f]) s,
         trim buf).
Proof.
  intros Hlottery Hstarter Hwinner.
  apply elem_of_elements, list_elem_of_lookup in Hwinner as [i Hi].
  exists i. intros o Ho.
  rewrite handle_lottery by reflexivity.
  change (parse_line "/lottery draw").2 with "draw".
  unfold cmd_lottery. change (sub_cmd_of "draw") with "draw".
  unfold bind at 1. unfold get at 1. rewrite Hlottery.
  change (String.eqb "draw" "start") with false.
  change (String.eqb "draw" "enter") with false.
  change (String.eqb "draw" "status") with false.
  change (String.eqb "draw" "draw") with true. cbv iota.
  rewrite Hstarter, String.eqb_refl. cbn [negb].
  destruct (elements (lottery_participants l)) as [|p ps] eqn:Hps; [done|].
  rewrite Ho. pose proof (lookup_lt_Some _ _ _ Hi) as Hlt.
  rewrite Nat.mod_small by exact Hlt.
  rewrite (nth_lookup_Some _ _ p _ Hi). done.
Qed.

(** A field of [/poll] as it is sent: white space and then double
    quotes are taken off both ends. *)
Definition clean (field : str) : str :=
  Py.strip_char (ascii_of_nat 34) (Py.strip field).

Lemma concat_sep_cons (sep x y : string) (l : list string) :
  String.concat sep (x :: y :: l) = x +:+ sep +:+ String.concat sep (y :: l).
Proof. reflexivity. Qed.

Lemma split_concat (c : ascii) (fields : list str) :
  fields <> [] -> Forall (fun x => c ∉ Py.chars x) fields ->
  Py.split (String c "") None (String.concat (String c "") fields) = fields.
Proof.
  intros Hne Hfields. unfold Py.split. change (Py.chars (String c "")) with [c].
  induction Hfields as [|x fields Hx Hfields IH]; [done|]. clear Hne.
  destruct fields as [|y fields].
  - simpl String.concat. rewrite split_go_no_occurrence by by apply occurs_char.
    simpl. by rewrite of_chars_chars.
  - rewrite concat_sep_cons, chars_app.
    change (Py.chars (String c "" +:+ String.concat (String c "") (y :: fields)))
      with (c :: Py.chars (String.concat (String c "") (y :: fields))).
    rewrite split_go_char_app by done.
    change (Nat.pred <$> None) with (@None nat). cbn [map].
    rewrite IH by done. by rewrite of_chars_chars.
Qed.

Lemma lower_keeps_bar (args : str) :
  "|"%char ∈ Py.chars args -> "|"%char ∈ Py.chars (Py.lower args).
Proof.
  intros Hin. unfold Py.lower. rewrite chars_of_chars.
  apply list_elem_of_fmap. by exists "|"%char.
Qed.

(** Starting a poll.  With no poll running in the room, [/poll]
    followed by a question and options separated by vertical bars
    sends one [POLL_START] with the cleaned question and the cleaned
    options, in their order, when there are between two and ten
    options.  With one option the usage is shown and with more than
    ten the limit; nothing is sent then. *)
Theorem poll_command_starts_poll (o : Oracle) (room nick server : str) (f : fernet)
    (secret : str) (is_public is_tor : bool) (s : State) (buf : Buf)
    (question : str) (options : list str) :
  poll_state s !! room = None ->
  Forall (fun x => "|"%char ∉ Py.chars x) (question :: options) ->
  let r := handle_command o ("/poll " +:+ String.concat "|" (question :: options))
             room nick server f secret is_public is_tor s buf in
  ((2 <= List.length options <= 10)%nat ->
   r = (Ok None,
        set_outbox_queue
          (outbox_queue s
             ++ [SYS room nick (POLL_START (clean question) (clean <$> options)) server f])
          s,
        buf)) /\
  (List.length options = 1%nat -> r = (Ok None, s, buf ++ [system PollUsage])) /\
  ((10 < List.length options)%nat ->
   r = (Ok None, s, buf ++ [system PollTooManyOptions])).
Proof.
  intros Hpoll Hfields r.
  assert (Hrun : (1 <= List.length options)%nat ->
    r = (if (S (List.length options) <? 3)%nat then say PollUsage ;;; ret None
         else if (10 <? List.length options)%nat then say PollTooManyOptions ;;; ret None
         else enqueue_sys room nick (POLL_START (clean question) (clean <$> options))
                server f ;;; ret None) s buf).
  { intros Hlen. unfold r. set (args := String.concat "|" (question :: options)).
    assert (Hline : parse_line ("/poll " +:+ args) = ("poll", args))
      by (apply (parse_line_word "poll"); by_evaluation).
    rewrite handle_poll by (by rewrite Hline). rewrite Hline. cbn [snd].
    assert (Hbar : "|"%char ∈ Py.chars (Py.lower args)).
    { apply lower_keeps_bar. unfold args.
      destruct options as [|option options]; [simpl in Hlen; lia|].
      rewrite concat_sep_cons, chars_app. apply elem_of_app. right.
      apply list_elem_of_here. }
    assert (Hstatus : String.eqb (Py.lower args) "status" = false).
    { apply string_eqb_false. intros Heq. rewrite Heq in Hbar. revert Hbar. by_evaluation. }
    assert (Hclose : String.eqb (Py.lower args) "close" = false).
    { apply string_eqb_false. intros Heq. rewrite Heq in Hbar. revert Hbar. by_evaluation. }
    unfold cmd_poll. unfold bind at 1. unfold get at 1.
    rewrite Hstatus, Hclose, Hpoll.
    unfold args. rewrite (split_concat "|"%char) by done.
    cbn [map List.length]. rewrite length_map. done. }
  split; [|split]; intros Hlen; rewrite Hrun by lia.
  - rewrite (proj2 (Nat.ltb_ge _ _)) by lia. rewrite (proj2 (Nat.ltb_ge _ _)) by lia. done.
  - rewrite (proj2 (Nat.ltb_lt _ _)) by lia. done.
  - rewrite (proj2 (Nat.ltb_ge _ _)) by lia. rewrite (proj2 (Nat.ltb_lt _ _)) by lia. done.
Qed.

End AcceptedCommands.

Section AcceptedCommandsExample.
Import reference.

(** A room with a poll of two options. *)
Definition poll_room : State := {|
  room_participants := ∅; notifications_enabled := true;
  available_files := ∅; file_chunks := ∅; outbox_queue := [];
  tor_ip := None; lottery_state := ∅;
  poll_state := {["room" := {| poll_starter := "ann"; poll_question := "Tea?";
                               poll_options := ["yes"; "no"]; poll_votes := ∅ |}]};
  last_generated_link := ""; active_sessions := ∅; fs := ∅;
|}.

Lemma vote_command_sends_choice_witness :
  commands.handle_command oracle "/vote 2" "room" "me" "srv" "key" "secret" false false
    poll_room []
  = (Ok None,
     set_outbox_queue (outbox_queue poll_room ++ [SYS "room" "me" (POLL_VOTE 1) "srv" "key"])
       poll_room,
     []).
Proof.
  apply (vote_command_sends_choice oracle "room" "me" "srv" "key" "secret" false false
           poll_room []
           {| poll_starter := "ann"; poll_question := "Tea?";
              poll_options := ["yes"; "no"]; poll_votes := ∅ |} 2).
  - reflexivity.
  - simpl. lia.
Defined.

(** A room with a lottery of [ann] and two participants. *)
Definition lottery_room : State := {|
  room_participants := ∅; notifications_enabled := true;
  available_files := ∅; file_chunks := ∅; outbox_queue := [];
  tor_ip := None;
  lottery_state := {["room" := {| lottery_starter := "ann";
                                  lottery_participants := {["bob"; "cy"]} |}]};
  poll_state := ∅;
  last_generated_link := ""; active_sessions := ∅; fs := ∅;
|}.

Lemma lottery_draw_can_pick_anyone_witness :
  exists i : nat, forall o : @commands.Oracle lib,
    commands.random_index o = i ->
    commands.handle_command o "/lottery draw" "room" "ann" "srv" "key" "secret" false false
      lottery_room []
      = (Ok None,
         set_outbox_queue
           (outbox_queue lottery_room ++ [SYS "room" "ann" (LOTTERY_WINNER "cy") "srv" "key"])
           lottery_room,
         trim []).
Proof.
  apply (lottery_draw_can_pick_anyone (H := lib) "room" "ann" "srv" "key" "secret" false false
           lottery_room []
           {| lottery_starter := "ann"; lottery_participants := {["bob"; "cy"]} |} "cy").
  - reflexivity.
  - reflexivity.
  - set_solver.
Defined.


(** A question with two options, typed with spaces around the fields. *)
Lemma poll_command_starts_poll_witness :
  outbox_queue
    (state_of
       (commands.handle_command oracle
          ("/poll " +:+ String.concat "|" ["Tea? "; " yes "; " 'no'"])
          "room" "me" "srv" "key" "secret" false false empty_state []))
  = [SYS "room" "me" (POLL_START "Tea?" ["yes"; "'no'"]) "srv" "key"].
Proof.
  destruct (poll_command_starts_poll oracle "room" "me" "srv" "key" "secret" false false
              empty_state [] "Tea? " [" yes "; " 'no'"]) as [Hstart _].
  - reflexivity.
  - repeat constructor; by_evaluation.
  - rewrite Hstart by (simpl; lia). reflexivity.
Defined.

End AcceptedCommandsExample.
